(** * TeleLink: link extraction engine and SQLite persistence layer

    A shallow embedding of [telelink/link_extractor.py], of the [has_link]
    computation of [telelink/telegram_client.py] and of the CRUD and query
    helpers of [telelink/db.py], followed by the properties the
    specification states about them; [extract_links] is embedded a second
    time on an explicit store of objects, where what a call allocates,
    mutates and returns can be told apart. Further parts of the program are
    embedded after these: the channel table and the retry loop of
    [connect], the scraping and import loops of [telelink/ui/app.py],
    the parser of channel identifiers and [get_channel_info] of
    [telelink/telegram_client.py], and the cleaning of message text in
    [telelink/html_import.py]; their properties close the file.

    Text is modelled by Rocq's [string]: a sequence of code points below 256.
    On that range the character classes below ([\s], [str.lower], the
    case-insensitive literals of the URL pattern) coincide with what CPython
    computes for [str] values. *)

From Stdlib Require Import ZArith Ascii String List Bool Lia.
From Stdlib Require Import DecimalString DecimalFacts DecimalPos DecimalZ.
From stdpp Require Import base decidable option list gmap strings sorting.

Local Open Scope string_scope.
Local Open Scope Z_scope.

(** ** Python [str] operations used by the sources *)

Module PyStr.

Definition code (c : ascii) : N := N_of_ascii c.

Definition in_range (lo hi : N) (c : ascii) : bool :=
  ((lo <=? code c) && (code c <=? hi))%N.

(** [c in chars], for a character and a string. *)
Fixpoint mem (c : ascii) (chars : string) : bool :=
  match chars with
  | EmptyString => false
  | String d rest => if Ascii.eqb c d then true else mem c rest
  end.

(** [c in s] for a one-character string [c]. *)
Definition contains_char (s : string) (c : ascii) : bool := mem c s.

(** Python truthiness of a [str]. *)
Definition truthy (s : string) : bool :=
  match s with EmptyString => false | String _ _ => true end.

(** [str.isspace] on one character, equally the regex class [\s] of a
    [str] pattern: 0x09-0x0D, 0x1C-0x20, 0x85 and 0xA0. *)
Definition is_space (c : ascii) : bool :=
  in_range 9 13 c || in_range 28 32 c
  || (code c =? 133)%N || (code c =? 160)%N.

(** [str.lower] on one character: A-Z, and the Latin-1 capitals
    0xC0-0xDE except the multiplication sign 0xD7, move up by 32. *)
Definition lower_char (c : ascii) : ascii :=
  if in_range 65 90 c
     || (in_range 192 222 c && negb (code c =? 215)%N)
  then ascii_of_N (code c + 32)
  else c.

Fixpoint lower (s : string) : string :=
  match s with
  | EmptyString => EmptyString
  | String c rest => String (lower_char c) (lower rest)
  end.

(** [s.lstrip(chars)], [s.rstrip(chars)] and [s.strip(chars)]: every
    leading (trailing) character that belongs to [chars] goes. *)
Fixpoint lstrip (chars : string) (s : string) : string :=
  match s with
  | EmptyString => EmptyString
  | String c rest => if mem c chars then lstrip chars rest else s
  end.

Fixpoint rstrip (chars : string) (s : string) : string :=
  match s with
  | EmptyString => EmptyString
  | String c rest =>
      match rstrip chars rest with
      | EmptyString => if mem c chars then EmptyString else String c EmptyString
      | kept => String c kept
      end
  end.

Definition strip (chars : string) (s : string) : string :=
  lstrip chars (rstrip chars s).

(** [s[:n]] and [s[n:]] for [n >= 0]. *)
Fixpoint take (n : nat) (s : string) : string :=
  match n, s with
  | S n', String c rest => String c (take n' rest)
  | _, _ => EmptyString
  end.

Fixpoint drop (n : nat) (s : string) : string :=
  match n, s with
  | S n', String _ rest => drop n' rest
  | _, _ => s
  end.

(** [s[offset : offset + length]] for non-negative bounds; like Python's
    slice it is clipped to the string. *)
Definition slice (offset len : nat) (s : string) : string :=
  take len (drop offset s).

(** [s.startswith(p)], returning what follows the prefix. *)
Fixpoint strip_prefix (p s : string) : option string :=
  match p, s with
  | EmptyString, _ => Some s
  | String a p', String b s' =>
      if Ascii.eqb a b then strip_prefix p' s' else None
  | String _ _, EmptyString => None
  end.

Definition startswith (p s : string) : bool :=
  match strip_prefix p s with Some _ => true | None => false end.

(** [s.replace(old, new)] for a non-empty [old]: the occurrences are
    replaced from left to right and do not overlap. [skip] counts the
    characters of a replaced occurrence still to be passed over. *)
Fixpoint replace_from (skip : nat) (old new s : string) : string :=
  match s with
  | EmptyString => EmptyString
  | String c rest =>
      match skip with
      | S k => replace_from k old new rest
      | O =>
          if startswith old s
          then new ++ replace_from (Nat.pred (String.length old)) old new rest
          else String c (replace_from O old new rest)
      end
  end.

Definition replace (old new s : string) : string := replace_from O old new s.

(** [s.find(c)] for a one-character [c]: [None] stands for [-1]. *)
Fixpoint find_char (c : ascii) (s : string) : option nat :=
  match s with
  | EmptyString => None
  | String d rest =>
      if Ascii.eqb c d then Some O else option_map S (find_char c rest)
  end.

Fixpoint all_chars (p : ascii -> bool) (s : string) : bool :=
  match s with
  | EmptyString => true
  | String c rest => p c && all_chars p rest
  end.

(** Length of the longest prefix made of characters satisfying [p]. *)
Fixpoint span_len (p : ascii -> bool) (s : string) : nat :=
  match s with
  | EmptyString => O
  | String c rest => if p c then S (span_len p rest) else O
  end.

(** Characters of [s] not satisfying [p], in order. *)
Fixpoint remove_chars (p : ascii -> bool) (s : string) : string :=
  match s with
  | EmptyString => EmptyString
  | String c rest =>
      if p c then remove_chars p rest else String c (remove_chars p rest)
  end.

End PyStr.

(** ** The URL pattern of [link_extractor.py]

    [URL_REGEX]: the scheme [http] or [https] and [://], both matched
    case-insensitively ([re.IGNORECASE]), then one or more characters that
    are neither whitespace nor one of the fourteen excluded punctuation
    characters. *)

Module Regex.
Import PyStr.

(** A literal of the pattern under [re.IGNORECASE]: below 256 the letters
    h, t, p and s are matched by themselves and by their capitals only. *)
Definition ieq (c lit : ascii) : bool := Ascii.eqb (lower_char c) lit.

Fixpoint strip_prefix_ci (p s : string) : option string :=
  match p, s with
  | EmptyString, _ => Some s
  | String a p', String b s' =>
      if ieq b a then strip_prefix_ci p' s' else None
  | String _ _, EmptyString => None
  end.

(** The characters the class excludes besides whitespace: angle
    brackets, the double quote (34), braces, the bar, the backslash (92),
    the caret, the backquote, square brackets, the apostrophe and
    parentheses. *)
Definition excluded : string :=
  String "<" (String ">" (String (ascii_of_nat 34) (String "{" (String "}"
  (String "|" (String (ascii_of_nat 92) (String "^" (String "`" (String "["
  (String "]" (String "'" (String "(" (String ")" EmptyString))))))))))))).

Definition url_char (c : ascii) : bool :=
  negb (is_space c || mem c excluded).

(** [://] then the greedy, non-empty run of the class; the number of
    characters consumed. *)
Definition match_tail (s : string) : option nat :=
  match strip_prefix "://" s with
  | Some rest =>
      match span_len url_char rest with
      | O => None
      | S n => Some (3 + S n)%nat
      end
  | None => None
  end.

(** A match of the whole pattern anchored at the start of [s]: its length.
    The optional [s] is tried first, then given back. *)
Definition match_at (s : string) : option nat :=
  match strip_prefix_ci "http" s with
  | None => None
  | Some r =>
      let with_s :=
        match strip_prefix_ci "s" r with
        | Some r' => option_map (Nat.add 5) (match_tail r')
        | None => None
        end in
      match with_s with
      | Some n => Some n
      | None => option_map (Nat.add 4) (match_tail r)
      end
  end.

(** [URL_REGEX.findall(text)]: the matches from left to right, the scan
    resuming after each one. [skip] counts the characters of the last
    match still to be passed over. *)
Fixpoint findall_from (skip : nat) (text : string) : list string :=
  match text with
  | EmptyString => []
  | String _ rest =>
      match skip with
      | S k => findall_from k rest
      | O =>
          match match_at text with
          | Some n => take n text :: findall_from (Nat.pred n) rest
          | None => findall_from O rest
          end
      end
  end.

Definition URL_REGEX_findall (text : string) : list string :=
  findall_from O text.

(** [re.search(r'https?://', text)] of [telegram_client.py], as a
    boolean. This one is compiled without [re.IGNORECASE]. *)
Definition scheme_at (s : string) : bool :=
  startswith "http://" s || startswith "https://" s.

Fixpoint search_scheme (text : string) : bool :=
  scheme_at text ||
  match text with
  | EmptyString => false
  | String _ rest => search_scheme rest
  end.

End Regex.

(** ** [urllib.parse.urlparse(url).netloc]

    The standard library is not part of the repository: the extraction
    engine below takes the function as a parameter, and [CPython.netloc]
    is the instance used on concrete inputs. *)

Module CPython.
Import PyStr.

Definition is_c0_or_space (c : ascii) : bool := in_range 0 32 c.

Definition is_tab_cr_lf (c : ascii) : bool :=
  (code c =? 9)%N || (code c =? 13)%N || (code c =? 10)%N.

Definition is_ascii_alpha (c : ascii) : bool :=
  in_range 65 90 c || in_range 97 122 c.

(** [scheme_chars]: letters, digits and [+-.] *)
Definition scheme_char (c : ascii) : bool :=
  is_ascii_alpha c || in_range 48 57 c || mem c "+-.".

Definition lstrip_c0 (s : string) : string :=
  drop (span_len is_c0_or_space s) s.

(** The scheme is cut off when the text before the first colon is
    non-empty, starts with an ASCII letter and is made of scheme
    characters. *)
Definition drop_scheme (url : string) : string :=
  match find_char ":" url with
  | Some (S i) =>
      match url with
      | String c _ =>
          if is_ascii_alpha c && all_chars scheme_char (take (S i) url)
          then drop (S (S i)) url
          else url
      | EmptyString => url
      end
  | _ => url
  end.

Definition is_delim (c : ascii) : bool := mem c "/?#".

(** [_splitnetloc(url, 2)]: from index 2 up to the first of [/?#]. *)
Definition splitnetloc (url : string) : string :=
  let rest := drop 2 url in
  take (span_len (fun c => negb (is_delim c)) rest) rest.

(** [urlsplit(url).netloc], [None] when [ValueError] is raised. The
    validation of a bracketed host, which newer interpreters add, is the
    parameter [bracket_ok]. On code points below 256 [_checknetloc] never
    raises: none of them normalises under NFKC to a string containing one
    of [/?#@:]. *)
Definition urlsplit_netloc (bracket_ok : string -> bool) (url : string)
  : option string :=
  let url := lstrip_c0 url in
  let url := remove_chars is_tab_cr_lf url in
  let url := drop_scheme url in
  if startswith "//" url then
    let netloc := splitnetloc url in
    let lb := contains_char netloc "[" in
    let rb := contains_char netloc "]" in
    if (lb && negb rb) || (rb && negb lb) then None
    else if lb && rb then (if bracket_ok netloc then Some netloc else None)
    else Some netloc
  else Some EmptyString.

(** Interpreters before 3.11.4 accept any bracketed host. *)
Definition netloc : string -> option string :=
  urlsplit_netloc (fun _ => true).

End CPython.

(** ** Telethon values read by the sources *)

Module Telethon.

(** [isinstance(ent, MessageEntityTextUrl)], [isinstance(ent,
    MessageEntityUrl)], or any other entity class. An entity of one of the
    two classes exists only where the class was imported, so the guards
    [MessageEntityTextUrl is not None] and the like hold whenever the
    loops they protect have something to do. *)
Inductive MessageEntity :=
| MessageEntityTextUrl (offset length : nat) (url : string)
| MessageEntityUrl (offset length : nat)
| MessageEntityOther.

(** A button: [getattr(button, "url", None)] and
    [getattr(button, "text", "")] read these two attributes. *)
Record KeyboardButton := {
  button_url : option string;
  button_text : option string
}.

(** [getattr(markup, "rows", [])], each row through
    [getattr(row, "buttons", [])]. *)
Record ReplyMarkup := { rows : list (list KeyboardButton) }.

Record WebPage := { webpage_url : option string }.

Inductive MessageMedia :=
| MessageMediaWebPage (webpage : option WebPage)
| MessageMediaOther.

Record MessageFwdHeader := {
  from_name : option string;
  from_id : option string      (* [str(from_id)] of a peer *)
}.

Record Message := {
  id : Z;
  message : option string;
  date : option string;        (* [msg.date.isoformat()] *)
  sender_id : option Z;
  fwd_from : option MessageFwdHeader;
  entities : option (list MessageEntity);
  reply_markup : option ReplyMarkup;
  media : option MessageMedia
}.

End Telethon.

(** Python truthiness of an optional string: neither [None] nor empty. *)
Definition truthy_opt (o : option string) : option string :=
  match o with
  | Some s => if PyStr.truthy s then Some s else None
  | None => None
  end.

(** ** [link_extractor.py] *)

Module LinkExtractor.
Import Telethon.

Record LinkRecord := {
  url : string;
  domain : string;
  anchor_text : option string;
  source : string;
  message_id : Z;
  message_date : option string;
  channel_name : string;
  forward_from : option string
}.

(** The message dict: [message_id], [channel_name] and the keys read
    with [.get]. *)
Record message_dict := {
  md_message_id : Z;
  md_text : option string;
  md_date : option string;
  md_sender_id : option Z;
  md_has_link : bool;
  md_channel_name : string;
  md_forward_from : option string
}.

Definition _dedup_key (message_id : Z) (url : string) : Z * string :=
  (message_id, PyStr.lower (PyStr.strip "/" url)).

(** The local state of one call: [seen_keys] and [results]. *)
Record state := {
  seen_keys : gset (Z * string);
  results : list LinkRecord
}.

Definition fresh : state := {| seen_keys := ∅; results := [] |}.

Section Engine.
(** [urlparse(url).netloc]; [None] when the call raises. *)
Variable urlparse_netloc : string -> option string.

Definition _extract_domain (url : string) : string :=
  match urlparse_netloc url with
  | Some netloc =>
      if PyStr.truthy netloc then PyStr.replace "www." "" netloc else ""
  | None => ""
  end.

Section Call.
(** What the closure [_add] captures. *)
Variable msg_id : Z.
Variable date : option string.
Variable channel : string.
Variable forward_from_ : option string.

Definition _add (url_ : string) (source_ : string)
           (anchor : option string) (st : state) : state :=
  let key := _dedup_key msg_id url_ in
  if decide (key ∈ seen_keys st) then st
  else {| seen_keys := seen_keys st ∪ {[ key ]};
          results := results st ++
            [ {| url := url_;
                 domain := _extract_domain url_;
                 anchor_text := anchor;
                 source := source_;
                 message_id := msg_id;
                 message_date := date;
                 channel_name := channel;
                 forward_from := forward_from_ |} ] |}.

(** METHOD 1 *)
Definition method1 (text : string) (ents : list MessageEntity)
           (st : state) : state :=
  foldl (fun st ent =>
           match ent with
           | MessageEntityTextUrl o l u =>
               _add u "entity_texturl" (Some (PyStr.slice o l text)) st
           | _ => st
           end) st ents.

(** METHOD 2 *)
Definition method2 (text : string) (ents : list MessageEntity)
           (st : state) : state :=
  foldl (fun st ent =>
           match ent with
           | MessageEntityUrl o l =>
               _add (PyStr.slice o l text) "entity_url" None st
           | _ => st
           end) st ents.

(** METHOD 3 *)
Definition method3 (text : string) (st : state) : state :=
  foldl (fun st u => _add u "regex" None st) st
        (Regex.URL_REGEX_findall text).

(** METHOD 4 *)
Definition add_button (st : state) (button : KeyboardButton) : state :=
  match truthy_opt (button_url button) with
  | Some btn_url =>
      _add btn_url "button" (Some (default "" (button_text button))) st
  | None => st
  end.

Definition method4 (raw_message : option Message) (st : state) : state :=
  match raw_message with
  | Some raw =>
      match reply_markup raw with
      | Some markup =>
          foldl (fun st row => foldl add_button st row) st (rows markup)
      | None => st
      end
  | None => st
  end.

(** METHOD 5 *)
Definition method5 (raw_message : option Message) (st : state) : state :=
  match raw_message with
  | Some raw =>
      match media raw with
      | Some (MessageMediaWebPage (Some webpage)) =>
          match truthy_opt (webpage_url webpage) with
          | Some wp_url => _add wp_url "webpage_preview" None st
          | None => st
          end
      | _ => st
      end
  | None => st
  end.

End Call.

Definition extract_links (m : message_dict) (raw_message : option Message)
  : list LinkRecord :=
  let msg_id := md_message_id m in
  let text := default "" (md_text m) in
  let date := md_date m in
  let channel := md_channel_name m in
  let forward_from := md_forward_from m in
  let entities :=
    match raw_message with
    | Some raw => default [] (entities raw)
    | None => []
    end in
  let st := fresh in
  let st := method1 msg_id date channel forward_from text entities st in
  let st := method2 msg_id date channel forward_from text entities st in
  let st := method3 msg_id date channel forward_from text st in
  let st := method4 msg_id date channel forward_from raw_message st in
  let st := method5 msg_id date channel forward_from raw_message st in
  results st.

End Engine.

End LinkExtractor.

(** ** [link_extractor.py] on the store of the interpreter

    [seen_keys] and [results] are objects: [set()] and the empty list
    display allocate them at each call, [_add] mutates them through the
    closure, and [return results] hands the list object itself to the
    caller. Here the objects live in a store that the calls made one
    after the other share, so that what a call leaves behind and what it
    finds can be told apart from what it returns. The module itself binds
    no object a call writes to. *)

Module Heap.
Import Telethon LinkExtractor.

Inductive object : Type :=
  | SetObject (keys : gset (Z * string))
  | ListObject (items : list LinkRecord).

(** The store, of type [gmap positive object], holds the objects that
    exist, by reference. A new object gets a reference that no object of
    the store has. *)
Definition new (o : object) (s : gmap positive object)
  : positive * gmap positive object :=
  let ref := stdpp.base.fresh (dom s) in (ref, <[ref := o]> s).

Section Engine.
Variable urlparse_netloc : string -> option string.

Section Call.
Variable msg_id : Z.
Variable date : option string.
Variable channel : string.
Variable forward_from_ : option string.
(** The two cells of the closure [_add]. *)
Variable seen_keys_ref : positive.
Variable results_ref : positive.

(** [seen_keys.add(key)] and [results.append(...)] write to the two
    objects where they are. *)
Definition _add (url_ : string) (source_ : string)
           (anchor : option string) (s : gmap positive object)
  : gmap positive object :=
  match s !! seen_keys_ref, s !! results_ref with
  | Some (SetObject keys), Some (ListObject items) =>
      let key := _dedup_key msg_id url_ in
      if decide (key ∈ keys) then s
      else
        let s := <[seen_keys_ref := SetObject (keys ∪ {[ key ]})]> s in
        <[results_ref :=
            ListObject
              (items ++
               [ {| url := url_;
                    domain := _extract_domain urlparse_netloc url_;
                    anchor_text := anchor;
                    source := source_;
                    message_id := msg_id;
                    message_date := date;
                    channel_name := channel;
                    forward_from := forward_from_ |} ])]> s
  | _, _ => s
  end.

(** METHOD 1 *)
Definition method1 (text : string) (ents : list MessageEntity)
           (s : gmap positive object) : gmap positive object :=
  foldl (fun s ent =>
           match ent with
           | MessageEntityTextUrl o l u =>
               _add u "entity_texturl" (Some (PyStr.slice o l text)) s
           | _ => s
           end) s ents.

(** METHOD 2 *)
Definition method2 (text : string) (ents : list MessageEntity)
           (s : gmap positive object) : gmap positive object :=
  foldl (fun s ent =>
           match ent with
           | MessageEntityUrl o l =>
               _add (PyStr.slice o l text) "entity_url" None s
           | _ => s
           end) s ents.

(** METHOD 3 *)
Definition method3 (text : string) (s : gmap positive object)
  : gmap positive object :=
  foldl (fun s u => _add u "regex" None s) s (Regex.URL_REGEX_findall text).

(** METHOD 4 *)
Definition add_button (s : gmap positive object) (button : KeyboardButton)
  : gmap positive object :=
  match truthy_opt (button_url button) with
  | Some btn_url =>
      _add btn_url "button" (Some (default "" (button_text button))) s
  | None => s
  end.

Definition method4 (raw_message : option Message) (s : gmap positive object)
  : gmap positive object :=
  match raw_message with
  | Some raw =>
      match reply_markup raw with
      | Some markup =>
          foldl (fun s row => foldl add_button s row) s (rows markup)
      | None => s
      end
  | None => s
  end.

(** METHOD 5 *)
Definition method5 (raw_message : option Message) (s : gmap positive object)
  : gmap positive object :=
  match raw_message with
  | Some raw =>
      match media raw with
      | Some (MessageMediaWebPage (Some webpage)) =>
          match truthy_opt (webpage_url webpage) with
          | Some wp_url => _add wp_url "webpage_preview" None s
          | None => s
          end
      | _ => s
      end
  | None => s
  end.

End Call.

(** One call: the reference it returns and the store it leaves. *)
Definition extract_links (m : message_dict) (raw_message : option Message)
           (s : gmap positive object) : positive * gmap positive object :=
  let msg_id := md_message_id m in
  let text := default "" (md_text m) in
  let date := md_date m in
  let channel := md_channel_name m in
  let forward_from := md_forward_from m in
  let entities :=
    match raw_message with
    | Some raw => default [] (entities raw)
    | None => []
    end in
  let seen_keys := new (SetObject ∅) s in
  let results := new (ListObject []) seen_keys.2 in
  let s := results.2 in
  let s := method1 msg_id date channel forward_from seen_keys.1 results.1
                   text entities s in
  let s := method2 msg_id date channel forward_from seen_keys.1 results.1
                   text entities s in
  let s := method3 msg_id date channel forward_from seen_keys.1 results.1
                   text s in
  let s := method4 msg_id date channel forward_from seen_keys.1 results.1
                   raw_message s in
  let s := method5 msg_id date channel forward_from seen_keys.1 results.1
                   raw_message s in
  (results.1, s).

(** Calls one after the other, each on the store the calls before it
    left: the references returned, in order, and the final store. *)
Fixpoint extract_calls (calls : list (message_dict * option Message))
         (s : gmap positive object) : list positive * gmap positive object :=
  match calls with
  | [] => ([], s)
  | call :: rest =>
      let first := extract_links call.1 call.2 s in
      let others := extract_calls rest first.2 in
      (first.1 :: others.1, others.2)
  end.

End Engine.

(** The store [s] holds the local state [st] of a call in the two cells
    of its closure, and is the store [s0] elsewhere. *)
Definition holds (seen_keys_ref results_ref : positive)
           (s0 : gmap positive object)
           (st : state) (s : gmap positive object) : Prop :=
  s !! seen_keys_ref = Some (SetObject (seen_keys st))
  /\ s !! results_ref = Some (ListObject (results st))
  /\ forall ref, ref <> seen_keys_ref -> ref <> results_ref ->
                 s !! ref = s0 !! ref.

End Heap.

(** ** [telegram_client.py]: what [fetch_messages] yields for one message *)

Module TelegramClient.
Import Telethon.

Definition is_link_entity (ent : MessageEntity) : bool :=
  match ent with
  | MessageEntityTextUrl _ _ _ | MessageEntityUrl _ _ => true
  | MessageEntityOther => false
  end.

Definition button_has_url (btn : KeyboardButton) : bool :=
  match truthy_opt (button_url btn) with Some _ => true | None => false end.

(** The [has_link] flag, check after check, each one skipped once the flag
    is set. *)
Definition has_link (msg : Message) : bool :=
  let has_link := false in
  let has_link :=
    match entities msg with
    | Some ents => existsb is_link_entity ents
    | None => has_link
    end in
  let has_link :=
    if negb has_link then
      match reply_markup msg with
      | Some markup => existsb (existsb button_has_url) (rows markup)
      | None => has_link
      end
    else has_link in
  let has_link :=
    if negb has_link then
      match media msg with
      | Some (MessageMediaWebPage _) => true
      | _ => has_link
      end
    else has_link in
  let has_link :=
    if negb has_link then
      match truthy_opt (message msg) with
      | Some text => Regex.search_scheme text
      | None => has_link
      end
    else has_link in
  has_link.

(** Forward source (REC-09). *)
Definition forward_from_of (msg : Message) : option string :=
  match fwd_from msg with
  | Some hdr =>
      match truthy_opt (from_name hdr) with
      | Some name => Some name
      | None => from_id hdr
      end
  | None => None
  end.

(** The dict yielded for [msg], and the [raw_message] it carries. *)
Definition yielded (channel_name : string) (msg : Message)
  : LinkExtractor.message_dict * Message :=
  ({| LinkExtractor.md_message_id := id msg;
      LinkExtractor.md_text := Some (default "" (message msg));
      LinkExtractor.md_date := Some (default "" (date msg));
      LinkExtractor.md_sender_id := sender_id msg;
      LinkExtractor.md_has_link := has_link msg;
      LinkExtractor.md_channel_name := channel_name;
      LinkExtractor.md_forward_from := forward_from_of msg |},
   msg).

End TelegramClient.

(** ** [db.py] *)

Module Db.

(** The columns the helpers write; [id] and the default timestamps are
    produced by the engine and no helper reads them. *)
Record message_row := {
  message_id : Z;
  channel_name : string;
  sender_id : option Z;
  message_text : string;
  message_date : string;
  has_link : Z
}.

Record link_row := {
  l_url : string;
  l_domain : string;
  l_anchor_text : option string;
  l_source : string;
  l_message_id : Z;
  l_message_date : string;
  l_channel_name : string;
  l_forward_from : option string
}.

Record channel_row := {
  c_channel_name : string;
  c_display_name : string;
  c_member_count : Z;
  c_last_scraped : string;
  c_message_count : Z;
  c_link_count : Z
}.

(** The connection: the three tables, rows in insertion order. *)
Record conn := {
  messages : list message_row;
  links : list link_row;
  channels : list channel_row
}.

Definition init_db : conn :=
  {| messages := []; links := []; channels := [] |}.

#[global] Instance message_row_eq_dec : EqDecision message_row.
Proof. solve_decision. Defined.
#[global] Instance link_row_eq_dec : EqDecision link_row.
Proof. solve_decision. Defined.
#[global] Instance channel_row_eq_dec : EqDecision channel_row.
Proof. solve_decision. Defined.

(** *** INSERT OR IGNORE under a UNIQUE constraint *)

Section InsertOrIgnore.
Context {R K : Type} `{EqDecision K}.
(** The columns of the UNIQUE constraint. *)
Variable unique_key : R -> K.

(** One statement: the table after it and the rows it changed. *)
Definition insert_or_ignore (acc : list R * Z) (row : R) : list R * Z :=
  if decide (unique_key row ∈ unique_key <$> acc.1)
  then acc
  else ((acc.1 ++ [row])%list, acc.2 + 1).

(** [executemany]: the statements in order; [rowcount] is their sum. *)
Definition executemany (table : list R) (rows : list R) : list R * Z :=
  foldl insert_or_ignore (table, 0) rows.
End InsertOrIgnore.

Definition message_key (r : message_row) : string * Z :=
  (channel_name r, message_id r).

Definition link_key (r : link_row) : string * Z * string :=
  (l_channel_name r, l_message_id r, l_url r).

Definition message_params (m : LinkExtractor.message_dict) : message_row :=
  {| message_id := LinkExtractor.md_message_id m;
     channel_name := LinkExtractor.md_channel_name m;
     sender_id := LinkExtractor.md_sender_id m;
     message_text := default "" (LinkExtractor.md_text m);
     message_date := default "" (LinkExtractor.md_date m);
     has_link := if LinkExtractor.md_has_link m then 1 else 0 |}.

Definition save_messages (c : conn) (msgs : list LinkExtractor.message_dict)
  : conn * Z :=
  let rows := message_params <$> msgs in
  let cur := executemany message_key (messages c) rows in
  ({| messages := cur.1; links := links c; channels := channels c |}, cur.2).

Definition link_params (lr : LinkExtractor.LinkRecord) : link_row :=
  {| l_url := LinkExtractor.url lr;
     l_domain := LinkExtractor.domain lr;
     l_anchor_text := LinkExtractor.anchor_text lr;
     l_source := LinkExtractor.source lr;
     l_message_id := LinkExtractor.message_id lr;
     l_message_date := default "" (truthy_opt (LinkExtractor.message_date lr));
     l_channel_name := LinkExtractor.channel_name lr;
     l_forward_from := LinkExtractor.forward_from lr |}.

Definition save_links (c : conn) (lrs : list LinkExtractor.LinkRecord)
  : conn * Z :=
  let rows := link_params <$> lrs in
  let cur := executemany link_key (links c) rows in
  ({| messages := messages c; links := cur.1; channels := channels c |}, cur.2).

(** *** Queries *)

(** SQLite's [LIKE]: [%] any run of characters, [_] any one character,
    letters A-Z compared without case. *)
Definition like_lower (c : ascii) : ascii :=
  if PyStr.in_range 65 90 c then ascii_of_N (PyStr.code c + 32) else c.

Fixpoint like (pat s : string) : bool :=
  match pat with
  | EmptyString => negb (PyStr.truthy s)
  | String p pat' =>
      if Ascii.eqb p "%" then
        (fix any (s : string) : bool :=
           like pat' s ||
           match s with
           | EmptyString => false
           | String _ s' => any s'
           end) s
      else
        match s with
        | EmptyString => false
        | String d s' =>
            (Ascii.eqb p "_" || Ascii.eqb (like_lower p) (like_lower d))
            && like pat' s'
        end
  end.

(** A filter argument that is truthy and not the UI's [All]. *)
Definition selected (arg : option string) : option string :=
  match truthy_opt arg with
  | Some v => if decide (v = "All") then None else Some v
  | None => None
  end.

(** TEXT values under the BINARY collation. *)
Definition text_le (a b : string) : Prop := String.leb a b = true.

#[global] Instance text_le_dec a b : Decision (text_le a b).
Proof. unfold text_le. apply _. Defined.

(** [ORDER BY message_date DESC]. SQL leaves the relative order of rows
    with equal dates open; the merge sort used here fixes one. *)
Definition order_by_desc {R : Type} (col : R -> string) : list R -> list R :=
  merge_sort (fun a b => text_le (col b) (col a)).

Definition messages_where (channel keyword : option string)
           (has_link_ : option bool) (r : message_row) : bool :=
  match selected channel with
  | Some ch => bool_decide (channel_name r = ch)
  | None => true
  end
  && match truthy_opt keyword with
     | Some kw => like ("%" ++ kw ++ "%") (message_text r)
     | None => true
     end
  && match has_link_ with
     | Some true => bool_decide (has_link r = 1)
     | Some false => bool_decide (has_link r = 0)
     | None => true
     end.

Definition get_messages (c : conn) (channel keyword : option string)
           (has_link_ : option bool) : list message_row :=
  order_by_desc message_date
    (List.filter (messages_where channel keyword has_link_) (messages c)).

Definition links_where (channel domain search : option string)
           (r : link_row) : bool :=
  match selected channel with
  | Some ch => bool_decide (l_channel_name r = ch)
  | None => true
  end
  && match selected domain with
     | Some d => bool_decide (l_domain r = d)
     | None => true
     end
  && match truthy_opt search with
     | Some pat => like ("%" ++ pat ++ "%") (l_url r)
     | None => true
     end.

(** A row of the [unique_only] query. *)
Record unique_row := {
  u_url : string;
  u_domain : string;
  u_anchor_text : option string;
  u_source : string;
  u_channel_name : string;
  u_message_date : string;       (* MIN(message_date) *)
  u_message_id : Z
}.

(** The row holding [MIN(message_date)] in a group: SQLite takes the bare
    columns of the query from it. *)
Definition min_row (first : link_row) (others : list link_row) : link_row :=
  foldl (fun best r =>
           if String.ltb (l_message_date r) (l_message_date best)
           then r else best) first others.

Definition unique_of (r : link_row) : unique_row :=
  {| u_url := l_url r; u_domain := l_domain r;
     u_anchor_text := l_anchor_text r; u_source := l_source r;
     u_channel_name := l_channel_name r;
     u_message_date := l_message_date r;
     u_message_id := l_message_id r |}.

(** [GROUP BY url]: one group per distinct [url] value. *)
Definition group_by_url (rows : list link_row) : list unique_row :=
  omap (fun u =>
          match List.filter (fun r => bool_decide (l_url r = u)) rows with
          | first :: others => Some (unique_of (min_row first others))
          | [] => None
          end)
       (remove_dups (l_url <$> rows)).

Inductive links_frame :=
| AllLinks (rows : list link_row)
| UniqueLinks (rows : list unique_row).

Definition get_links (c : conn) (channel domain : option string)
           (unique_only : bool) (search : option string) : links_frame :=
  let selected_rows :=
    List.filter (links_where channel domain search) (links c) in
  if unique_only
  then UniqueLinks (order_by_desc u_message_date (group_by_url selected_rows))
  else AllLinks (order_by_desc l_message_date selected_rows).


(** [MAX(col)]: NULL on no rows. *)
Definition sql_max (vals : list Z) : option Z :=
  foldl (fun acc v =>
           match acc with
           | Some best => Some (Z.max best v)
           | None => Some v
           end) None vals.

Definition get_last_message_id (c : conn) (channel : string) : Z :=
  default 0
    (sql_max (message_id <$>
              List.filter (fun r => bool_decide (channel_name r = channel))
                          (messages c))).

(** [DELETE FROM table WHERE channel_name = ?] on each table. *)
Definition clear_channel (c : conn) (channel : string) : conn :=
  {| messages :=
       List.filter (fun r => negb (bool_decide (channel_name r = channel)))
                   (messages c);
     links :=
       List.filter (fun r => negb (bool_decide (l_channel_name r = channel)))
                   (links c);
     channels :=
       List.filter (fun r => negb (bool_decide (c_channel_name r = channel)))
                   (channels c) |}.

End Db.

(** ** Vocabulary of the statements

    The URLs the five methods hand to [_add], in the order of the calls;
    the normal form under which two of them are the same link; and the
    readings the specification gives of the normal form and of the
    domain, kept apart from what the code computes. *)

Module ExtractSpec.
Import Telethon LinkExtractor.

(** One call [_add(url, source, anchor)]. *)
Record candidate := {
  c_url : string;
  c_source : string;
  c_anchor : option string
}.

Definition texturl_candidate (text : string) (ent : MessageEntity)
  : option candidate :=
  match ent with
  | MessageEntityTextUrl o l u =>
      Some {| c_url := u; c_source := "entity_texturl";
              c_anchor := Some (PyStr.slice o l text) |}
  | _ => None
  end.

Definition url_candidate (text : string) (ent : MessageEntity)
  : option candidate :=
  match ent with
  | MessageEntityUrl o l =>
      Some {| c_url := PyStr.slice o l text; c_source := "entity_url";
              c_anchor := None |}
  | _ => None
  end.

Definition regex_candidate (u : string) : candidate :=
  {| c_url := u; c_source := "regex"; c_anchor := None |}.

Definition button_candidate (button : KeyboardButton) : option candidate :=
  match truthy_opt (button_url button) with
  | Some btn_url =>
      Some {| c_url := btn_url; c_source := "button";
              c_anchor := Some (default "" (button_text button)) |}
  | None => None
  end.

Definition raw_entities (raw_message : option Message) : list MessageEntity :=
  match raw_message with
  | Some raw => default [] (entities raw)
  | None => []
  end.

Definition button_candidates (raw_message : option Message) : list candidate :=
  match raw_message with
  | Some raw =>
      match reply_markup raw with
      | Some markup => omap button_candidate (concat (rows markup))
      | None => []
      end
  | None => []
  end.

Definition preview_candidates (raw_message : option Message) : list candidate :=
  match raw_message with
  | Some raw =>
      match media raw with
      | Some (MessageMediaWebPage (Some webpage)) =>
          match truthy_opt (webpage_url webpage) with
          | Some wp_url =>
              [ {| c_url := wp_url; c_source := "webpage_preview";
                   c_anchor := None |} ]
          | None => []
          end
      | _ => []
      end
  | None => []
  end.

(** The calls of [_add] made for one message, method after method. *)
Definition candidates (m : message_dict) (raw_message : option Message)
  : list candidate :=
  let text := default "" (md_text m) in
  (omap (texturl_candidate text) (raw_entities raw_message)
   ++ omap (url_candidate text) (raw_entities raw_message)
   ++ (regex_candidate <$> Regex.URL_REGEX_findall text)
   ++ button_candidates raw_message
   ++ preview_candidates raw_message)%list.

(** The record [_add] appends for a call that is not a duplicate. *)
Definition record_of (urlparse_netloc : string -> option string)
           (m : message_dict) (c : candidate) : LinkRecord :=
  {| url := c_url c;
     domain := _extract_domain urlparse_netloc (c_url c);
     anchor_text := c_anchor c;
     source := c_source c;
     message_id := md_message_id m;
     message_date := md_date m;
     channel_name := md_channel_name m;
     forward_from := md_forward_from m |}.

(** [_add] applied to a call, for the message [m]. *)
Definition add_candidate (urlparse_netloc : string -> option string)
           (m : message_dict) (st : state) (c : candidate) : state :=
  _add urlparse_netloc (md_message_id m) (md_date m) (md_channel_name m)
       (md_forward_from m) (c_url c) (c_source c) (c_anchor c) st.

(** The key [_add] computes for a call. *)
Definition candidate_key (m : message_dict) (c : candidate) : Z * string :=
  _dedup_key (md_message_id m) (c_url c).

(** The URL part of [_dedup_key]. *)
Definition normalized (u : string) : string := (_dedup_key 0 u).2.

(** The elements of a list that no earlier element shares its key with,
    given the keys [seen] before the list. *)
Fixpoint first_seen {A K : Type} `{Countable K} (key : A -> K)
         (seen : gset K) (l : list A) : list A :=
  match l with
  | [] => []
  | x :: rest =>
      if decide (key x ∈ seen) then first_seen key seen rest
      else x :: first_seen key (seen ∪ {[ key x ]}) rest
  end.

(** The normal form as the specification words it: lower-cased, with
    exactly one trailing slash stripped. *)
Fixpoint strip_one_trailing_slash (s : string) : string :=
  match s with
  | EmptyString => EmptyString
  | String c EmptyString => if Ascii.eqb c "/" then EmptyString else s
  | String c rest => String c (strip_one_trailing_slash rest)
  end.

Definition spec_normalized (u : string) : string :=
  PyStr.lower (strip_one_trailing_slash u).

(** The domain as the specification and the docstring of
    [_extract_domain] word it: the netloc without a leading [www.] *)
Definition without_www_prefix (netloc : string) : string :=
  match PyStr.strip_prefix "www." netloc with
  | Some rest => rest
  | None => netloc
  end.

(** A message dict holding only text, as the smoke test builds them. *)
Definition text_message (i : Z) (text : string) : message_dict :=
  {| md_message_id := i; md_text := Some text;
     md_date := Some "2026-01-01"; md_sender_id := None;
     md_has_link := false; md_channel_name := "test_ch";
     md_forward_from := None |}.

(** A Telethon message holding only text. *)
Definition plain_message (i : Z) (text : string) : Message :=
  {| id := i; message := Some text; date := None; sender_id := None;
     fwd_from := None; entities := None; reply_markup := None;
     media := None |}.

(** A message whose first word is a hyperlink to a URL that its text
    also spells out, in another case and without the final slash. *)
Definition hyperlinked_message : Message :=
  {| id := 5; message := Some "link https://example.com"; date := None;
     sender_id := None; fwd_from := None;
     entities := Some [MessageEntityTextUrl 0 4 "https://Example.com/"];
     reply_markup := None; media := None |}.

(** A message with a preview embed that carries no URL. *)
Definition empty_preview_message : Message :=
  {| id := 9; message := Some "hello"; date := None; sender_id := None;
     fwd_from := None; entities := None; reply_markup := None;
     media := Some (MessageMediaWebPage (Some {| webpage_url := None |})) |}.

End ExtractSpec.

Module DbSpec.
Import Db.

(** The rows a [GROUP BY url] puts in the group of [u]. *)
Definition url_group (u : string) (rows : list link_row) : list link_row :=
  List.filter (fun r => bool_decide (l_url r = u)) rows.

(** A message dict of channel [channel] with id [i]. *)
Definition stored_message (channel : string) (i : Z)
  : LinkExtractor.message_dict :=
  {| LinkExtractor.md_message_id := i;
     LinkExtractor.md_text := Some "";
     LinkExtractor.md_date := Some "";
     LinkExtractor.md_sender_id := None;
     LinkExtractor.md_has_link := false;
     LinkExtractor.md_channel_name := channel;
     LinkExtractor.md_forward_from := None |}.

Definition link_at (u date_ : string) (i : Z) : link_row :=
  {| l_url := u; l_domain := "x.com"; l_anchor_text := None;
     l_source := "regex"; l_message_id := i; l_message_date := date_;
     l_channel_name := "c"; l_forward_from := None |}.

(** Three stored links: one URL found in two messages, and the same URL
    with a final slash. *)
Definition slash_links : conn :=
  {| messages := []; channels := [];
     links := [ link_at "https://x.com" "2026-01-03" 1;
                link_at "https://x.com/" "2026-01-02" 2;
                link_at "https://x.com" "2026-01-01" 3 ] |}.

End DbSpec.

(** ** [db.py]: channel metadata and the list queries *)

Module DbChannels.
Import Db.

(** The [channel_info] dict; [None] stands for an absent key. *)
Record channel_info := {
  ci_channel_name : option string;
  ci_display_name : option string;
  ci_member_count : option Z;
  ci_last_scraped : option string;
  ci_message_count : option Z;
  ci_link_count : option Z
}.

(** The parameters of the statement; [now] is
    [datetime.now().isoformat()]. *)
Definition channel_params (now : string) (info : channel_info) : channel_row :=
  {| c_channel_name := default "" (ci_channel_name info);
     c_display_name := default "" (ci_display_name info);
     c_member_count := default 0 (ci_member_count info);
     c_last_scraped := default now (ci_last_scraped info);
     c_message_count := default 0 (ci_message_count info);
     c_link_count := default 0 (ci_link_count info) |}.

(** The [DO UPDATE SET ...] of the statement on a stored row [r]: the row
    with the [channel_name] of the new row gets its five other columns. *)
Definition updated (row r : channel_row) : channel_row :=
  if decide (c_channel_name r = c_channel_name row) then row else r.

(** [INSERT ... ON CONFLICT(channel_name) DO UPDATE SET ...]: the row with
    the same [channel_name] is updated where it is; without such a row the
    new row is added. *)
Definition upsert_channel (now : string) (c : conn) (info : channel_info)
  : conn :=
  let row := channel_params now info in
  {| messages := messages c;
     links := links c;
     channels :=
       if decide (c_channel_name row ∈ c_channel_name <$> channels c)
       then updated row <$> channels c
       else (channels c ++ [row])%list |}.

(** [SELECT * FROM channels ORDER BY last_scraped DESC] *)
Definition get_channel_stats (c : conn) : list channel_row :=
  order_by_desc c_last_scraped (channels c).

(** [SELECT DISTINCT col ... ORDER BY col] on TEXT values. *)
Definition distinct_sorted (vals : list string) : list string :=
  merge_sort text_le (remove_dups vals).

(** The [domain] column is never NULL in the rows [save_links] writes. *)
Definition get_domain_list (c : conn) : list string :=
  distinct_sorted (l_domain <$> links c).

Definition get_channel_list (c : conn) : list string :=
  distinct_sorted (c_channel_name <$> channels c).

End DbChannels.

(** ** [config.py] and the retry loop of [TelethonWrapper.connect] *)

Module Connection.

Definition MAX_RETRIES : nat := 3.
Definition RETRY_DELAYS : list Z := [1; 2; 4].

(** What one [await self.client.connect()] does: it returns, raises
    [ConnectionError] or [OSError], or raises something else. *)
Inductive attempt_outcome := Connected | ConnectionFailed | OtherFailure.

Inductive connect_result :=
| Returned (value : bool)
| RaisedConnectionError
| RaisedOther
| RaisedIndexError.

(** The [for attempt in range(MAX_RETRIES)] loop over the attempts left;
    [slept] collects the arguments of [asyncio.sleep]. *)
Fixpoint connect_loop (client_connect : nat -> attempt_outcome)
         (attempts : list nat) (slept : list Z) : connect_result * list Z :=
  match attempts with
  | [] => (Returned false, slept)
  | attempt :: rest =>
      match client_connect attempt with
      | Connected => (Returned true, slept)
      | ConnectionFailed =>
          if (attempt <? MAX_RETRIES - 1)%nat then
            match RETRY_DELAYS !! attempt with
            | Some delay => connect_loop client_connect rest (slept ++ [delay])
            | None => (RaisedIndexError, slept)
            end
          else (RaisedConnectionError, slept)
      | OtherFailure => (RaisedOther, slept)
      end
  end.

Definition connect (client_connect : nat -> attempt_outcome)
  : connect_result * list Z :=
  connect_loop client_connect (seq 0 MAX_RETRIES) [].

End Connection.

(** ** [ui/app.py]: the scrape loop of one channel *)

Module App.
Import LinkExtractor Db.




Section Scrape.
Variable urlparse_netloc : string -> option string.
Variable links_only : bool.





(** The dicts the loop keeps: all of them, or with [links_only] those with
    at least one link. *)
Definition kept (items : list (message_dict * option Telethon.Message))
  : list (message_dict * option Telethon.Message) :=
  List.filter (fun item =>
                 negb (links_only
                       && negb (bool_decide
                                  (extract_links urlparse_netloc item.1 item.2
                                   <> []))))
              items.




End Scrape.

End App.

(** ** Vocabulary for the URL pattern *)

Module RegexSpec.

(** A character that is not whitespace. *)
Definition no_space (c : ascii) : bool := negb (PyStr.is_space c).

(** The summed length of the strings of a list. *)
Definition total_length (l : list string) : nat :=
  foldr (fun u acc => (String.length u + acc)%nat) O l.

End RegexSpec.

(** ** Vocabulary for [LIKE] *)

Module LikeSpec.

(** A string with its letters A-Z in lower case, as [LIKE] compares. *)
Fixpoint like_fold (s : string) : string :=
  match s with
  | EmptyString => EmptyString
  | String c rest => String (Db.like_lower c) (like_fold rest)
  end.

(** A pattern without the two wildcard characters. *)
Definition wildcard_free (pat : string) : bool :=
  PyStr.all_chars (fun c => negb (Ascii.eqb c "%" || Ascii.eqb c "_")) pat.

End LikeSpec.

(** ** [html_import.py] and the import loop of [ui/app.py] *)

Module HtmlImport.
Import LinkExtractor.

(** A button dict of the parser: its [label] and [url]. *)
Record button := { label : string; button_href : string }.

(** What [parse_telegram_html] returns for one message. *)
Record HTMLMessage := {
  h_message_id : Z;
  h_text : string;
  h_date : string;
  h_buttons : list button;
  h_text_links : list string
}.

(** The totals shown after the import. *)
Record totals := { total_msgs : nat; total_links : nat }.

Section Loop.
Variable urlparse_netloc : string -> option string.
(** [Path(html_path).parent.name or "html_import"] *)
Variable channel_name_ : string.

Definition msg_dict_of (msg : HTMLMessage) : message_dict :=
  {| md_message_id := h_message_id msg;
     md_text := Some (h_text msg);
     md_date := Some (h_date msg);
     md_sender_id := Some 0;
     md_has_link :=
       match h_buttons msg, h_text_links msg with
       | [], [] => false
       | _, _ => true
       end;
     md_channel_name := channel_name_;
     md_forward_from := None |}.

Definition button_record (msg : HTMLMessage) (btn : button) : LinkRecord :=
  {| url := button_href btn;
     domain := _extract_domain urlparse_netloc (button_href btn);
     anchor_text := Some (label btn);
     source := "button";
     message_id := h_message_id msg;
     message_date := Some (h_date msg);
     channel_name := channel_name_;
     forward_from := None |}.

Definition text_link_record (msg : HTMLMessage) (u : string) : LinkRecord :=
  {| url := u;
     domain := _extract_domain urlparse_netloc u;
     anchor_text := None;
     source := "html_text";
     message_id := h_message_id msg;
     message_date := Some (h_date msg);
     channel_name := channel_name_;
     forward_from := None |}.

(** One [save_links(conn, [lr])] and [total_links += 1]. *)
Definition save_one (acc : Db.conn * totals) (lr : LinkRecord) : Db.conn * totals :=
  ((Db.save_links acc.1 [lr]).1,
   {| total_msgs := total_msgs acc.2;
      total_links := total_links acc.2 + 1 |}).

(** The body of [for msg in parsed]. *)
Definition import_message (acc : Db.conn * totals) (msg : HTMLMessage)
  : Db.conn * totals :=
  let acc :=
    ((Db.save_messages acc.1 [msg_dict_of msg]).1,
     {| total_msgs := total_msgs acc.2 + 1;
        total_links := total_links acc.2 |}) in
  let acc := foldl save_one acc (button_record msg <$> h_buttons msg) in
  foldl save_one acc (text_link_record msg <$> h_text_links msg).

Definition import_html (c : Db.conn) (parsed : list HTMLMessage) : Db.conn * totals :=
  foldl import_message (c, {| total_msgs := 0; total_links := 0 |}) parsed.

(** The records the loop hands to [save_links], in order. *)
Definition records_of (msg : HTMLMessage) : list LinkRecord :=
  ((button_record msg <$> h_buttons msg)
   ++ (text_link_record msg <$> h_text_links msg))%list.

End Loop.

End HtmlImport.

(** ** Channel identifiers ([telegram_client.py])

    [TelethonWrapper._parse_identifier] turns what the user typed into
    what Telethon resolves: an integer id or a name. The builtins it
    calls are modelled on the strings of this development (code points
    below 256): [str.strip()], [str.isdigit], [in], [re.search] with the
    pattern [#(-?\d+)], [int] of a string and [str] of an integer. *)

Module Identifier.
Import PyStr.

(** [s.strip()] without argument: whitespace goes from both ends. *)
Fixpoint lstrip_by (p : ascii -> bool) (s : string) : string :=
  match s with
  | EmptyString => EmptyString
  | String c rest => if p c then lstrip_by p rest else s
  end.

Fixpoint rstrip_by (p : ascii -> bool) (s : string) : string :=
  match s with
  | EmptyString => EmptyString
  | String c rest =>
      match rstrip_by p rest with
      | EmptyString => if p c then EmptyString else String c EmptyString
      | kept => String c kept
      end
  end.

Definition strip_by (p : ascii -> bool) (s : string) : string :=
  lstrip_by p (rstrip_by p s).

Definition strip_ws (s : string) : string := strip_by is_space s.

(** [sub in s]. *)
Fixpoint contains (sub s : string) : bool :=
  startswith sub s ||
  match s with
  | EmptyString => false
  | String _ rest => contains sub rest
  end.

(** A decimal digit: the regex class [\d] of a [str] pattern,
    [str.isdecimal], and what [int] reads as a digit. Below 256 these are
    the digits 0-9. *)
Definition is_digit (c : ascii) : bool := in_range 48 57 c.

(** [str.isdigit] on one character: the decimal digits and the digit
    characters that are not decimal, which [int] refuses. Below 256 the
    latter are the superscripts two, three (0xB2, 0xB3) and one (0xB9);
    beyond that range, which the strings of this development do not
    reach, there are more of both kinds. *)
Definition isdigit_char (c : ascii) : bool :=
  is_digit c || in_range 178 179 c || (code c =? 185)%N.

Definition isdigit (s : string) : bool := truthy s && all_chars isdigit_char s.

(** [\d+] anchored at the start of [s]: the greedy, non-empty run. *)
Definition digits_at (s : string) : option string :=
  match span_len is_digit s with
  | O => None
  | S n => Some (take (S n) s)
  end.

(** [#(-?\d+)] anchored at the start of [s]: the group. The optional
    minus sign is tried first, then given back. *)
Definition group_at (s : string) : option string :=
  match strip_prefix "#" s with
  | None => None
  | Some r =>
      let with_minus :=
        match strip_prefix "-" r with
        | Some r' => option_map (String "-") (digits_at r')
        | None => None
        end in
      match with_minus with
      | Some g => Some g
      | None => digits_at r
      end
  end.

(** [re.search(r'#(-?\d+)', s)]: [group(1)] of the leftmost match. *)
Fixpoint search_id (s : string) : option string :=
  match group_at s with
  | Some g => Some g
  | None =>
      match s with
      | EmptyString => None
      | String _ rest => search_id rest
      end
  end.

(** The whitespace [int] skips around a literal: 0x09-0x0D, the space,
    0x85 and 0xA0 (0x1C-0x1F are not skipped). *)
Definition int_space (c : ascii) : bool :=
  in_range 9 13 c || (code c =? 32)%N || (code c =? 133)%N
  || (code c =? 160)%N.

Definition split_sign (s : string) : bool * string :=
  match s with
  | String "-" r => (true, r)
  | String "+" r => (false, r)
  | _ => (false, s)
  end.

(** The digits of a literal, in which single underscores may stand
    between digits: the digits alone, or [None] for a malformed
    literal. [after_digit] tells that the previous character was a
    digit. *)
Fixpoint digit_groups (after_digit : bool) (s : string) : option string :=
  match s with
  | EmptyString => if after_digit then Some EmptyString else None
  | String c rest =>
      if is_digit c then option_map (String c) (digit_groups true rest)
      else if Ascii.eqb c "_"
      then (if after_digit then digit_groups false rest else None)
      else None
  end.

(** The decimal text of an integer, as [str] writes it. *)
Definition decimal (v : Z) : string := NilZero.string_of_int (Z.to_int v).

Definition digit_count (v : Z) : nat := String.length (decimal (Z.abs v)).

Inductive identifier : Type :=
  | IdInt (n : Z)
  | IdStr (s : string).

Inductive outcome : Type :=
  | Returns (r : identifier)
  | RaisesValueError.

Section Parse.

(** [sys.get_int_max_str_digits()]: the number of digits beyond which
    [int] of a string and [str] of an integer raise [ValueError]; [None]
    where the interpreter has no such limit or it is switched off (the
    default is 4300, and no limit below 640 can be set). *)
Variable max_str_digits : option nat.

Definition fits (digits : nat) : bool :=
  match max_str_digits with
  | Some k => digits <=? k
  | None => true
  end%nat.

(** [int(s)]: [None] stands for [ValueError]. *)
Definition py_int (s : string) : option Z :=
  let '(negative, body) := split_sign (strip_by int_space s) in
  match digit_groups false body with
  | Some digits =>
      if fits (String.length digits) then
        match NilZero.uint_of_string digits with
        | Some d => Some (if negative then - Z.of_uint d else Z.of_uint d)
        | None => None
        end
      else None
  | None => None
  end.

(** [str(n)]: [None] stands for [ValueError]. *)
Definition py_str (n : Z) : option string :=
  if fits (digit_count n) then Some (decimal n) else None.

Definition int_or_raise (s : string) : outcome :=
  match py_int s with
  | Some n => Returns (IdInt n)
  | None => RaisesValueError
  end.

(** The branch of a [web.telegram.org] address whose fragment holds a
    number; [group] is [m.group(1)]. *)
Definition web_id (group : string) : outcome :=
  match py_int group with
  | None => RaisesValueError
  | Some raw_id =>
      if raw_id <? 0 then
        match py_str raw_id with
        | None => RaisesValueError
        | Some text =>
            if negb (startswith "-100" text) then
              match py_str (Z.abs raw_id) with
              | None => RaisesValueError
              | Some digits => int_or_raise ("-100" ++ digits)
              end
            else Returns (IdInt raw_id)
        end
      else Returns (IdInt raw_id)
  end.

Definition _parse_identifier (identifier : string) : outcome :=
  let identifier := strip_ws identifier in
  let m :=
    if contains "web.telegram.org" identifier then search_id identifier
    else None in
  match m with
  | Some group => web_id group
  | None =>
      if isdigit (lstrip "-" identifier) then int_or_raise identifier
      else Returns (IdStr identifier)
  end.

End Parse.

End Identifier.

Module IdentifierSpec.
Import PyStr Identifier.

(** A character of a string that passes the digit test of the source:
    [isdigit] after the leading minus signs are stripped. *)
Definition sign_or_digit (c : ascii) : bool :=
  Ascii.eqb c "-" || isdigit_char c.

(** What makes [int] refuse such a string: a second minus sign, a
    digit character that is not a decimal digit, or more digits than the
    limit allows. *)
Definition malformed (max_str_digits : option nat) (s : string) : bool :=
  startswith "--" s
  || negb (all_chars is_digit (lstrip "-" s))
  || negb (fits max_str_digits (String.length (lstrip "-" s))).

End IdentifierSpec.

(** ** Channel metadata ([telegram_client.py])

    [TelethonWrapper.get_channel_info]: the identifier is parsed outside
    the [try] block; the two calls of [client.get_entity] and the
    construction of the dictionary are inside it. Telethon is outside
    the program: [get_entity] is a parameter. *)

Module ChannelInfo.
Import PyStr Identifier.

(** An attribute read with [getattr(obj, name, default)]: the object may
    lack it, and where it is there it may hold [None]. *)
Inductive attr (A : Type) : Type :=
  | Missing
  | Present (value : option A).
Arguments Missing {A}.
Arguments Present {A} value.

Definition getattr {A : Type} (a : attr A) (default : option A) : option A :=
  match a with
  | Missing => default
  | Present value => value
  end.

Record Entity := {
  entity_id : Z;
  entity_username : attr string;
  entity_title : attr string;
  participants_count : attr Z
}.

(** What [get_entity] is called with: the parsed identifier, then the
    entity it returned. *)
Inductive target : Type :=
  | ByIdentifier (resolved : identifier)
  | ByEntity (entity : Entity).

(** An exception raised inside the [try] block, as far as the handlers
    tell exceptions apart. *)
Inductive raised : Type :=
  | ChannelPrivateError
  | UsernameInvalidError
  | ValueError
  | OtherError (tag : nat).

Inductive attempt (A : Type) : Type :=
  | Done (a : A)
  | Raised (e : raised).
Arguments Done {A} a.
Arguments Raised {A} e.

Record channel_dict := {
  d_name : string;
  d_channel_name : string;
  d_id : Z;
  d_username : option string;
  d_member_count : Z;
  d_display_name : option string;
  d_description : string
}.

(** What leaves [get_channel_info] as an exception: the [ValueError] of
    the parser, the two exceptions of the handlers, which carry the
    identifier, or an exception no handler catches. *)
Inductive info_error : Type :=
  | UncaughtValueError
  | NotMemberError (channel : string)
  | InvalidChannelError (channel : string)
  | UncaughtOther (tag : nat).

Inductive info_outcome : Type :=
  | InfoReturns (d : channel_dict)
  | InfoRaises (e : info_error).

Section Info.

Variable max_str_digits : option nat.
Variable get_entity : target -> attempt Entity.

(** [getattr(entity, "username", None) or str(entity.id)]. *)
Definition name_of (entity : Entity) : attempt string :=
  match truthy_opt (getattr (entity_username entity) None) with
  | Some username => Done username
  | None =>
      match py_str max_str_digits (entity_id entity) with
      | Some text => Done text
      | None => Raised ValueError
      end
  end.

(** [getattr(full, "participants_count", 0) or 0]. *)
Definition member_count_of (full : Entity) : Z :=
  match getattr (participants_count full) (Some 0) with
  | Some n => if n =? 0 then 0 else n
  | None => 0
  end.

(** [getattr(entity, "title", "") or getattr(entity, "username", "")]. *)
Definition display_name_of (entity : Entity) : option string :=
  match truthy_opt (getattr (entity_title entity) (Some EmptyString)) with
  | Some title => Some title
  | None => getattr (entity_username entity) (Some EmptyString)
  end.

(** The dictionary literal; its first two entries evaluate the same
    expression. *)
Definition info_dict (entity full : Entity) : attempt channel_dict :=
  match name_of entity with
  | Raised e => Raised e
  | Done name =>
      match name_of entity with
      | Raised e => Raised e
      | Done channel_name =>
          Done {| d_name := name;
                  d_channel_name := channel_name;
                  d_id := entity_id entity;
                  d_username := getattr (entity_username entity) None;
                  d_member_count := member_count_of full;
                  d_display_name := display_name_of entity;
                  d_description := EmptyString |}
      end
  end.

(** The body of the [try] block. *)
Definition fetch_info (resolved : identifier) : attempt channel_dict :=
  match get_entity (ByIdentifier resolved) with
  | Raised e => Raised e
  | Done entity =>
      match get_entity (ByEntity entity) with
      | Raised e => Raised e
      | Done full => info_dict entity full
      end
  end.

Definition get_channel_info (identifier : string) : info_outcome :=
  match _parse_identifier max_str_digits identifier with
  | RaisesValueError => InfoRaises UncaughtValueError
  | Returns resolved =>
      match fetch_info resolved with
      | Done d => InfoReturns d
      | Raised ChannelPrivateError => InfoRaises (NotMemberError identifier)
      | Raised UsernameInvalidError
      | Raised ValueError => InfoRaises (InvalidChannelError identifier)
      | Raised (OtherError tag) => InfoRaises (UncaughtOther tag)
      end
  end.

End Info.

End ChannelInfo.

(** ** Text of an imported message ([html_import.py])

    [parse_telegram_html] cleans the text of a message block with
    [re.sub] and [str.strip]: tags become spaces, the whitespace around
    the text goes, and each run of whitespace becomes one space. The
    label of a button loses its tags and the whitespace around it. *)

Module HtmlText.
Import PyStr.

Definition not_gt (c : ascii) : bool := negb (Ascii.eqb c ">").

(** [<[^>]+>] anchored at the start of [s]: the length of the match.
    The run is greedy and non-empty; giving characters back cannot
    help, since what follows a shorter run is not the closing sign. *)
Definition tag_at (s : string) : option nat :=
  match strip_prefix "<" s with
  | None => None
  | Some r =>
      match span_len not_gt r with
      | O => None
      | S n =>
          match strip_prefix ">" (drop (S n) r) with
          | Some _ => Some (S (S (S n)))
          | None => None
          end
      end
  end.

(** [re.sub(r'<[^>]+>', repl, s)]: the matches from left to right, each
    replaced by [repl]. [skip] counts the characters of the last match
    still to be passed over. *)
Fixpoint sub_tags_from (skip : nat) (repl s : string) : string :=
  match s with
  | EmptyString => EmptyString
  | String c rest =>
      match skip with
      | S k => sub_tags_from k repl rest
      | O =>
          match tag_at s with
          | Some n => repl ++ sub_tags_from (Nat.pred n) repl rest
          | None => String c (sub_tags_from O repl rest)
          end
      end
  end.

Definition sub_tags (repl s : string) : string := sub_tags_from O repl s.

(** [re.sub(r'\s+', ' ', s)]: [in_run] tells that the previous
    character belonged to the run being replaced. *)
Fixpoint sub_spaces_from (in_run : bool) (s : string) : string :=
  match s with
  | EmptyString => EmptyString
  | String c rest =>
      if is_space c
      then (if in_run then sub_spaces_from true rest
            else String " " (sub_spaces_from true rest))
      else String c (sub_spaces_from false rest)
  end.

Definition sub_spaces (s : string) : string := sub_spaces_from false s.

(** [clean_text] of the source, from [raw_text]. *)
Definition clean_text (raw_text : string) : string :=
  sub_spaces (Identifier.strip_ws (sub_tags " " raw_text)).

(** The label of a button, from the second group of the button pattern. *)
Definition button_label (group : string) : string :=
  Identifier.strip_ws (sub_tags EmptyString group).

End HtmlText.

Module HtmlTextSpec.
Import PyStr HtmlText.

(** A character that is no whitespace other than the space. *)
Definition plain_space (c : ascii) : bool :=
  negb (is_space c) || Ascii.eqb c " ".

(** What follows an opening sign that starts no tag: nothing, the
    closing sign at once, or a text without closing sign. *)
Definition unclosed (r : string) : bool :=
  match r with
  | EmptyString => true
  | String d _ => Ascii.eqb d ">" || negb (mem ">" r)
  end.

(** No match of the tag pattern anywhere in [s]. *)
Fixpoint no_tag (s : string) : bool :=
  match s with
  | EmptyString => true
  | String _ rest =>
      match tag_at s with
      | Some _ => false
      | None => no_tag rest
      end
  end.

(** A replacement text without opening or closing sign. *)
Definition no_sign (c : ascii) : bool :=
  negb (Ascii.eqb c "<") && negb (Ascii.eqb c ">").

End HtmlTextSpec.

(** * Properties *)

(** ** Persistence layer *)

Module DbFacts.
Import Db DbSpec.

Section InsertOrIgnoreFacts.
Context {R K : Type} `{EqDecision K}.
Variable unique_key : R -> K.



(** Stored keys stay, the keys of the batch get stored, and the count
    grows by the number of rows added. *)
Lemma executemany_from_spec (rows : list R) (acc : list R * Z) :
  let res := foldl (insert_or_ignore unique_key) acc rows in
  (forall k, k ∈ unique_key <$> acc.1 -> k ∈ unique_key <$> res.1)
  /\ Forall (fun row => unique_key row ∈ unique_key <$> res.1) rows
  /\ Z.of_nat (length res.1) - res.2 = Z.of_nat (length acc.1) - acc.2.
Proof.
  revert acc. induction rows as [|row rows IH]; intros acc; simpl.
  { split; [done|]. split; [constructor|done]. }
  specialize (IH (insert_or_ignore unique_key acc row)).
  destruct IH as (Hkeep & Hall & Hcount).
  assert (Hstep : forall k, k ∈ unique_key <$> acc.1 ->
            k ∈ unique_key <$> (insert_or_ignore unique_key acc row).1).
  { intros k Hk. unfold insert_or_ignore. case_decide; simpl; [done|].
    rewrite fmap_app. apply elem_of_app. by left. }
  assert (Hrow : unique_key row ∈
            unique_key <$> (insert_or_ignore unique_key acc row).1).
  { unfold insert_or_ignore. case_decide; simpl; [done|].
    rewrite fmap_app. apply elem_of_app. right. simpl. apply list_elem_of_here. }
  split; [auto|]. split; [constructor; auto|].
  rewrite Hcount. unfold insert_or_ignore. case_decide; simpl; [done|].
  rewrite length_app, Nat2Z.inj_add. simpl length. lia.
Qed.




End InsertOrIgnoreFacts.

(** *** MAX and DELETE *)

Lemma sql_max_from (vals : list Z) (best : Z) :
  exists m,
    foldl (fun acc v =>
             match acc with
             | Some b => Some (Z.max b v)
             | None => Some v
             end) (Some best) vals = Some m
    /\ m ∈ best :: vals /\ best <= m /\ Forall (fun v => v <= m) vals.
Proof.
  revert best. induction vals as [|v vals IH]; intros best; simpl.
  { exists best. repeat split; [apply list_elem_of_here | lia | constructor]. }
  destruct (IH (Z.max best v)) as (m & Hm & Hin & Hle & Hall).
  exists m. split; [done|]. split.
  - apply elem_of_cons in Hin as [-> | Hin].
    + destruct (Z.max_spec best v) as [[_ ->] | [_ ->]].
      * apply list_elem_of_further, list_elem_of_here.
      * apply list_elem_of_here.
    + by do 2 apply list_elem_of_further.
  - split; [lia|]. constructor; [lia | done].
Qed.

Lemma sql_max_spec (vals : list Z) :
  match vals with
  | [] => sql_max vals = None
  | _ :: _ =>
      exists m, sql_max vals = Some m /\ m ∈ vals
                /\ Forall (fun v => v <= m) vals
  end.
Proof.
  destruct vals as [|v vals]; [done|].
  unfold sql_max. simpl.
  destruct (sql_max_from vals v) as (m & Hm & Hin & Hle & Hall).
  exists m. split; [done|]. split; [done|]. by constructor.
Qed.

(** [DELETE ... WHERE channel_name = ?] on one table, whatever the row
    type: no row of the channel is left, and the rows of the other
    channels are the same list as before. *)
Section DeleteWhere.
Context {R : Type}.
Variable chan : R -> string.
Variable channel : string.

Lemma delete_where_gone (rows : list R) :
  Forall (fun r => chan r <> channel)
         (List.filter (fun r => negb (bool_decide (chan r = channel))) rows).
Proof.
  apply Forall_forall. intros r Hr.
  apply list_elem_of_In, filter_In in Hr as [_ Hr].
  apply negb_true_iff, bool_decide_eq_false in Hr. done.
Qed.

Lemma delete_where_frame (rows : list R) :
  filter (fun r => chan r <> channel)
         (List.filter (fun r => negb (bool_decide (chan r = channel))) rows)
  = filter (fun r => chan r <> channel) rows.
Proof.
  induction rows as [|r rows IH]; simpl; [done|].
  destruct (decide (chan r = channel)) as [Heq | Hne].
  - rewrite (bool_decide_eq_true_2 _ Heq). simpl.
    rewrite (filter_cons_False _ r rows); [done|]. by intros ?.
  - rewrite (bool_decide_eq_false_2 _ Hne). simpl.
    rewrite !filter_cons_True by done. by rewrite IH.
Qed.

Lemma delete_where_sublist (rows : list R) :
  List.filter (fun r => negb (bool_decide (chan r = channel))) rows
  `sublist_of` rows.
Proof.
  induction rows as [|r rows IH]; simpl; [done|].
  destruct (negb _); [by apply sublist_skip | by apply sublist_cons].
Qed.
End DeleteWhere.

(** *** TEXT comparison *)

Lemma text_compare_refl (a : string) : String.compare a a = Eq.
Proof.
  induction a as [|x a IH]; simpl; [done|].
  unfold Ascii.compare. by rewrite N.compare_refl.
Qed.

Lemma text_compare_trans (a b c : string) :
  String.compare a b <> Gt -> String.compare b c <> Gt ->
  String.compare a c <> Gt.
Proof.
  revert b c. induction a as [|x a IH]; intros [|y b] [|z c]; simpl;
    try done.
  unfold Ascii.compare.
  destruct (N.compare_spec (N_of_ascii x) (N_of_ascii y));
    destruct (N.compare_spec (N_of_ascii y) (N_of_ascii z));
    destruct (N.compare_spec (N_of_ascii x) (N_of_ascii z));
    try done; try lia.
  apply IH.
Qed.

Lemma text_le_refl (a : string) : text_le a a.
Proof. unfold text_le, String.leb. by rewrite text_compare_refl. Qed.

Lemma text_le_compare (a b : string) :
  text_le a b <-> String.compare a b <> Gt.
Proof. unfold text_le, String.leb. destruct (String.compare a b); naive_solver. Qed.

Lemma text_le_trans (a b c : string) :
  text_le a b -> text_le b c -> text_le a c.
Proof. rewrite !text_le_compare. apply text_compare_trans. Qed.

Lemma text_lt_le (a b : string) : String.ltb a b = true -> text_le a b.
Proof.
  rewrite text_le_compare. unfold String.ltb.
  destruct (String.compare a b); naive_solver.
Qed.

Lemma text_not_lt_le (a b : string) : String.ltb a b = false -> text_le b a.
Proof.
  rewrite text_le_compare, String.compare_antisym. unfold String.ltb.
  destruct (String.compare a b); naive_solver.
Qed.

(** *** GROUP BY url with MIN(message_date) *)

Lemma min_row_from (others : list link_row) (best : link_row) :
  let m := min_row best others in
  m ∈ best :: others
  /\ text_le (l_message_date m) (l_message_date best)
  /\ Forall (fun r => text_le (l_message_date m) (l_message_date r)) others.
Proof.
  revert best. induction others as [|r others IH]; intros best; simpl.
  { split; [apply list_elem_of_here|]. split; [apply text_le_refl | constructor]. }
  unfold min_row. simpl. fold (min_row (if String.ltb (l_message_date r)
    (l_message_date best) then r else best) others).
  destruct (String.ltb (l_message_date r) (l_message_date best)) eqn:Hlt.
  - destruct (IH r) as (Hin & Hle & Hall).
    split; [|split].
    + apply elem_of_cons in Hin as [-> | Hin].
      * apply list_elem_of_further, list_elem_of_here.
      * by do 2 apply list_elem_of_further.
    + eapply text_le_trans; [exact Hle | by apply text_lt_le].
    + by constructor.
  - destruct (IH best) as (Hin & Hle & Hall).
    split; [|split].
    + apply elem_of_cons in Hin as [-> | Hin].
      * apply list_elem_of_here.
      * by do 2 apply list_elem_of_further.
    + done.
    + constructor; [|done].
      eapply text_le_trans; [exact Hle | by apply text_not_lt_le].
Qed.

Lemma elem_of_url_group (u : string) (rows : list link_row) (r : link_row) :
  r ∈ url_group u rows <-> r ∈ rows /\ l_url r = u.
Proof.
  unfold url_group. rewrite !list_elem_of_In, filter_In, bool_decide_eq_true.
  done.
Qed.

(** The group of a selected url is not empty; its output row comes from
    a row of the group that holds the least date. *)
Lemma group_row_spec (u : string) (rows : list link_row) :
  u ∈ l_url <$> rows ->
  exists r,
    match url_group u rows with
    | first :: others => Some (unique_of (min_row first others))
    | [] => None
    end = Some (unique_of r)
    /\ r ∈ rows /\ l_url r = u
    /\ Forall (fun r' => l_url r' = u ->
                         text_le (l_message_date r) (l_message_date r')) rows.
Proof.
  intros Hu. apply list_elem_of_fmap in Hu as (r0 & -> & Hr0).
  assert (Hr0g : r0 ∈ url_group (l_url r0) rows) by by apply elem_of_url_group.
  destruct (url_group (l_url r0) rows) as [|first others] eqn:Hg.
  { by apply elem_of_nil in Hr0g. }
  destruct (min_row_from others first) as (Hin & Hle & Hall).
  exists (min_row first others). split; [done|].
  rewrite <- Hg in Hin. apply elem_of_url_group in Hin as [Hin Hurl].
  split; [done|]. split; [done|].
  apply Forall_forall. intros r' Hr' Hurl'.
  assert (Hr'g : r' ∈ first :: others).
  { rewrite <- Hg. by apply elem_of_url_group. }
  apply elem_of_cons in Hr'g as [-> | Hr'g]; [done|].
  rewrite Forall_forall in Hall. by apply Hall.
Qed.

Lemma group_by_url_over (rows : list link_row) (us : list string) :
  Forall (fun u => u ∈ l_url <$> rows) us ->
  let out :=
    omap (fun u =>
            match List.filter (fun r => bool_decide (l_url r = u)) rows with
            | first :: others => Some (unique_of (min_row first others))
            | [] => None
            end) us in
  u_url <$> out = us
  /\ Forall (fun row =>
               exists r, row = unique_of r /\ r ∈ rows
                 /\ Forall (fun r' => l_url r' = u_url row ->
                       text_le (u_message_date row) (l_message_date r')) rows)
            out.
Proof.
  induction 1 as [|u us Hu _ IH]; simpl; [by split|].
  destruct (group_row_spec u rows Hu) as (r & Heq & Hr & Hurl & Hmin).
  unfold url_group in Heq. rewrite Heq. simpl.
  destruct IH as [IH1 IH2]. split.
  - simpl. f_equal; [exact Hurl | exact IH1].
  - constructor; [|done]. exists r. simpl. by rewrite Hurl.
Qed.

Lemma group_by_url_spec (rows : list link_row) :
  u_url <$> group_by_url rows = remove_dups (l_url <$> rows)
  /\ Forall (fun row =>
               exists r, row = unique_of r /\ r ∈ rows
                 /\ Forall (fun r' => l_url r' = u_url row ->
                       text_le (u_message_date row) (l_message_date r')) rows)
            (group_by_url rows).
Proof.
  apply group_by_url_over. apply Forall_forall. intros u Hu.
  by apply (proj1 (elem_of_remove_dups _ _)) in Hu.
Qed.

Lemma order_by_desc_perm {R : Type} (col : R -> string) (rows : list R) :
  order_by_desc col rows ≡ₚ rows.
Proof. apply merge_sort_Permutation. Qed.

End DbFacts.

(** ** Extraction engine *)

Module ExtractFacts.
Import Telethon LinkExtractor ExtractSpec.

Section FirstSeen.
Context {A K : Type} `{Countable K}.
Variable key : A -> K.

Lemma first_seen_sublist (seen : gset K) (l : list A) :
  first_seen key seen l `sublist_of` l.
Proof.
  revert seen. induction l as [|x l IH]; intros seen; simpl; [done|].
  case_decide; [by apply sublist_cons | by apply sublist_skip].
Qed.

Lemma first_seen_fresh (seen : gset K) (l : list A) :
  Forall (fun x => key x ∉ seen) (first_seen key seen l).
Proof.
  revert seen. induction l as [|x l IH]; intros seen; simpl; [constructor|].
  case_decide; [apply IH|]. constructor; [done|].
  eapply Forall_impl; [apply IH|]. simpl. set_solver.
Qed.

Lemma first_seen_NoDup (seen : gset K) (l : list A) :
  NoDup (key <$> first_seen key seen l).
Proof.
  revert seen. induction l as [|x l IH]; intros seen; simpl; [constructor|].
  case_decide; [apply IH|]. rewrite fmap_cons. apply NoDup_cons.
  split; [|apply IH]. intros Hin.
  apply list_elem_of_fmap in Hin as (y & Hy & Hin).
  pose proof (first_seen_fresh (seen ∪ {[ key x ]}) l) as Hf.
  rewrite Forall_forall in Hf. specialize (Hf y Hin). set_solver.
Qed.

Lemma first_seen_covers (seen : gset K) (l : list A) (x : A) :
  x ∈ l -> key x ∈ seen \/ key x ∈ key <$> first_seen key seen l.
Proof.
  revert seen. induction l as [|a l IH]; intros seen Hx; simpl.
  { by apply elem_of_nil in Hx. }
  apply elem_of_cons in Hx as [-> | Hx].
  - case_decide; [by left|]. right. rewrite fmap_cons. apply list_elem_of_here.
  - case_decide; [by apply IH|].
    destruct (IH (seen ∪ {[ key a ]}) Hx) as [Hs | Hr].
    + apply elem_of_union in Hs as [Hs | Hs]; [by left|].
      apply elem_of_singleton in Hs. right. rewrite fmap_cons, Hs.
      apply list_elem_of_here.
    + right. rewrite fmap_cons. by apply list_elem_of_further.
Qed.

(** First seen wins. *)
Lemma first_seen_first (seen : gset K) (pre post : list A) (x : A) :
  key x ∉ seen -> Forall (fun y => key y <> key x) pre ->
  x ∈ first_seen key seen (pre ++ x :: post).
Proof.
  revert seen. induction pre as [|y pre IH]; intros seen Hx Hpre; simpl.
  { rewrite decide_False by done. apply list_elem_of_here. }
  inversion Hpre as [|? ? Hy Hpre']; subst.
  case_decide; [by apply IH|].
  apply list_elem_of_further, IH; [|done].
  intros [Hs | Hs]%elem_of_union; [done|].
  apply elem_of_singleton in Hs. by apply Hy.
Qed.

Lemma first_seen_keys (l : list A) (k : K) :
  k ∈ key <$> first_seen key ∅ l <-> k ∈ key <$> l.
Proof.
  split; intros Hk.
  - apply list_elem_of_fmap in Hk as (x & -> & Hx).
    apply list_elem_of_fmap_2.
    eapply elem_of_sublist; [exact Hx | apply first_seen_sublist].
  - apply list_elem_of_fmap in Hk as (x & -> & Hx).
    destruct (first_seen_covers ∅ l x Hx) as [Hs | Hr]; [set_solver | done].
Qed.
End FirstSeen.

(** *** The five methods as one run of [_add] over [candidates] *)

Section Run.
Variable urlparse_netloc : string -> option string.
Variable m : message_dict.

Lemma add_all_results (cs : list candidate) (st : state) :
  results (foldl (add_candidate urlparse_netloc m) st cs)
  = (results st
     ++ (record_of urlparse_netloc m
         <$> first_seen (candidate_key m) (seen_keys st) cs))%list.
Proof.
  revert st. induction cs as [|c cs IH]; intros st; simpl.
  { by rewrite app_nil_r. }
  rewrite IH. unfold add_candidate, _add, candidate_key.
  case_decide; simpl; [done|]. by rewrite <- app_assoc.
Qed.

Lemma method1_run (text : string) (ents : list MessageEntity) (st : state) :
  method1 urlparse_netloc (md_message_id m) (md_date m) (md_channel_name m)
          (md_forward_from m) text ents st
  = foldl (add_candidate urlparse_netloc m) st
          (omap (texturl_candidate text) ents).
Proof.
  unfold method1. revert st.
  induction ents as [|ent ents IH]; intros st; simpl; [done|].
  rewrite IH. by destruct ent.
Qed.

Lemma method2_run (text : string) (ents : list MessageEntity) (st : state) :
  method2 urlparse_netloc (md_message_id m) (md_date m) (md_channel_name m)
          (md_forward_from m) text ents st
  = foldl (add_candidate urlparse_netloc m) st
          (omap (url_candidate text) ents).
Proof.
  unfold method2. revert st.
  induction ents as [|ent ents IH]; intros st; simpl; [done|].
  rewrite IH. by destruct ent.
Qed.

Lemma method3_run (text : string) (st : state) :
  method3 urlparse_netloc (md_message_id m) (md_date m) (md_channel_name m)
          (md_forward_from m) text st
  = foldl (add_candidate urlparse_netloc m) st
          (regex_candidate <$> Regex.URL_REGEX_findall text).
Proof.
  unfold method3. generalize (Regex.URL_REGEX_findall text). intros us.
  revert st. induction us as [|u us IH]; intros st; simpl; [done|].
  by rewrite IH.
Qed.

Lemma buttons_run (row : list KeyboardButton) (st : state) :
  foldl (add_button urlparse_netloc (md_message_id m) (md_date m)
           (md_channel_name m) (md_forward_from m)) st row
  = foldl (add_candidate urlparse_netloc m) st (omap button_candidate row).
Proof.
  revert st. induction row as [|b row IH]; intros st; simpl; [done|].
  rewrite IH. unfold add_button, button_candidate.
  by destruct (truthy_opt (button_url b)).
Qed.

Lemma method4_run (raw_message : option Message) (st : state) :
  method4 urlparse_netloc (md_message_id m) (md_date m) (md_channel_name m)
          (md_forward_from m) raw_message st
  = foldl (add_candidate urlparse_netloc m) st
          (button_candidates raw_message).
Proof.
  unfold method4, button_candidates.
  destruct raw_message as [raw|]; [|done].
  destruct (reply_markup raw) as [markup|]; [|done].
  generalize (rows markup). intros rs. revert st.
  induction rs as [|row rs IH]; intros st; simpl; [done|].
  by rewrite IH, buttons_run, omap_app, foldl_app.
Qed.

Lemma method5_run (raw_message : option Message) (st : state) :
  method5 urlparse_netloc (md_message_id m) (md_date m) (md_channel_name m)
          (md_forward_from m) raw_message st
  = foldl (add_candidate urlparse_netloc m) st
          (preview_candidates raw_message).
Proof.
  unfold method5, preview_candidates.
  destruct raw_message as [raw|]; [|done].
  destruct (media raw) as [[[webpage|]|]|]; try done.
  by destruct (truthy_opt (webpage_url webpage)).
Qed.

(** [extract_links] keeps, of the calls in method order, those whose key
    no earlier call had. *)
Lemma extract_links_first_seen (raw_message : option Message) :
  extract_links urlparse_netloc m raw_message
  = record_of urlparse_netloc m
    <$> first_seen (candidate_key m) ∅ (candidates m raw_message).
Proof.
  unfold extract_links, candidates.
  fold (raw_entities raw_message).
  rewrite method5_run, method4_run, method3_run, method2_run, method1_run.
  rewrite <- !foldl_app. by rewrite add_all_results.
Qed.

End Run.

Lemma NoDup_fmap_eq {A B : Type} (f : A -> B) (l : list A) (x y : A) :
  NoDup (f <$> l) -> x ∈ l -> y ∈ l -> f x = f y -> x = y.
Proof.
  induction l as [|a l IH]; intros Hnd Hx Hy Heq.
  { by apply elem_of_nil in Hx. }
  rewrite fmap_cons in Hnd. apply NoDup_cons in Hnd as [Hnotin Hnd].
  apply elem_of_cons in Hx as [-> | Hx];
    apply elem_of_cons in Hy as [-> | Hy]; [done | | | by apply IH].
  - exfalso. apply Hnotin. rewrite Heq. by apply list_elem_of_fmap_2.
  - exfalso. apply Hnotin. rewrite <- Heq. by apply list_elem_of_fmap_2.
Qed.

(** The first element of a list with a decidable property. *)
Lemma split_first {A : Type} (P : A -> Prop) `{forall x, Decision (P x)}
      (l : list A) (x : A) :
  x ∈ l -> P x ->
  exists pre y post,
    l = (pre ++ y :: post)%list /\ P y /\ Forall (fun z => ~ P z) pre.
Proof.
  induction l as [|a l IH]; intros Hx HP.
  { by apply elem_of_nil in Hx. }
  destruct (decide (P a)) as [Ha | Ha].
  { exists [], a, l. repeat split; [done | constructor]. }
  apply elem_of_cons in Hx as [-> | Hx]; [done|].
  destruct (IH Hx HP) as (pre & y & post & -> & Hy & Hpre).
  exists (a :: pre), y, post. repeat split; [done | by constructor].
Qed.

(** *** What the returned list is made of *)

Section Results.
Variable urlparse_netloc : string -> option string.
Variable m : message_dict.
Variable raw_message : option Message.

Lemma extract_links_sublist :
  extract_links urlparse_netloc m raw_message
  `sublist_of` (record_of urlparse_netloc m <$> candidates m raw_message).
Proof.
  rewrite extract_links_first_seen.
  apply fmap_sublist, first_seen_sublist.
Qed.

Lemma extract_links_keys :
  normalized ∘ url <$> extract_links urlparse_netloc m raw_message
  = (snd ∘ candidate_key m)
    <$> first_seen (candidate_key m) ∅ (candidates m raw_message).
Proof.
  rewrite extract_links_first_seen, <- list_fmap_compose. done.
Qed.

Lemma extract_links_NoDup :
  NoDup (normalized ∘ url <$> extract_links urlparse_netloc m raw_message).
Proof.
  rewrite extract_links_keys.
  pose proof (first_seen_NoDup (candidate_key m) ∅
                (candidates m raw_message)) as Hnd.
  apply NoDup_fmap_2_strong; [|by eapply NoDup_fmap_1].
  intros c1 c2 Hc1 Hc2 Heq.
  apply (NoDup_fmap_eq (candidate_key m) _ c1 c2 Hnd Hc1 Hc2).
  unfold candidate_key, _dedup_key in *. simpl in Heq. by rewrite Heq.
Qed.

Lemma extract_links_normalized (k : string) :
  k ∈ normalized ∘ url <$> extract_links urlparse_netloc m raw_message
  <-> k ∈ normalized ∘ c_url <$> candidates m raw_message.
Proof.
  rewrite extract_links_keys.
  pose proof (first_seen_keys (candidate_key m) (candidates m raw_message)
                (md_message_id m, k)) as Hk.
  rewrite !list_elem_of_fmap in Hk. rewrite !list_elem_of_fmap.
  split.
  - intros (c & -> & Hc).
    destruct (proj1 Hk (ex_intro _ c (conj eq_refl Hc))) as (c' & Heq & Hc').
    exists c'. split; [|done]. by injection Heq.
  - intros (c & -> & Hc).
    destruct (proj2 Hk (ex_intro _ c (conj eq_refl Hc))) as (c' & Heq & Hc').
    exists c'. split; [|done]. by injection Heq.
Qed.

Lemma extract_links_unique (r r' : LinkRecord) :
  r ∈ extract_links urlparse_netloc m raw_message ->
  r' ∈ extract_links urlparse_netloc m raw_message ->
  normalized (url r) = normalized (url r') -> r = r'.
Proof.
  intros Hr Hr' Heq.
  by apply (NoDup_fmap_eq (normalized ∘ url) _ r r' extract_links_NoDup).
Qed.

Lemma extract_links_first (pre post : list candidate) (c : candidate) :
  candidates m raw_message = (pre ++ c :: post)%list ->
  Forall (fun c' => normalized (c_url c') <> normalized (c_url c)) pre ->
  record_of urlparse_netloc m c
  ∈ extract_links urlparse_netloc m raw_message.
Proof.
  intros Hsplit Hpre. rewrite extract_links_first_seen, Hsplit.
  apply list_elem_of_fmap_2, first_seen_first; [set_solver|].
  eapply Forall_impl; [exact Hpre|]. simpl. intros c' Hne Heq.
  apply Hne. unfold candidate_key, _dedup_key in Heq. by injection Heq.
Qed.

Lemma extract_links_from_candidates :
  Forall (fun r => exists c, c ∈ candidates m raw_message
                             /\ r = record_of urlparse_netloc m c)
         (extract_links urlparse_netloc m raw_message).
Proof.
  apply Forall_forall. intros r Hr.
  pose proof (elem_of_sublist _ _ _ Hr extract_links_sublist) as Hin.
  apply list_elem_of_fmap in Hin as (c & -> & Hc). by exists c.
Qed.
End Results.

End ExtractFacts.

(** ** Calls on the store of the interpreter *)

Module HeapFacts.
Import Telethon LinkExtractor.

Section Sim.
Variable urlparse_netloc : string -> option string.
Variable msg_id : Z.
Variable date : option string.
Variable channel : string.
Variable forward_from_ : option string.
Variable seen res : positive.
Variable s0 : gmap positive Heap.object.
Hypothesis cells_differ : seen <> res.

(** [_add] on the store does to the two cells what [_add] does to the
    local state, and nothing to the other objects. *)
Lemma add_holds (url_ source_ : string) (anchor : option string)
      (st : state) (s : gmap positive Heap.object) :
  Heap.holds seen res s0 st s ->
  Heap.holds seen res s0
    (_add urlparse_netloc msg_id date channel forward_from_
          url_ source_ anchor st)
    (Heap._add urlparse_netloc msg_id date channel forward_from_ seen res
               url_ source_ anchor s).
Proof.
  intros (Hseen & Hres & Hframe). unfold Heap._add, _add.
  rewrite Hseen, Hres. case_decide; [done|].
  unfold Heap.holds. cbv zeta. cbn [seen_keys results].
  split; [|split].
  - rewrite lookup_insert_ne by done. by rewrite lookup_insert_eq.
  - by rewrite lookup_insert_eq.
  - intros ref Hs Hr. rewrite !lookup_insert_ne by done. by apply Hframe.
Qed.

Lemma foldl_holds {A : Type} (f : state -> A -> state)
      (g : gmap positive Heap.object -> A -> gmap positive Heap.object)
      (l : list A) :
  (forall st s x, Heap.holds seen res s0 st s ->
                  Heap.holds seen res s0 (f st x) (g s x)) ->
  forall st s,
    Heap.holds seen res s0 st s ->
    Heap.holds seen res s0 (foldl f st l) (foldl g s l).
Proof.
  intros Hstep. induction l as [|x l IH]; intros st s H; [done|].
  cbn [foldl]. by apply IH, Hstep.
Qed.

Lemma method1_holds (text : string) (ents : list MessageEntity)
      (st : state) (s : gmap positive Heap.object) :
  Heap.holds seen res s0 st s ->
  Heap.holds seen res s0
    (method1 urlparse_netloc msg_id date channel forward_from_ text ents st)
    (Heap.method1 urlparse_netloc msg_id date channel forward_from_
                  seen res text ents s).
Proof.
  apply foldl_holds. intros st' s' [o l u|o l|] H; [|done|done].
  by apply add_holds.
Qed.

Lemma method2_holds (text : string) (ents : list MessageEntity)
      (st : state) (s : gmap positive Heap.object) :
  Heap.holds seen res s0 st s ->
  Heap.holds seen res s0
    (method2 urlparse_netloc msg_id date channel forward_from_ text ents st)
    (Heap.method2 urlparse_netloc msg_id date channel forward_from_
                  seen res text ents s).
Proof.
  apply foldl_holds. intros st' s' [o l u|o l|] H; [done| |done].
  by apply add_holds.
Qed.

Lemma method3_holds (text : string) (st : state)
      (s : gmap positive Heap.object) :
  Heap.holds seen res s0 st s ->
  Heap.holds seen res s0
    (method3 urlparse_netloc msg_id date channel forward_from_ text st)
    (Heap.method3 urlparse_netloc msg_id date channel forward_from_
                  seen res text s).
Proof. apply foldl_holds. intros st' s' u H. by apply add_holds. Qed.

Lemma add_button_holds (st : state) (s : gmap positive Heap.object)
      (button : KeyboardButton) :
  Heap.holds seen res s0 st s ->
  Heap.holds seen res s0
    (add_button urlparse_netloc msg_id date channel forward_from_ st button)
    (Heap.add_button urlparse_netloc msg_id date channel forward_from_
                     seen res s button).
Proof.
  intros H. unfold add_button, Heap.add_button.
  destruct (truthy_opt (button_url button)); [|done]. by apply add_holds.
Qed.

Lemma method4_holds (raw_message : option Message)
      (st : state) (s : gmap positive Heap.object) :
  Heap.holds seen res s0 st s ->
  Heap.holds seen res s0
    (method4 urlparse_netloc msg_id date channel forward_from_
             raw_message st)
    (Heap.method4 urlparse_netloc msg_id date channel forward_from_
                  seen res raw_message s).
Proof.
  unfold method4, Heap.method4.
  destruct raw_message as [raw|]; [|done].
  destruct (reply_markup raw) as [markup|]; [|done].
  apply foldl_holds. intros st' s' row.
  apply foldl_holds. intros st'' s'' button. apply add_button_holds.
Qed.

Lemma method5_holds (raw_message : option Message)
      (st : state) (s : gmap positive Heap.object) :
  Heap.holds seen res s0 st s ->
  Heap.holds seen res s0
    (method5 urlparse_netloc msg_id date channel forward_from_
             raw_message st)
    (Heap.method5 urlparse_netloc msg_id date channel forward_from_
                  seen res raw_message s).
Proof.
  intros H. unfold method5, Heap.method5.
  destruct raw_message as [raw|]; [|done].
  destruct (media raw) as [[[webpage|]|]|]; [|done|done|done].
  destruct (truthy_opt (webpage_url webpage)); [|done]. by apply add_holds.
Qed.

End Sim.

Section Calls.
Variable urlparse_netloc : string -> option string.

(** One call, on any store: the reference returned is new, the object
    it names holds what [extract_links] computes from the two arguments,
    and the objects that were there are as they were. *)
Lemma extract_links_spec (m : message_dict) (raw_message : option Message)
      (s : gmap positive Heap.object) :
  let out := Heap.extract_links urlparse_netloc m raw_message s in
(out.1 ∉ dom s)
  /\ out.2 !! out.1
     = Some (Heap.ListObject (extract_links urlparse_netloc m raw_message))
  /\ (forall ref, ref ∈ dom s -> out.2 !! ref = s !! ref).
Proof.
  unfold Heap.extract_links, Heap.new. cbn [fst snd].
  set (seen := stdpp.base.fresh (dom s)).
  set (s1 := <[seen := Heap.SetObject ∅]> s).
  set (res := stdpp.base.fresh (dom s1)).
  set (s2 := <[res := Heap.ListObject []]> s1).
  assert (Hseen : seen ∉ dom s) by apply is_fresh.
  assert (Hres1 : res ∉ dom s1) by apply is_fresh.
  assert (Hne : seen <> res).
  { intros Heq. apply Hres1. rewrite <- Heq. unfold s1.
    apply elem_of_dom. rewrite lookup_insert_eq. by eexists. }
  assert (Hres : res ∉ dom s).
  { intros Hin. apply Hres1. unfold s1. apply elem_of_dom.
    apply elem_of_dom in Hin. by rewrite lookup_insert_ne. }
  assert (H0 : Heap.holds seen res s2 fresh s2).
  { split; [|split; [|done]].
    - unfold s2, s1. rewrite lookup_insert_ne by done.
      by rewrite lookup_insert_eq.
    - unfold s2. by rewrite lookup_insert_eq. }
  set (raw_ents := match raw_message with
                   | Some raw => default [] (entities raw)
                   | None => []
                   end).
  pose proof (method5_holds urlparse_netloc (md_message_id m) (md_date m)
                (md_channel_name m) (md_forward_from m) seen res s2 Hne
                raw_message _ _
             (method4_holds urlparse_netloc (md_message_id m) (md_date m)
                (md_channel_name m) (md_forward_from m) seen res s2 Hne
                raw_message _ _
             (method3_holds urlparse_netloc (md_message_id m) (md_date m)
                (md_channel_name m) (md_forward_from m) seen res s2 Hne
                (default "" (md_text m)) _ _
             (method2_holds urlparse_netloc (md_message_id m) (md_date m)
                (md_channel_name m) (md_forward_from m) seen res s2 Hne
                (default "" (md_text m)) raw_ents _ _
             (method1_holds urlparse_netloc (md_message_id m) (md_date m)
                (md_channel_name m) (md_forward_from m) seen res s2 Hne
                (default "" (md_text m)) raw_ents _ _ H0)))))
    as (_ & Hresults & Hframe).
  split; [exact Hres|]. split; [exact Hresults|].
  intros ref Hin.
  assert (ref <> seen) by (intros ->; done).
  assert (ref <> res) by (intros ->; done).
  rewrite Hframe by done. unfold s2, s1.
  by rewrite !lookup_insert_ne by done.
Qed.

Lemma extract_links_dom (m : message_dict) (raw_message : option Message)
      (s : gmap positive Heap.object) (ref : positive) :
  ref ∈ dom s ->
  ref ∈ dom (Heap.extract_links urlparse_netloc m raw_message s).2.
Proof.
  intros Hin.
  destruct (extract_links_spec m raw_message s) as (_ & _ & Hframe).
  apply elem_of_dom. rewrite (Hframe ref Hin). by apply elem_of_dom.
Qed.

(** Calls in sequence: each reference returned names, in the final
    store, what the call computes from its own two arguments. *)
Lemma extract_calls_spec (calls : list (message_dict * option Message))
      (s : gmap positive Heap.object) :
  let out := Heap.extract_calls urlparse_netloc calls s in
  Forall2 (fun ref call =>
             out.2 !! ref
             = Some (Heap.ListObject
                       (extract_links urlparse_netloc call.1 call.2)))
          out.1 calls
  /\ NoDup out.1
  /\ Forall (fun ref => ref ∉ dom s) out.1
  /\ (forall ref, ref ∈ dom s -> out.2 !! ref = s !! ref).
Proof.
  revert s. induction calls as [|call calls IH]; intros s.
  { cbn. split; [constructor|]. split; [constructor|]. by split. }
  cbn [Heap.extract_calls fst snd].
  destruct (extract_links_spec call.1 call.2 s) as (Hnew & Hval & Hframe).
  set (first := Heap.extract_links urlparse_netloc call.1 call.2 s) in *.
  destruct (IH first.2) as (Hall & Hnd & Hrefs & Hrest).
  assert (Hin : first.1 ∈ dom first.2).
  { apply elem_of_dom. rewrite Hval. by eexists. }
  split; [|split; [|split]].
  - constructor; [|exact Hall]. by rewrite (Hrest _ Hin).
  - constructor; [|exact Hnd]. intros Hbad.
    rewrite Forall_forall in Hrefs. by apply (Hrefs _ Hbad).
  - constructor; [exact Hnew|].
    eapply Forall_impl; [exact Hrefs|]. cbn. intros ref Hnot Hs.
    apply Hnot. by apply extract_links_dom.
  - intros ref Hs. rewrite Hrest by (by apply extract_links_dom).
    by apply Hframe.
Qed.

End Calls.

End HeapFacts.

(** * The claims of the specification *)

Import Telethon LinkExtractor ExtractSpec ExtractFacts.

(** C1, as stated, fails. The pattern finds [https://a.com//] and
    [https://a.com] in one text. With exactly one trailing slash stripped
    their lower-cased forms differ, yet [extract_links] returns a single
    record for the two: [strip] removes every leading and trailing slash. *)
Lemma dedup_one_trailing_slash_counterexample :
  Regex.URL_REGEX_findall "https://a.com// https://a.com"
  = ["https://a.com//"; "https://a.com"]
  /\ spec_normalized "https://a.com//" <> spec_normalized "https://a.com"
  /\ length (extract_links CPython.netloc
               (text_message 1 "https://a.com// https://a.com") None) = 1%nat.
Proof. split; [|split]; [reflexivity | discriminate | reflexivity]. Qed.

(** C1, amended. The normal form of a URL is the URL without its leading
    and trailing slashes, all of them, lower-cased. For one message, the
    returned records have pairwise distinct normal forms, and the normal
    forms of the records are those of the URLs the methods produced: two
    produced URLs end up in one record exactly when their normal forms are
    equal. In particular a text in which the pattern finds the same URL
    twice, with no annotations, gives exactly one record. *)
Theorem dedup_by_normalized_url
        (urlparse_netloc : string -> option string)
        (m : message_dict) (raw_message : option Message) :
  (forall u, normalized u = PyStr.lower (PyStr.strip "/" u))
  /\ NoDup (normalized ∘ url <$> extract_links urlparse_netloc m raw_message)
  /\ (forall k,
        k ∈ normalized ∘ url <$> extract_links urlparse_netloc m raw_message
        <-> k ∈ normalized ∘ c_url <$> candidates m raw_message)
  /\ (forall u,
        Regex.URL_REGEX_findall (default "" (md_text m)) = [u; u] ->
        length (extract_links urlparse_netloc m None) = 1%nat).
Proof.
  split; [done|]. split; [apply extract_links_NoDup|].
  split; [apply extract_links_normalized|].
  intros u Hu. rewrite extract_links_first_seen. unfold candidates.
  rewrite Hu. simpl.
  rewrite decide_False by set_solver. rewrite decide_True by set_solver.
  done.
Qed.

Lemma dedup_by_normalized_url_witness :
  let m := text_message 2 "https://example.com https://example.com" in
  Regex.URL_REGEX_findall (default "" (md_text m))
  = ["https://example.com"; "https://example.com"]
  /\ length (extract_links CPython.netloc m None) = 1%nat.
Proof.
  intros m.
  assert (Hu : Regex.URL_REGEX_findall (default "" (md_text m))
               = ["https://example.com"; "https://example.com"])
    by reflexivity.
  split; [exact Hu|].
  exact (proj2 (proj2 (proj2 (dedup_by_normalized_url CPython.netloc m None)))
           "https://example.com" Hu).
Defined.

(** C4. For every message, with or without a raw message, the methods
    run in one fixed order: the calls of [_add] are those for the rich
    hyperlink spans, then the plain-text URL spans, the pattern matches,
    the buttons and the preview. The records come in the order of these
    calls, and of the calls sharing a normal form the first one makes the
    record: the record of such a first call is returned, and every
    returned record is made by the first call with its normal form.
    Hence, when a [MessageEntityTextUrl] and a match of the pattern have
    the same normal form, the one record with that normal form has source
    [entity_texturl], its URL is that of such an entity of the message and
    its anchor text is the span of that entity. *)
Theorem method_precedence
        (urlparse_netloc : string -> option string)
        (m : message_dict) (raw_message : option Message) :
  candidates m raw_message
  = (omap (texturl_candidate (default "" (md_text m)))
          (raw_entities raw_message)
     ++ omap (url_candidate (default "" (md_text m)))
             (raw_entities raw_message)
     ++ (regex_candidate
         <$> Regex.URL_REGEX_findall (default "" (md_text m)))
     ++ button_candidates raw_message
     ++ preview_candidates raw_message)%list
  /\ extract_links urlparse_netloc m raw_message
     `sublist_of` (record_of urlparse_netloc m <$> candidates m raw_message)
  /\ (forall pre c post,
        candidates m raw_message = (pre ++ c :: post)%list ->
        Forall (fun c' => normalized (c_url c') <> normalized (c_url c)) pre ->
        record_of urlparse_netloc m c
        ∈ extract_links urlparse_netloc m raw_message)
  /\ Forall (fun r =>
               exists pre c post,
                 candidates m raw_message = (pre ++ c :: post)%list
                 /\ Forall (fun c' => normalized (c_url c')
                                      <> normalized (c_url c)) pre
                 /\ r = record_of urlparse_netloc m c)
            (extract_links urlparse_netloc m raw_message)
  /\ (forall (msg : Message) (o l : nat) (u v : string),
        raw_message = Some msg ->
        MessageEntityTextUrl o l u ∈ default [] (entities msg) ->
        v ∈ Regex.URL_REGEX_findall (default "" (md_text m)) ->
        normalized u = normalized v ->
        exists r,
          r ∈ extract_links urlparse_netloc m (Some msg)
          /\ normalized (url r) = normalized v
          /\ source r = "entity_texturl"
          /\ (exists o' l',
                MessageEntityTextUrl o' l' (url r) ∈ default [] (entities msg)
                /\ anchor_text r
                   = Some (PyStr.slice o' l' (default "" (md_text m))))
          /\ Forall (fun r' => normalized (url r') = normalized v -> r' = r)
                    (extract_links urlparse_netloc m (Some msg))).
Proof.
  split; [done|].
  split; [apply extract_links_sublist|].
  split; [intros pre c post; apply extract_links_first|].
  split.
  { apply Forall_forall. intros r Hr.
    pose proof (extract_links_from_candidates urlparse_netloc m raw_message)
      as Hfrom.
    rewrite Forall_forall in Hfrom.
    destruct (Hfrom r Hr) as (c0 & Hc0 & ->).
    destruct (split_first
                (fun c => normalized (c_url c) = normalized (c_url c0))
                _ _ Hc0 eq_refl) as (pre & c & post & Hsplit & Hc & Hpre).
    exists pre, c, post. split; [exact Hsplit|].
    assert (Hpre' : Forall (fun c' => normalized (c_url c')
                                      <> normalized (c_url c)) pre).
    { eapply Forall_impl; [exact Hpre|]. cbn. intros c' Hne Heq.
      apply Hne. by rewrite Heq. }
    split; [exact Hpre'|].
    apply (extract_links_unique urlparse_netloc m raw_message); [done| |].
    - by apply (extract_links_first _ _ _ pre post).
    - exact (eq_sym Hc). }
  intros msg o l u v -> Hent Hv Huv.
  set (text := default "" (md_text m)).
  set (ents := default [] (entities msg)) in *.
  assert (Hc0 : {| c_url := u; c_source := "entity_texturl";
                   c_anchor := Some (PyStr.slice o l text) |}
                ∈ omap (texturl_candidate text) ents).
  { apply list_elem_of_omap. by exists (MessageEntityTextUrl o l u). }
  destruct (split_first (fun c => normalized (c_url c) = normalized v)
              _ _ Hc0 Huv) as (pre & c & post & Hsplit & Hc & Hpre).
  assert (Hcin : c ∈ omap (texturl_candidate text) ents).
  { rewrite Hsplit. apply elem_of_app. right. apply list_elem_of_here. }
  apply list_elem_of_omap in Hcin as (ent & Hent' & Hmk).
  assert (Hin : record_of urlparse_netloc m c
                ∈ extract_links urlparse_netloc m (Some msg)).
  { apply (extract_links_first _ _ _ pre
             (post ++ omap (url_candidate text) ents
              ++ (regex_candidate <$> Regex.URL_REGEX_findall text)
              ++ button_candidates (Some msg)
              ++ preview_candidates (Some msg))%list).
    - unfold candidates. fold text. simpl raw_entities. fold ents.
      rewrite Hsplit. by rewrite <- app_assoc.
    - eapply Forall_impl; [exact Hpre|]. simpl. intros c' Hne. by rewrite Hc. }
  exists (record_of urlparse_netloc m c).
  split; [exact Hin|]. split; [exact Hc|].
  destruct ent as [o' l' u'| |]; simpl in Hmk; [|done|done].
  injection Hmk as <-. split; [done|]. split; [by exists o', l'|].
  apply Forall_forall. intros r' Hr' Heq.
  apply (extract_links_unique urlparse_netloc m (Some msg)); [done|done|].
  by rewrite Heq.
Qed.

Lemma method_precedence_witness :
  let m := text_message 5 "link https://example.com" in
  (MessageEntityTextUrl 0 4 "https://Example.com/"
     ∈ default [] (entities hyperlinked_message)
   /\ "https://example.com"
        ∈ Regex.URL_REGEX_findall (default "" (md_text m))
   /\ normalized "https://Example.com/" = normalized "https://example.com")
  /\ exists r,
       r ∈ extract_links CPython.netloc m (Some hyperlinked_message)
       /\ normalized (url r) = normalized "https://example.com"
       /\ source r = "entity_texturl"
       /\ (exists o' l',
             MessageEntityTextUrl o' l' (url r)
               ∈ default [] (entities hyperlinked_message)
             /\ anchor_text r
                = Some (PyStr.slice o' l' (default "" (md_text m))))
       /\ Forall (fun r' => normalized (url r')
                            = normalized "https://example.com" -> r' = r)
                 (extract_links CPython.netloc m (Some hyperlinked_message)).
Proof.
  intros m.
  assert (H1 : MessageEntityTextUrl 0 4 "https://Example.com/"
                 ∈ default [] (entities hyperlinked_message))
    by apply list_elem_of_here.
  assert (H2 : "https://example.com"
                 ∈ Regex.URL_REGEX_findall (default "" (md_text m)))
    by (vm_compute; apply list_elem_of_here).
  assert (H3 : normalized "https://Example.com/"
               = normalized "https://example.com") by reflexivity.
  split; [by repeat split|].
  exact (proj2 (proj2 (proj2 (proj2
           (method_precedence CPython.netloc m (Some hyperlinked_message)))))
           hyperlinked_message 0%nat 4%nat
           "https://Example.com/" "https://example.com" eq_refl H1 H2 H3).
Defined.

(** C7. Without a raw message every record has source [regex], and the
    records follow the matches of the pattern from left to right. For the
    text of the smoke test the result is the two records below, with
    domains [github.com] and [youtube.com]. *)
Theorem regex_only_fallback
        (urlparse_netloc : string -> option string) (m : message_dict) :
  Forall (fun r => source r = "regex") (extract_links urlparse_netloc m None)
  /\ extract_links urlparse_netloc m None
     `sublist_of` (record_of urlparse_netloc m ∘ regex_candidate
                   <$> Regex.URL_REGEX_findall (default "" (md_text m)))
  /\ extract_links CPython.netloc
       (text_message 1
          "Check https://github.com/repo and https://youtube.com/watch?v=123")
       None
     = [ {| url := "https://github.com/repo"; domain := "github.com";
            anchor_text := None; source := "regex"; message_id := 1;
            message_date := Some "2026-01-01"; channel_name := "test_ch";
            forward_from := None |};
         {| url := "https://youtube.com/watch?v=123"; domain := "youtube.com";
            anchor_text := None; source := "regex"; message_id := 1;
            message_date := Some "2026-01-01"; channel_name := "test_ch";
            forward_from := None |} ].
Proof.
  assert (Hsub : extract_links urlparse_netloc m None
     `sublist_of` (record_of urlparse_netloc m ∘ regex_candidate
                   <$> Regex.URL_REGEX_findall (default "" (md_text m)))).
  { pose proof (extract_links_sublist urlparse_netloc m None) as Hs.
    unfold candidates in Hs. simpl in Hs. rewrite app_nil_r in Hs.
    by rewrite list_fmap_compose. }
  split; [|split; [exact Hsub | by vm_compute]].
  apply Forall_forall. intros r Hr.
  pose proof (elem_of_sublist _ _ _ Hr Hsub) as Hin.
  by apply list_elem_of_fmap in Hin as (u & -> & _).
Qed.

Import HeapFacts.

(** C9. Calls made one after the other, on whatever store the earlier
    calls left: the list each call returns holds, also once all the calls
    are done, exactly what [extract_links] computes from the two
    arguments of that call, which is what a call alone on an empty store
    returns. The lists returned are new objects, distinct from each other
    and from every object that existed, and no object that existed is
    changed: no set of seen keys is found again by a later call, so the
    same message extracted twice gives the same records twice. Every
    returned record is made from one of the URLs the methods produced;
    its [url] is that string itself, as the upper-case URL with a final
    slash below shows, stored as found. *)
Theorem extraction_is_stateless
        (urlparse_netloc : string -> option string)
        (s : gmap positive Heap.object)
        (calls : list (message_dict * option Message))
        (m1 : message_dict) (raw1 : option Message) :
  (let out := Heap.extract_calls urlparse_netloc calls s in
   Forall2 (fun ref call =>
              out.2 !! ref
              = Some (Heap.ListObject
                        (extract_links urlparse_netloc call.1 call.2)))
           out.1 calls
   /\ NoDup out.1
   /\ Forall (fun ref => ref ∉ dom s) out.1
   /\ (forall ref, ref ∈ dom s -> out.2 !! ref = s !! ref))
  /\ (let alone := Heap.extract_links urlparse_netloc m1 raw1 ∅ in
      alone.2 !! alone.1
      = Some (Heap.ListObject (extract_links urlparse_netloc m1 raw1)))
  /\ (let twice :=
        Heap.extract_calls urlparse_netloc [(m1, raw1); (m1, raw1)] s in
      exists ref1 ref2,
        twice.1 = [ref1; ref2] /\ ref1 <> ref2
        /\ twice.2 !! ref1
           = Some (Heap.ListObject (extract_links urlparse_netloc m1 raw1))
        /\ twice.2 !! ref2
           = Some (Heap.ListObject (extract_links urlparse_netloc m1 raw1)))
  /\ Forall (fun r => exists c, c ∈ candidates m1 raw1
                                /\ r = record_of urlparse_netloc m1 c
                                /\ url r = c_url c)
            (extract_links urlparse_netloc m1 raw1)
  /\ url <$> extract_links CPython.netloc
               (text_message 1 "HTTPS://Example.COM/") None
     = ["HTTPS://Example.COM/"].
Proof.
  split; [apply extract_calls_spec|].
  split; [apply (extract_links_spec urlparse_netloc m1 raw1 ∅)|].
  split.
  { destruct (extract_calls_spec urlparse_netloc [(m1, raw1); (m1, raw1)] s)
      as (Hall & Hnd & _ & _).
    destruct (Heap.extract_calls urlparse_netloc [(m1, raw1); (m1, raw1)] s)
      as [refs final]. cbn [fst snd] in *.
    apply Forall2_cons_inv_r in Hall as (ref1 & rest & H1 & Hall & ->).
    apply Forall2_cons_inv_r in Hall as (ref2 & rest' & H2 & Hall & ->).
    apply Forall2_nil_inv_r in Hall as ->.
    exists ref1, ref2. split; [done|]. split; [|by split].
    apply NoDup_cons in Hnd as [Hnot _]. intros ->. apply Hnot.
    apply list_elem_of_here. }
  split; [|by vm_compute].
  eapply Forall_impl; [apply extract_links_from_candidates|].
  simpl. intros r (c & Hc & ->). by exists c.
Qed.

(** C2 (code defect). The flag of [fetch_messages] and [extract_links]
    disagree on a message whose text spells the scheme in capitals: the
    flag is searched with a case-sensitive pattern and is false, while the
    case-insensitive [URL_REGEX] yields a record. They disagree the other
    way on a bare scheme with nothing after it, and on a preview embed
    without a URL: the flag is true and no record is returned. *)
Theorem has_link_disagrees_with_extraction :
  (let y := TelegramClient.yielded "chan" (plain_message 7 "HTTP://EXAMPLE.COM") in
   md_has_link y.1 = false
   /\ length (extract_links CPython.netloc y.1 (Some y.2)) = 1%nat)
  /\ (let y := TelegramClient.yielded "chan" (plain_message 8 "see http://") in
      md_has_link y.1 = true
      /\ extract_links CPython.netloc y.1 (Some y.2) = [])
  /\ (let y := TelegramClient.yielded "chan" empty_preview_message in
      md_has_link y.1 = true
      /\ extract_links CPython.netloc y.1 (Some y.2) = []).
Proof. by vm_compute. Qed.

(** C3 (code defect). [_extract_domain] never fails and gives the empty
    string when [urlparse] raises or finds no netloc; on the two URLs of
    the specification it gives [example.com] and the empty string. But it
    deletes every [www.] of the netloc, not only a leading one: for
    [https://sub.www.example.com/x] the netloc is [sub.www.example.com],
    which has no [www.] prefix, and the domain returned is
    [sub.example.com]. *)
Theorem extract_domain_removes_inner_www :
  (forall urlparse_netloc u,
     urlparse_netloc u = None \/ urlparse_netloc u = Some "" ->
     _extract_domain urlparse_netloc u = "")
  /\ _extract_domain CPython.netloc "https://www.example.com/x" = "example.com"
  /\ _extract_domain CPython.netloc "not a url" = ""
  /\ CPython.netloc "https://sub.www.example.com/x"
     = Some "sub.www.example.com"
  /\ without_www_prefix "sub.www.example.com" = "sub.www.example.com"
  /\ _extract_domain CPython.netloc "https://sub.www.example.com/x"
     = "sub.example.com".
Proof.
  split; [|by vm_compute].
  intros urlparse_netloc u [Hu | Hu]; unfold _extract_domain; by rewrite Hu.
Qed.

Import Db DbSpec DbFacts.


(** C8. [get_last_message_id] is 0 when the channel has no stored
    message, and otherwise the greatest [message_id] among the stored
    messages of the channel. After storing the ids 1, 2 and 3 for channel
    [c] it is 3, and it is 0 for an unknown channel. *)
Theorem resume_cursor (c : conn) (channel : string) :
  match message_id
        <$> List.filter (fun r => bool_decide (channel_name r = channel))
                        (messages c) with
  | [] => get_last_message_id c channel = 0
  | i :: ids =>
      get_last_message_id c channel ∈ i :: ids
      /\ Forall (fun j => j <= get_last_message_id c channel) (i :: ids)
  end
  /\ (let stored :=
        (save_messages init_db
           [stored_message "c" 1; stored_message "c" 2; stored_message "c" 3]).1 in
      get_last_message_id stored "c" = 3
      /\ get_last_message_id stored "unknown" = 0).
Proof.
  split; [|by vm_compute].
  unfold get_last_message_id.
  pose proof (sql_max_spec
                (message_id
                 <$> List.filter (fun r => bool_decide (channel_name r = channel))
                                 (messages c))) as Hmax.
  destruct (message_id <$> List.filter _ (messages c)) as [|i ids].
  - by rewrite Hmax.
  - destruct Hmax as (mx & -> & Hin & Hall). by split.
Qed.

(** C10. [clear_channel] leaves no row of the channel in [messages],
    [links] and [channels], and in each of the three tables the rows of
    the other channels are the same rows, in the same order, as before. *)
Theorem clear_channel_frame (c : conn) (channel : string) :
  let c' := clear_channel c channel in
  (Forall (fun r => channel_name r <> channel) (messages c')
   /\ filter (fun r => channel_name r <> channel) (messages c')
      = filter (fun r => channel_name r <> channel) (messages c)
   /\ messages c' `sublist_of` messages c)
  /\ (Forall (fun r => l_channel_name r <> channel) (links c')
      /\ filter (fun r => l_channel_name r <> channel) (links c')
         = filter (fun r => l_channel_name r <> channel) (links c)
      /\ links c' `sublist_of` links c)
  /\ (Forall (fun r => c_channel_name r <> channel) (channels c')
      /\ filter (fun r => c_channel_name r <> channel) (channels c')
         = filter (fun r => c_channel_name r <> channel) (channels c)
      /\ channels c' `sublist_of` channels c).
Proof.
  intros c'. unfold c', clear_channel. simpl.
  repeat split;
    first [ apply delete_where_gone
          | apply delete_where_frame
          | apply delete_where_sublist ].
Qed.

(** C6. With [unique_only] set, [get_links] returns one row for each
    distinct [url] string among the selected links, whatever the filters:
    the urls of the rows have no repetition and are exactly the urls
    selected. Each row takes its columns from a selected link, and its
    [message_date] is the least among the selected links with that url.
    URLs that differ only by a final slash stay apart: of the three links
    of [slash_links], two rows remain, the one of [https://x.com] with the
    earlier of its two dates. *)
Theorem unique_links_view
        (c : conn) (channel domain_ search : option string) :
  let selected_rows :=
    List.filter (links_where channel domain_ search) (links c) in
  (exists rows,
     get_links c channel domain_ true search = UniqueLinks rows
     /\ NoDup (u_url <$> rows)
     /\ (forall u, u ∈ u_url <$> rows <-> u ∈ l_url <$> selected_rows)
     /\ Forall (fun row =>
                  exists r, row = unique_of r /\ r ∈ selected_rows
                    /\ Forall (fun r' => l_url r' = u_url row ->
                          text_le (u_message_date row) (l_message_date r'))
                              selected_rows)
               rows)
  /\ get_links slash_links None None true None
     = UniqueLinks [ unique_of (link_at "https://x.com/" "2026-01-02" 2);
                     unique_of (link_at "https://x.com" "2026-01-01" 3) ].
Proof.
  intros selected_rows. split; [|by vm_compute].
  exists (order_by_desc u_message_date (group_by_url selected_rows)).
  split; [done|].
  pose proof (order_by_desc_perm u_message_date (group_by_url selected_rows))
    as Hperm.
  destruct (group_by_url_spec selected_rows) as [Hurls Hrows].
  split; [|split].
  - rewrite Hperm, Hurls. apply NoDup_remove_dups.
  - intros u. rewrite Hperm, Hurls. apply elem_of_remove_dups.
  - by rewrite Hperm.
Qed.

(** * Further properties of the code *)

(** ** Persistence layer *)

Module DbMoreFacts.
Import Db DbSpec DbFacts DbChannels.

Section ExecutemanyMore.
Context {R K : Type} `{EqDecision K}.
Variable unique_key : R -> K.

(** The count a run starts from does not influence the table. *)
Lemma executemany_from_count (rows : list R) (table : list R) (n : Z) :
  foldl (insert_or_ignore unique_key) (table, n) rows
  = ((executemany unique_key table rows).1,
     n + (executemany unique_key table rows).2).
Proof.
  unfold executemany. revert table n.
  induction rows as [|row rows IH]; intros table n; simpl.
  { f_equal. lia. }
  unfold insert_or_ignore at 2 4 6. simpl.
  case_decide.
  - apply IH.
  - rewrite (IH _ (n + 1)), (IH _ (0 + 1)). simpl. f_equal. lia.
Qed.

Lemma executemany_app (table a b : list R) :
  executemany unique_key table (a ++ b)
  = ((executemany unique_key (executemany unique_key table a).1 b).1,
     (executemany unique_key table a).2
     + (executemany unique_key (executemany unique_key table a).1 b).2).
Proof.
  unfold executemany at 1. rewrite foldl_app.
  fold (executemany unique_key table a).
  destruct (executemany unique_key table a) as [ta na].
  apply executemany_from_count.
Qed.

(** Stored rows stay; what is added is taken, in order, from the batch. *)
Lemma executemany_added (rows table : list R) :
  exists added,
    (executemany unique_key table rows).1 = (table ++ added)%list
    /\ added `sublist_of` rows
    /\ (executemany unique_key table rows).2 = Z.of_nat (length added).
Proof.
  revert table. induction rows as [|row rows IH]; intros table.
  { exists []. simpl. by rewrite app_nil_r. }
  unfold executemany. simpl. unfold insert_or_ignore at 2 4. simpl.
  case_decide.
  - destruct (IH table) as (added & Ht & Hsub & Hn).
    exists added. split; [exact Ht|]. split; [by apply sublist_cons | exact Hn].
  - rewrite executemany_from_count.
    destruct (IH (table ++ [row])%list) as (added & Ht & Hsub & Hn).
    exists (row :: added). simpl. rewrite Ht, Hn, <- app_assoc. simpl.
    split; [done|]. split; [by apply sublist_skip | lia].
Qed.

(** Rows with new, pairwise distinct keys are all added. *)
Lemma executemany_all_new (rows table : list R) :
  NoDup (unique_key <$> rows) ->
  Forall (fun row => unique_key row ∉ unique_key <$> table) rows ->
  executemany unique_key table rows
  = ((table ++ rows)%list, Z.of_nat (length rows)).
Proof.
  revert table. induction rows as [|row rows IH]; intros table Hnd Hnew.
  { unfold executemany. simpl. by rewrite app_nil_r. }
  rewrite fmap_cons in Hnd. apply NoDup_cons in Hnd as [Hrow Hnd].
  inversion Hnew as [|? ? Hrow_new Hnew']; subst.
  unfold executemany. simpl. unfold insert_or_ignore at 2. simpl.
  rewrite decide_False by done.
  rewrite executemany_from_count, IH; [|done|].
  - simpl. rewrite <- app_assoc. simpl. f_equal. lia.
  - apply Forall_forall. intros r Hr Hin.
    rewrite fmap_app in Hin. apply elem_of_app in Hin as [Hin | Hin].
    + rewrite Forall_forall in Hnew'. by apply (Hnew' r).
    + simpl in Hin. apply list_elem_of_singleton in Hin.
      apply Hrow. rewrite <- Hin. by apply list_elem_of_fmap_2.
Qed.
End ExecutemanyMore.

(** *** Ordering of TEXT values *)

Lemma text_le_total (a b : string) : text_le a b \/ text_le b a.
Proof. apply String.leb_total. Qed.

Lemma text_desc_total {R : Type} (col : R -> string) :
  Total (fun a b => text_le (col b) (col a)).
Proof. intros a b. apply text_le_total. Qed.

Lemma order_by_desc_sorted {R : Type} (col : R -> string) (rows : list R) :
  Sorted (fun a b => text_le (col b) (col a)) (order_by_desc col rows).
Proof.
  apply (@Sorted_merge_sort _ (fun a b => text_le (col b) (col a)) _
           (text_desc_total col)).
Qed.

Lemma distinct_sorted_spec (vals : list string) :
  Sorted text_le (distinct_sorted vals)
  /\ NoDup (distinct_sorted vals)
  /\ (forall v, v ∈ distinct_sorted vals <-> v ∈ vals).
Proof.
  unfold distinct_sorted.
  pose proof (merge_sort_Permutation text_le (remove_dups vals)) as Hperm.
  split; [|split].
  - apply (@Sorted_merge_sort _ text_le _ text_le_total).
  - rewrite Hperm. apply NoDup_remove_dups.
  - intros v. rewrite Hperm. apply elem_of_remove_dups.
Qed.

(** *** Small facts used below *)

Lemma filter_none {A : Type} (f : A -> bool) (l : list A) :
  Forall (fun x => f x = false) l -> List.filter f l = [].
Proof.
  induction 1 as [|x l Hx _ IH]; simpl; [done|]. by rewrite Hx.
Qed.

Lemma remove_dups_length {A : Type} `{EqDecision A} (l : list A) :
  (length (remove_dups l) <= length l)%nat
  /\ (length (remove_dups l) = length l <-> NoDup l).
Proof.
  induction l as [|x l [IHle IHeq]]; simpl.
  { split; [lia|]. split; [constructor | done]. }
  case_decide as Hx.
  - split; [lia|]. split; [lia|].
    intros Hnd. apply NoDup_cons in Hnd as [Hnx _]. done.
  - simpl. split; [lia|]. split.
    + intros Hlen. apply NoDup_cons. split; [done|]. apply IHeq. lia.
    + intros Hnd. apply NoDup_cons in Hnd as [_ Hnd]. f_equal. by apply IHeq.
Qed.

Lemma get_last_message_id_ge (c : conn) (row : message_row) :
  row ∈ messages c ->
  message_id row <= get_last_message_id c (channel_name row).
Proof.
  intros Hrow. unfold get_last_message_id.
  set (ids := message_id
        <$> List.filter (fun r => bool_decide (channel_name r = channel_name row))
                        (messages c)).
  assert (Hin : message_id row ∈ ids).
  { apply list_elem_of_fmap_2, list_elem_of_In, filter_In.
    split; [by apply list_elem_of_In | by apply bool_decide_eq_true]. }
  pose proof (sql_max_spec ids) as Hmax.
  destruct ids as [|i ids']; [by apply elem_of_nil in Hin|].
  destruct Hmax as (mx & -> & _ & Hall). simpl.
  rewrite Forall_forall in Hall. by apply Hall.
Qed.

Lemma selected_some (v : string) :
  v <> "" -> v <> "All" -> selected (Some v) = Some v.
Proof.
  intros Hne Hall. unfold selected. simpl.
  destruct v as [|a v]; [done|]. simpl. by rewrite decide_False.
Qed.

(** *** The update of [ON CONFLICT ... DO UPDATE] *)

Section UpdateRow.
Variable row : channel_row.

Lemma updated_name (r : channel_row) :
  c_channel_name (updated row r) = c_channel_name r.
Proof. unfold updated. by case_decide. Qed.

Lemma updated_names (rows : list channel_row) :
  c_channel_name <$> (updated row <$> rows) = c_channel_name <$> rows.
Proof.
  induction rows as [|r rows IH]; csimpl; [done|].
  by rewrite updated_name, IH.
Qed.

Lemma updated_twice (rows : list channel_row) :
  updated row <$> (updated row <$> rows) = updated row <$> rows.
Proof.
  induction rows as [|r rows IH]; csimpl; [done|]. rewrite IH. f_equal.
  unfold updated. repeat case_decide; done.
Qed.

Lemma updated_absent (rows : list channel_row) :
  c_channel_name row ∉ c_channel_name <$> rows -> updated row <$> rows = rows.
Proof.
  induction rows as [|r rows IH]; csimpl; intros Hn; [done|].
  apply not_elem_of_cons in Hn as [Hr Hn]. rewrite IH by done. f_equal.
  unfold updated. by rewrite decide_False.
Qed.

Lemma updated_others (rows : list channel_row) :
  filter (fun r => c_channel_name r <> c_channel_name row) (updated row <$> rows)
  = filter (fun r => c_channel_name r <> c_channel_name row) rows.
Proof.
  induction rows as [|r rows IH]; csimpl; [done|].
  destruct (decide (c_channel_name r = c_channel_name row)) as [Heq | Hne].
  - rewrite !filter_cons_False; [done | by intros ? | ].
    rewrite updated_name. by intros ?.
  - assert (Hu : updated row r = r) by (unfold updated; by rewrite decide_False).
    rewrite Hu, !filter_cons_True by done. by rewrite IH.
Qed.

Lemma updated_row (rows : list channel_row) :
  Forall (fun r => c_channel_name r = c_channel_name row -> r = row)
         (updated row <$> rows).
Proof.
  apply Forall_forall. intros r' Hr' Hname.
  apply list_elem_of_fmap in Hr' as (r & -> & _).
  rewrite updated_name in Hname. unfold updated. by rewrite decide_True.
Qed.
End UpdateRow.

Lemma upsert_channels (now : string) (c : conn) (info : channel_info) :
  channels (upsert_channel now c info)
  = if decide (c_channel_name (channel_params now info)
               ∈ c_channel_name <$> channels c)
    then updated (channel_params now info) <$> channels c
    else (channels c ++ [channel_params now info])%list.
Proof. done. Qed.

Lemma conn_ext (c1 c2 : conn) :
  messages c1 = messages c2 -> links c1 = links c2 ->
  channels c1 = channels c2 -> c1 = c2.
Proof. destruct c1, c2. simpl. by intros -> -> ->. Qed.

End DbMoreFacts.

Import DbChannels DbMoreFacts.

(** X1. Saving in two batches is saving at once: the tables end up the
    same and the two counts add up to the count of the single save. *)
Theorem save_in_batches
        (c : conn) (a b : list message_dict) (la lb : list LinkRecord) :
  (save_messages (save_messages c a).1 b).1 = (save_messages c (a ++ b)).1
  /\ (save_messages c a).2 + (save_messages (save_messages c a).1 b).2
     = (save_messages c (a ++ b)).2
  /\ (save_links (save_links c la).1 lb).1 = (save_links c (la ++ lb)).1
  /\ (save_links c la).2 + (save_links (save_links c la).1 lb).2
     = (save_links c (la ++ lb)).2.
Proof.
  unfold save_messages, save_links. simpl.
  rewrite !fmap_app, !executemany_app. simpl. done.
Qed.

(** X2. A save never changes or removes a stored row: the table after it
    is the table before it followed by the rows added, which are taken in
    order from the batch, and the count returned is their number. The two
    other tables are untouched. *)
Theorem save_keeps_stored_rows
        (c : conn) (batch : list message_dict) (lrs : list LinkRecord) :
  (exists added,
     messages (save_messages c batch).1 = (messages c ++ added)%list
     /\ added `sublist_of` (message_params <$> batch)
     /\ (save_messages c batch).2 = Z.of_nat (length added)
     /\ links (save_messages c batch).1 = links c
     /\ channels (save_messages c batch).1 = channels c)
  /\ (exists added,
        links (save_links c lrs).1 = (links c ++ added)%list
        /\ added `sublist_of` (link_params <$> lrs)
        /\ (save_links c lrs).2 = Z.of_nat (length added)
        /\ messages (save_links c lrs).1 = messages c
        /\ channels (save_links c lrs).1 = channels c).
Proof.
  split.
  - destruct (executemany_added message_key (message_params <$> batch)
                (messages c)) as (added & Ht & Hsub & Hn).
    exists added. by repeat split.
  - destruct (executemany_added link_key (link_params <$> lrs) (links c))
      as (added & Ht & Hsub & Hn).
    exists added. by repeat split.
Qed.

(** X3. After a save every message of the batch is stored under its key,
    and the resume cursor of its channel is at least its id. *)
Theorem cursor_covers_saved_ids (c : conn) (batch : list message_dict) :
  Forall (fun m =>
            (exists row, row ∈ messages (save_messages c batch).1
                         /\ channel_name row = md_channel_name m
                         /\ message_id row = md_message_id m)
            /\ md_message_id m
               <= get_last_message_id (save_messages c batch).1
                                      (md_channel_name m))
         batch.
Proof.
  pose proof (executemany_from_spec message_key (message_params <$> batch)
                (messages c, 0)) as (_ & Hall & _).
  apply Forall_forall. intros m Hm.
  rewrite Forall_forall in Hall.
  specialize (Hall (message_params m) (list_elem_of_fmap_2 _ _ _ Hm)).
  apply list_elem_of_fmap in Hall as (row & Hkey & Hrow).
  injection Hkey as Hch Hid. simpl in Hch, Hid.
  assert (Hstored : row ∈ messages (save_messages c batch).1) by done.
  split; [by exists row|].
  rewrite Hch, Hid. by apply get_last_message_id_ge.
Qed.

(** X4. After [clear_channel] the queries for that channel are empty, for
    every keyword, flag, domain and search, the cursor is back to 0 and the
    channel is no longer listed. The channel filter of [get_messages] and
    [get_links] is ignored for the empty name and for the name [All], so
    the two names are excluded. *)
Theorem purge_empties_queries
        (c : conn) (channel : string) (keyword domain_ search : option string)
        (has_link_ : option bool) :
  channel <> "" -> channel <> "All" ->
  get_messages (clear_channel c channel) (Some channel) keyword has_link_ = []
  /\ get_links (clear_channel c channel) (Some channel) domain_ false search
     = AllLinks []
  /\ get_links (clear_channel c channel) (Some channel) domain_ true search
     = UniqueLinks []
  /\ get_last_message_id (clear_channel c channel) channel = 0
  /\ channel ∉ get_channel_list (clear_channel c channel).
Proof.
  intros Hne Hall.
  pose proof (selected_some channel Hne Hall) as Hsel.
  assert (Hm : List.filter (messages_where (Some channel) keyword has_link_)
                 (messages (clear_channel c channel)) = []).
  { apply filter_none.
    eapply Forall_impl; [apply (delete_where_gone channel_name channel)|].
    simpl. intros r Hr. unfold messages_where. rewrite Hsel.
    by rewrite (bool_decide_eq_false_2 _ Hr). }
  assert (Hl : List.filter (links_where (Some channel) domain_ search)
                 (links (clear_channel c channel)) = []).
  { apply filter_none.
    eapply Forall_impl; [apply (delete_where_gone l_channel_name channel)|].
    simpl. intros r Hr. unfold links_where. rewrite Hsel.
    by rewrite (bool_decide_eq_false_2 _ Hr). }
  split; [unfold get_messages; by rewrite Hm|].
  split; [unfold get_links; by rewrite Hl|].
  split; [unfold get_links; by rewrite Hl|].
  split.
  - unfold get_last_message_id. rewrite filter_none; [done|].
    eapply Forall_impl; [apply (delete_where_gone channel_name channel)|].
    simpl. intros r Hr. by apply bool_decide_eq_false_2.
  - intros Hin. unfold get_channel_list in Hin.
    apply (proj1 (proj2 (proj2 (distinct_sorted_spec _)) channel)) in Hin.
    apply list_elem_of_fmap in Hin as (r & Heq & Hr).
    pose proof (delete_where_gone c_channel_name channel (channels c)) as Hgone.
    rewrite Forall_forall in Hgone. by apply (Hgone r).
Qed.

Lemma purge_empties_queries_witness :
  ("c" <> "" /\ "c" <> "All")
  /\ get_messages (clear_channel slash_links "c") (Some "c") None None = []
  /\ get_links (clear_channel slash_links "c") (Some "c") None false None
     = AllLinks []
  /\ get_links (clear_channel slash_links "c") (Some "c") None true None
     = UniqueLinks []
  /\ get_last_message_id (clear_channel slash_links "c") "c" = 0
  /\ "c" ∉ get_channel_list (clear_channel slash_links "c").
Proof.
  assert (H1 : "c" <> "") by discriminate.
  assert (H2 : "c" <> "All") by discriminate.
  split; [by split|].
  exact (purge_empties_queries slash_links "c" None None None None H1 H2).
Defined.

(** X5. [get_messages] returns the stored rows that pass the filters, each
    as often as it is stored, latest [message_date] first. With a channel
    selected every row is of that channel; with the [has_link] flag given
    every row has that flag; with nothing selected all rows are returned. *)
Theorem get_messages_newest_first
        (c : conn) (channel keyword : option string) (has_link_ : option bool) :
  let rows := get_messages c channel keyword has_link_ in
  Sorted (fun a b => text_le (message_date b) (message_date a)) rows
  /\ rows ≡ₚ List.filter (messages_where channel keyword has_link_) (messages c)
  /\ rows ⊆ messages c
  /\ (forall v, selected channel = Some v ->
                Forall (fun r => channel_name r = v) rows)
  /\ (forall b, has_link_ = Some b ->
                Forall (fun r => has_link r = if b then 1 else 0) rows)
  /\ (selected channel = None -> truthy_opt keyword = None ->
      has_link_ = None -> rows ≡ₚ messages c).
Proof.
  intros rows.
  pose proof (order_by_desc_perm message_date
                (List.filter (messages_where channel keyword has_link_)
                             (messages c))) as Hperm.
  fold (get_messages c channel keyword has_link_) in Hperm. fold rows in Hperm.
  assert (Hwhere : Forall (fun r => r ∈ messages c
                     /\ messages_where channel keyword has_link_ r = true) rows).
  { rewrite Hperm. apply Forall_forall. intros r Hr.
    apply list_elem_of_In, filter_In in Hr as [Hr Hw].
    split; [by apply list_elem_of_In | done]. }
  split; [apply order_by_desc_sorted|]. split; [exact Hperm|].
  split; [|split; [|split]].
  - intros r Hr. rewrite Forall_forall in Hwhere. by apply Hwhere.
  - intros v Hsel. eapply Forall_impl; [exact Hwhere|]. simpl.
    intros r [_ Hw]. unfold messages_where in Hw. rewrite Hsel in Hw.
    apply andb_true_iff in Hw as [Hw _]. apply andb_true_iff in Hw as [Hw _].
    by apply bool_decide_eq_true in Hw.
  - intros b Hb. eapply Forall_impl; [exact Hwhere|]. simpl.
    intros r [_ Hw]. unfold messages_where in Hw. rewrite Hb in Hw.
    apply andb_true_iff in Hw as [_ Hw].
    destruct b; by apply bool_decide_eq_true in Hw.
  - intros Hsel Hkw Hhl. rewrite Hperm.
    assert (Hall : forall r, messages_where channel keyword has_link_ r = true).
    { intros r. unfold messages_where. by rewrite Hsel, Hkw, Hhl. }
    clear -Hall. induction (messages c) as [|r l IH]; simpl; [done|].
    by rewrite Hall, IH.
Qed.

(** X6. The two views of [get_links]: the full view holds the selected
    links, latest first, all of the selected channel and domain when one is
    selected; the unique view is sorted the same way and never longer, and
    as long as the full view exactly when no url is stored twice among the
    selected links. *)
Theorem links_views
        (c : conn) (channel domain_ search : option string) :
  exists all uniq,
    get_links c channel domain_ false search = AllLinks all
    /\ get_links c channel domain_ true search = UniqueLinks uniq
    /\ Sorted (fun a b => text_le (l_message_date b) (l_message_date a)) all
    /\ Sorted (fun a b => text_le (u_message_date b) (u_message_date a)) uniq
    /\ all ≡ₚ List.filter (links_where channel domain_ search) (links c)
    /\ (forall v, selected channel = Some v ->
                  Forall (fun r => l_channel_name r = v) all)
    /\ (forall v, selected domain_ = Some v ->
                  Forall (fun r => l_domain r = v) all)
    /\ (length uniq <= length all)%nat
    /\ (length uniq = length all <-> NoDup (l_url <$> all)).
Proof.
  set (sel := List.filter (links_where channel domain_ search) (links c)).
  exists (order_by_desc l_message_date sel),
         (order_by_desc u_message_date (group_by_url sel)).
  pose proof (order_by_desc_perm l_message_date sel) as Hall.
  pose proof (order_by_desc_perm u_message_date (group_by_url sel)) as Huniq.
  assert (Hwhere : Forall (fun r => links_where channel domain_ search r = true)
                          (order_by_desc l_message_date sel)).
  { rewrite Hall. apply Forall_forall. intros r Hr.
    by apply list_elem_of_In, filter_In in Hr as [_ Hr]. }
  assert (Hlen : length (group_by_url sel)
                 = length (remove_dups (l_url <$> sel))).
  { destruct (group_by_url_spec sel) as [<- _]. by rewrite length_fmap. }
  split; [done|]. split; [done|].
  split; [apply order_by_desc_sorted|]. split; [apply order_by_desc_sorted|].
  split; [exact Hall|]. split; [|split; [|split]].
  - intros v Hsel. eapply Forall_impl; [exact Hwhere|]. simpl.
    intros r Hw. unfold links_where in Hw. rewrite Hsel in Hw.
    apply andb_true_iff in Hw as [Hw _]. apply andb_true_iff in Hw as [Hw _].
    by apply bool_decide_eq_true in Hw.
  - intros v Hsel. eapply Forall_impl; [exact Hwhere|]. simpl.
    intros r Hw. unfold links_where in Hw. rewrite Hsel in Hw.
    apply andb_true_iff in Hw as [Hw _]. apply andb_true_iff in Hw as [_ Hw].
    by apply bool_decide_eq_true in Hw.
  - rewrite Huniq, Hall, Hlen.
    pose proof (remove_dups_length (l_url <$> sel)) as [Hle _].
    by rewrite length_fmap in Hle.
  - rewrite Huniq, Hall, Hlen.
    pose proof (remove_dups_length (l_url <$> sel)) as [_ Heq].
    by rewrite length_fmap in Heq.
Qed.

(** X7. [get_domain_list] and [get_channel_list] return every stored
    domain, respectively channel name, exactly once and in ascending
    order. *)
Theorem distinct_lists_sorted (c : conn) :
  (Sorted text_le (get_domain_list c)
   /\ NoDup (get_domain_list c)
   /\ forall d, d ∈ get_domain_list c
                <-> exists r, r ∈ links c /\ l_domain r = d)
  /\ (Sorted text_le (get_channel_list c)
      /\ NoDup (get_channel_list c)
      /\ forall n, n ∈ get_channel_list c
                   <-> exists r, r ∈ channels c /\ c_channel_name r = n).
Proof.
  split.
  - destruct (distinct_sorted_spec (l_domain <$> links c)) as (Hs & Hn & Hm).
    split; [exact Hs|]. split; [exact Hn|].
    intros d. unfold get_domain_list. rewrite Hm, list_elem_of_fmap.
    split; intros (r & H1 & H2); exists r; by split.
  - destruct (distinct_sorted_spec (c_channel_name <$> channels c))
      as (Hs & Hn & Hm).
    split; [exact Hs|]. split; [exact Hn|].
    intros n. unfold get_channel_list. rewrite Hm, list_elem_of_fmap.
    split; intros (r & H1 & H2); exists r; by split.
Qed.

(** X8. [upsert_channel] stores the new row: afterwards every row with
    that channel name is the new row and the name is listed. The rows of
    the other channels, their order, the names of the table and the two
    other tables are as before, except that a name not stored yet is added
    at the end; names stay unique. A second call with the same dict, made
    when the clock reads [later], overrides the first: the table is the one
    the second call alone would give. It changes nothing when the dict
    carries [last_scraped] or the clock reads the same; when the dict has
    no [last_scraped] and the clock has moved, the row gets the later
    reading and the table differs. *)
Theorem upsert_channel_spec
        (now later : string) (c : conn) (info : channel_info) :
  let row := channel_params now info in
  let c' := upsert_channel now c info in
  row ∈ channels c'
  /\ Forall (fun r => c_channel_name r = c_channel_name row -> r = row)
            (channels c')
  /\ filter (fun r => c_channel_name r <> c_channel_name row) (channels c')
     = filter (fun r => c_channel_name r <> c_channel_name row) (channels c)
  /\ c_channel_name <$> channels c'
     = (if decide (c_channel_name row ∈ c_channel_name <$> channels c)
        then c_channel_name <$> channels c
        else (c_channel_name <$> channels c) ++ [c_channel_name row])%list
  /\ (NoDup (c_channel_name <$> channels c) ->
      NoDup (c_channel_name <$> channels c'))
  /\ messages c' = messages c /\ links c' = links c
  /\ upsert_channel later c' info = upsert_channel later c info
  /\ (is_Some (ci_last_scraped info) \/ later = now ->
      upsert_channel later c' info = c')
  /\ (ci_last_scraped info = None -> later <> now ->
      upsert_channel later c' info <> c'
      /\ Forall (fun r => c_channel_name r = c_channel_name row ->
                          c_last_scraped r = later)
                (channels (upsert_channel later c' info)))
  /\ c_channel_name row ∈ get_channel_list c'.
Proof.
  intros row c'.
  pose proof (upsert_channels now c info) as Hch. fold row c' in Hch.
  assert (Hnames : c_channel_name <$> channels c'
     = (if decide (c_channel_name row ∈ c_channel_name <$> channels c)
        then c_channel_name <$> channels c
        else (c_channel_name <$> channels c) ++ [c_channel_name row])%list).
  { rewrite Hch. case_decide.
    - apply updated_names.
    - by rewrite fmap_app. }
  assert (Hrow : row ∈ channels c').
  { rewrite Hch. case_decide as Hin.
    - apply list_elem_of_fmap in Hin as (r & Hr & Hin).
      apply list_elem_of_fmap. exists r. split; [|done].
      unfold updated. by rewrite decide_True by (by symmetry).
    - apply elem_of_app. right. apply list_elem_of_here. }
  assert (Hall : Forall (fun r => c_channel_name r = c_channel_name row ->
                                  r = row) (channels c')).
  { rewrite Hch. case_decide as Hin.
    + apply updated_row.
    + apply Forall_app. split; [|by repeat constructor].
      apply Forall_forall. intros r Hr Hname. exfalso. apply Hin.
      rewrite <- Hname. by apply list_elem_of_fmap_2. }
  set (row' := channel_params later info).
  assert (Hname' : c_channel_name row' = c_channel_name row) by done.
  assert (Hover : upsert_channel later c' info = upsert_channel later c info).
  { apply conn_ext; [done | done |].
    rewrite (upsert_channels later c' info), (upsert_channels later c info).
    fold row'. rewrite Hname', Hnames.
    destruct (decide (c_channel_name row ∈ c_channel_name <$> channels c))
      as [Hin | Hin].
    - rewrite decide_True by done. rewrite Hch.
      rewrite <- list_fmap_compose. apply list_fmap_ext. intros i r _. cbn.
      unfold updated. rewrite Hname'. repeat case_decide; congruence.
    - rewrite decide_True
        by (apply elem_of_app; right; apply list_elem_of_here).
      rewrite Hch.
      rewrite fmap_app, updated_absent by (by rewrite Hname'). cbn.
      unfold updated. by rewrite decide_True. }
  assert (Hsame : row' = row -> upsert_channel later c' info = c').
  { intros Heq. rewrite Hover. apply conn_ext; [done | done |].
    rewrite (upsert_channels later c info). fold row'. by rewrite Heq, Hch. }
  split; [exact Hrow|]. split; [exact Hall|].
  split; [|split; [exact Hnames|]].
  - rewrite Hch. case_decide as Hin.
    + apply updated_others.
    + rewrite filter_app, filter_cons_False, filter_nil, app_nil_r; [done|].
      by intros ?.
  - split; [|split; [done|split; [done|split; [exact Hover|split; [|split]]]]].
    + rewrite Hnames. case_decide as Hin; [done|]. intros Hnd.
      apply NoDup_app. split; [done|]. split; [|apply NoDup_singleton].
      intros n Hn Hn'. apply list_elem_of_singleton in Hn'. by subst.
    + intros [[t Ht] | ->]; [|by apply Hsame].
      apply Hsame. unfold row', row, channel_params. by rewrite Ht.
    + intros Hnone Hlater.
      assert (Hrow' : row' ∈ channels (upsert_channel later c' info)).
      { rewrite (upsert_channels later c' info). fold row'.
        rewrite decide_True
          by (rewrite Hname'; by apply list_elem_of_fmap_2).
        apply list_elem_of_fmap. exists row. split; [|done].
        unfold updated. by rewrite decide_True. }
      assert (Hlast : c_last_scraped row' = later).
      { unfold row', channel_params. cbn. by rewrite Hnone. }
      assert (Hlast0 : c_last_scraped row = now).
      { unfold row, channel_params. cbn. by rewrite Hnone. }
      split.
      * intros Heq. rewrite Heq in Hrow'.
        rewrite Forall_forall in Hall.
        pose proof (Hall row' Hrow' Hname') as Hbad.
        rewrite Hbad in Hlast. congruence.
      * rewrite (upsert_channels later c' info). fold row'.
        rewrite decide_True
          by (rewrite Hname'; by apply list_elem_of_fmap_2).
        apply Forall_forall. intros r Hr Hn.
        pose proof (updated_row row' (channels c')) as Hupd.
        rewrite Forall_forall in Hupd.
        rewrite (Hupd r Hr); [done|]. by rewrite Hname'.
    + unfold get_channel_list.
      apply (proj2 (proj2 (distinct_sorted_spec _))).
      by apply list_elem_of_fmap_2.
Qed.

(** ** The scrape loop *)

Module AppFacts.
Import LinkExtractor Db DbFacts DbMoreFacts App.

Section ScrapeFacts.
Variable urlparse_netloc : string -> option string.
Variable links_only : bool.

Lemma executemany_nil {R K : Type} `{EqDecision K} (key : R -> K)
      (table : list R) :
  (executemany key table []).1 = table.
Proof. done. Qed.











End ScrapeFacts.

End AppFacts.

Import App AppFacts.


(** X10. [connect] returns [True] or raises; the [return False] after the
    loop is never reached, and no delay is looked up outside
    [RETRY_DELAYS]. It returns [True] exactly when one of the first three
    attempts connects after connection errors only, and re-raises the
    connection error exactly when all three attempts fail that way, having
    slept 1 and then 2 seconds. *)
Theorem connect_returns_true_or_raises
        (client_connect : nat -> Connection.attempt_outcome) :
  let out := Connection.connect client_connect in
  out.1 <> Connection.Returned false
  /\ out.1 <> Connection.RaisedIndexError
  /\ out.2 `prefix_of` [1; 2]
  /\ (out.1 = Connection.Returned true
      <-> exists k, (k < 3)%nat
            /\ client_connect k = Connection.Connected
            /\ forall j, (j < k)%nat ->
                         client_connect j = Connection.ConnectionFailed)
  /\ (out.1 = Connection.RaisedConnectionError
      <-> forall j, (j < 3)%nat ->
                    client_connect j = Connection.ConnectionFailed)
  /\ (out.1 = Connection.RaisedConnectionError -> out.2 = [1; 2]).
Proof.
  unfold Connection.connect. simpl.
  destruct (client_connect 0%nat) eqn:H0;
    [| destruct (client_connect 1%nat) eqn:H1;
       [| destruct (client_connect 2%nat) eqn:H2 | ] | ]; simpl.
  all: split; [done|]; split; [done|].
  all: split; [first [ by exists [1; 2] | by exists [2] | by exists [] ]|].
  all: split; [|split; [|done]].
  all: try (split; [done|]).
  all: try (split; [|done]).
  - by exists 0%nat; repeat split; [lia | | intros j Hj; lia].
  - intros Hall. specialize (Hall 0%nat). rewrite H0 in Hall.
    discriminate Hall. lia.
  - exists 1%nat. repeat split; [lia | done |].
    intros j Hj. by replace j with 0%nat by lia.
  - intros Hall. specialize (Hall 1%nat). rewrite H1 in Hall.
    discriminate Hall. lia.
  - exists 2%nat. repeat split; [lia | done |].
    intros j Hj. destruct j as [|[|j]]; [done | done | lia].
  - intros Hall. specialize (Hall 2%nat). rewrite H2 in Hall.
    discriminate Hall. lia.
  - intros (k & Hk & Hc & Hpre).
    destruct k as [|[|[|k]]]; [congruence | congruence | congruence | lia].
  - intros _ j Hj. destruct j as [|[|[|j]]]; [done | done | done | lia].
  - intros (k & Hk & Hc & Hpre).
    destruct k as [|[|[|k]]]; [congruence | congruence | | lia].
    specialize (Hpre 2%nat). congruence.
  - intros Hall. specialize (Hall 2%nat). rewrite H2 in Hall.
    discriminate Hall. lia.
  - intros (k & Hk & Hc & Hpre).
    destruct k as [|[|[|k]]]; [congruence | congruence | | lia].
    specialize (Hpre 1%nat (ltac:(lia))). congruence.
  - intros Hall. specialize (Hall 1%nat). rewrite H1 in Hall.
    discriminate Hall. lia.
  - intros (k & Hk & Hc & Hpre).
    destruct k as [|[|[|k]]]; [congruence | | | lia].
    + specialize (Hpre 0%nat (ltac:(lia))). congruence.
    + specialize (Hpre 0%nat (ltac:(lia))). congruence.
  - intros Hall. specialize (Hall 0%nat). rewrite H0 in Hall.
    discriminate Hall. lia.
Qed.

(** ** The URL pattern *)

Module RegexFacts.
Import PyStr Regex RegexSpec.

Lemma append_cons (c : ascii) (a b : string) :
  String c a ++ b = String c (a ++ b).
Proof. done. Qed.

Lemma append_nil (b : string) : EmptyString ++ b = b.
Proof. done. Qed.

Lemma take_length (n : nat) (s : string) :
  (n <= String.length s)%nat -> String.length (take n s) = n.
Proof.
  revert s. induction n as [|n IH]; intros [|c s] Hn; simpl in *;
    [done | done | lia |]. rewrite IH; [done | lia].
Qed.

Lemma take_drop (n : nat) (s : string) : s = take n s ++ drop n s.
Proof.
  revert s. induction n as [|n IH]; intros [|c s]; simpl; try done.
  rewrite append_cons. f_equal. apply IH.
Qed.

Lemma span_len_le (p : ascii -> bool) (s : string) :
  (span_len p s <= String.length s)%nat.
Proof.
  induction s as [|c s IH]; simpl; [done|]. destruct (p c); simpl; lia.
Qed.

Lemma span_len_all (p : ascii -> bool) (s : string) (n : nat) :
  (n <= span_len p s)%nat -> all_chars p (take n s) = true.
Proof.
  revert s. induction n as [|n IH]; intros [|c s] Hn; simpl in *;
    try done; try lia.
  destruct (p c); simpl in *; [apply IH; lia | lia].
Qed.

Lemma all_chars_impl (p q : ascii -> bool) (s : string) :
  (forall c, p c = true -> q c = true) ->
  all_chars p s = true -> all_chars q s = true.
Proof.
  intros Hpq. induction s as [|c s IH]; simpl; [done|].
  intros [Hc Hs]%andb_true_iff. by rewrite (Hpq c Hc), IH.
Qed.

(** Whitespace has no case, and the letters of the scheme are no
    whitespace. *)
Lemma space_lower (c : ascii) : is_space c = true -> lower_char c = c.
Proof.
  destruct c as [[] [] [] [] [] [] [] []]; vm_compute; congruence.
Qed.

Lemma ieq_not_space (c lit : ascii) :
  ieq c lit = true -> is_space lit = false -> is_space c = false.
Proof.
  unfold ieq. intros Heq%Ascii.eqb_eq Hlit.
  destruct (is_space c) eqn:Hc; [|done].
  rewrite (space_lower c Hc) in Heq. congruence.
Qed.

Lemma strip_prefix_ci_spec (p s r : string) :
  all_chars no_space p = true ->
  strip_prefix_ci p s = Some r ->
  exists a, s = a ++ r /\ String.length a = String.length p
            /\ all_chars no_space a = true.
Proof.
  revert s. induction p as [|a p IH]; intros s Hp Hs; simpl in *.
  { injection Hs as <-. by exists EmptyString. }
  destruct s as [|b s]; [done|].
  apply andb_true_iff in Hp as [Ha Hp].
  destruct (ieq b a) eqn:Hba; [|done].
  destruct (IH s Hp Hs) as (pre & -> & Hlen & Hall).
  exists (String b pre). split; [done|]. simpl. split; [by rewrite Hlen|].
  rewrite Hall, andb_true_r. unfold no_space.
  rewrite (ieq_not_space b a Hba); [done|].
  unfold no_space in Ha. by apply negb_true_iff in Ha.
Qed.

Lemma strip_prefix_spec (p s r : string) :
  strip_prefix p s = Some r -> s = p ++ r.
Proof.
  revert s. induction p as [|a p IH]; intros s Hs; simpl in *.
  { by injection Hs as <-. }
  destruct s as [|b s]; [done|].
  destruct (Ascii.eqb a b) eqn:Hab; [|done].
  apply Ascii.eqb_eq in Hab as ->. by rewrite append_cons, <- (IH s Hs).
Qed.

Lemma all_chars_app (p : ascii -> bool) (a b : string) :
  all_chars p (a ++ b) = all_chars p a && all_chars p b.
Proof.
  induction a as [|c a IH]; [done|].
  rewrite append_cons. simpl. by rewrite IH, andb_assoc.
Qed.

Lemma take_app_length (a b : string) (n : nat) :
  take (String.length a + n) (a ++ b) = a ++ take n b.
Proof.
  induction a as [|c a IH]; [done|]. rewrite append_cons. simpl. by rewrite IH.
Qed.

Lemma string_length_app (a b : string) :
  String.length (a ++ b) = (String.length a + String.length b)%nat.
Proof.
  induction a as [|c a IH]; [done|]. rewrite append_cons. simpl. by rewrite IH.
Qed.

(** A match of the tail: [://] and a non-empty run of URL characters. *)
Lemma match_tail_spec (s : string) (n : nat) :
  match_tail s = Some n ->
  (4 <= n <= String.length s)%nat
  /\ all_chars no_space (take n s) = true.
Proof.
  unfold match_tail. destruct (strip_prefix "://" s) as [rest|] eqn:Hp; [|done].
  apply strip_prefix_spec in Hp as ->.
  destruct (span_len url_char rest) as [|k] eqn:Hk; [done|].
  intros [= <-]. pose proof (span_len_le url_char rest) as Hle.
  split; [rewrite string_length_app; simpl; lia|].
  match goal with
  | |- context [take ?a ?b] =>
      replace (take a b) with ("://" ++ take (S k) rest)
        by (symmetry; apply (take_app_length "://" rest (S k)))
  end.
  rewrite all_chars_app. apply andb_true_iff. split; [done|].
  apply (all_chars_impl url_char).
  - intros c. unfold url_char, no_space.
    intros Hc%negb_true_iff%orb_false_iff. by rewrite (proj1 Hc).
  - apply span_len_all. lia.
Qed.

(** A match of the pattern at the start of [s]: at least eight
    characters, none of them whitespace. *)
Lemma match_at_spec (s : string) (n : nat) :
  match_at s = Some n ->
  (8 <= n <= String.length s)%nat
  /\ all_chars no_space (take n s) = true.
Proof.
  unfold match_at.
  destruct (strip_prefix_ci "http" s) as [r|] eqn:Hh; [|done].
  destruct (strip_prefix_ci_spec "http" s r eq_refl Hh)
    as (a & -> & Hla & Ha).
  simpl in Hla.
  assert (Hplain : forall k, match_tail r = Some k ->
            (8 <= 4 + k <= String.length (a ++ r))%nat
            /\ all_chars no_space (take (4 + k) (a ++ r)) = true).
  { intros k Hk. destruct (match_tail_spec r k Hk) as [Hk1 Hk2].
    rewrite string_length_app, Hla. split; [lia|].
    rewrite <- Hla, take_app_length, all_chars_app. by rewrite Ha, Hk2. }
  destruct (strip_prefix_ci "s" r) as [r'|] eqn:Hs'.
  - destruct (strip_prefix_ci_spec "s" r r' eq_refl Hs')
      as (b & Hr & Hlb & Hb).
    simpl in Hlb.
    destruct (match_tail r') as [k|] eqn:Hk.
    + intros [= <-]. subst r.
      destruct (match_tail_spec r' k Hk) as [Hk1 Hk2].
      rewrite !string_length_app, Hla, Hlb. split; [lia|].
      match goal with
      | |- context [take ?n ?t] =>
          replace (take n t) with (a ++ (b ++ take k r'))
      end.
      * rewrite !all_chars_app. by rewrite Ha, Hb, Hk2.
      * rewrite <- (take_app_length b r' k), <- take_app_length.
        by rewrite Hla, Hlb.
    + destruct (match_tail r) as [k|] eqn:Hk'; [|done].
      intros [= <-]. by apply Hplain.
  - destruct (match_tail r) as [k|] eqn:Hk'; [|done].
    intros [= <-]. by apply Hplain.
Qed.

(** Each match is cut out of the text at a place where the pattern
    matches. *)
Lemma findall_from_spec (text : string) (skip : nat) (u : string) :
  u ∈ findall_from skip text ->
  exists pre s n, text = pre ++ s /\ match_at s = Some n /\ u = take n s.
Proof.
  revert skip. induction text as [|c text IH]; intros skip Hu; simpl in Hu.
  { by apply elem_of_nil in Hu. }
  assert (Hrest : forall k, u ∈ findall_from k text ->
            exists pre s n, String c text = pre ++ s
                            /\ match_at s = Some n /\ u = take n s).
  { intros k Hk. destruct (IH k Hk) as (pre & s & n & -> & Hm & ->).
    by exists (String c pre), s, n. }
  destruct skip as [|k]; [|by apply (Hrest k)].
  destruct (match_at (String c text)) as [n|] eqn:Hm; [|by apply (Hrest O)].
  apply elem_of_cons in Hu as [-> | Hu]; [|by apply (Hrest (Nat.pred n))].
  by exists EmptyString, (String c text), n.
Qed.

(** The matches do not overlap: together they are no longer than what is
    left of the text after the characters still to be passed over. *)
Lemma findall_from_total (text : string) (skip : nat) :
  (total_length (findall_from skip text) + skip
   <= Nat.max skip (String.length text))%nat.
Proof.
  revert skip. induction text as [|c text IH]; intros skip; simpl.
  { lia. }
  destruct skip as [|k].
  - destruct (match_at (String c text)) as [n|] eqn:Hm.
    + destruct (match_at_spec _ _ Hm) as [Hn _]. simpl.
      rewrite (take_length n (String c text)) by lia.
      specialize (IH (Nat.pred n)). simpl in Hn. lia.
    + specialize (IH O). lia.
  - specialize (IH k). lia.
Qed.

Lemma append_empty (a : string) : a ++ EmptyString = a.
Proof.
  induction a as [|c a IH]; [done|]. rewrite append_cons. by rewrite IH.
Qed.

Lemma append_assoc (a b c : string) : (a ++ b) ++ c = a ++ (b ++ c).
Proof.
  induction a as [|x a IH]; [done|]. rewrite !append_cons. by rewrite IH.
Qed.

Lemma strip_prefix_ci_lower (p s r : string) :
  strip_prefix_ci p s = Some r ->
  lower (take (String.length p) s) = p.
Proof.
  revert s. induction p as [|a p IH]; intros s Hs; simpl in *; [done|].
  destruct s as [|b s]; [done|].
  destruct (ieq b a) eqn:Hba; [|done]. simpl.
  unfold ieq in Hba. apply Ascii.eqb_eq in Hba. by rewrite Hba, (IH s Hs).
Qed.

Lemma take_take (k n : nat) (s : string) :
  (k <= n)%nat -> take k (take n s) = take k s.
Proof.
  revert n s. induction k as [|k IH]; intros [|n] [|c s] Hk; simpl;
    try done; try lia.
  rewrite IH; [done | lia].
Qed.

(** A match starts with the scheme, in whatever case. *)
Lemma match_at_scheme (s : string) (n : nat) :
  match_at s = Some n -> lower (take 4 (take n s)) = "http".
Proof.
  intros Hm. destruct (match_at_spec s n Hm) as [[Hn _] _].
  rewrite take_take by lia. unfold match_at in Hm.
  destruct (strip_prefix_ci "http" s) as [r|] eqn:Hh; [|done].
  apply (strip_prefix_ci_lower "http" s r Hh).
Qed.

End RegexFacts.

Import RegexSpec RegexFacts.

(** X11. Every URL the pattern finds is a piece of the text, starts with
    [http] in some mix of cases, has at least eight characters and contains
    no whitespace. The URLs found do not overlap: their lengths add up to
    at most the length of the text. *)
Theorem url_matches_shape (text : string) :
  Forall (fun u =>
            (exists pre post, text = pre ++ u ++ post)
            /\ PyStr.lower (PyStr.take 4 u) = "http"
            /\ (8 <= String.length u)%nat
            /\ PyStr.all_chars no_space u = true)
         (Regex.URL_REGEX_findall text)
  /\ (total_length (Regex.URL_REGEX_findall text) <= String.length text)%nat.
Proof.
  split.
  - apply Forall_forall. intros u Hu.
    apply findall_from_spec in Hu as (pre & s & n & -> & Hm & ->).
    destruct (match_at_spec s n Hm) as [Hn Hall].
    split; [|split; [|split]].
    + exists pre, (PyStr.drop n s). by rewrite <- take_drop.
    + by apply match_at_scheme.
    + rewrite take_length; lia.
    + exact Hall.
  - pose proof (findall_from_total text O) as Ht.
    unfold Regex.URL_REGEX_findall. lia.
Qed.

(** ** The [has_link] flag against the extraction *)

Module FlagFacts.
Import PyStr Regex Telethon LinkExtractor ExtractSpec ExtractFacts
       TelegramClient RegexFacts.

Lemma no_link_entity_candidates (text : string) (ents : list MessageEntity) :
  existsb is_link_entity ents = false ->
  omap (texturl_candidate text) ents = []
  /\ omap (url_candidate text) ents = [].
Proof.
  induction ents as [|ent ents IH]; simpl; [done|].
  intros [Hent Hents]%orb_false_iff. destruct (IH Hents) as [IH1 IH2].
  destruct ent; simpl in *; try done; by rewrite ?IH1, ?IH2.
Qed.

Lemma no_url_row_candidates (row : list KeyboardButton) :
  existsb button_has_url row = false -> omap button_candidate row = [].
Proof.
  induction row as [|b row IH]; [done|]. simpl existsb.
  intros [Hb Hrow]%orb_false_iff. csimpl. rewrite (IH Hrow).
  unfold button_has_url in Hb. unfold button_candidate.
  by destruct (truthy_opt (button_url b)).
Qed.

Lemma no_url_button_candidates (rs : list (list KeyboardButton)) :
  existsb (existsb button_has_url) rs = false ->
  omap button_candidate (concat rs) = [].
Proof.
  induction rs as [|row rs IH]; [done|]. simpl existsb. simpl concat.
  intros [Hrow Hrs]%orb_false_iff.
  by rewrite omap_app, (IH Hrs), (no_url_row_candidates row Hrow).
Qed.

Lemma link_entity_candidate (text : string) (ents : list MessageEntity)
      (ent : MessageEntity) :
  ent ∈ ents -> is_link_entity ent = true ->
  existsb is_link_entity ents = true
  /\ (omap (texturl_candidate text) ents
      ++ omap (url_candidate text) ents)%list <> [].
Proof.
  intros Hin Hent. split.
  - apply existsb_exists. exists ent. split; [by apply list_elem_of_In | done].
  - intros Hnil. apply app_eq_nil in Hnil as [H1 H2].
    destruct ent as [o l u | o l |]; [| |done].
    + assert (Hc : {| c_url := u; c_source := "entity_texturl";
                      c_anchor := Some (slice o l text) |}
                   ∈ omap (texturl_candidate text) ents).
      { apply list_elem_of_omap. by exists (MessageEntityTextUrl o l u). }
      rewrite H1 in Hc. by apply elem_of_nil in Hc.
    + assert (Hc : {| c_url := slice o l text; c_source := "entity_url";
                      c_anchor := None |}
                   ∈ omap (url_candidate text) ents).
      { apply list_elem_of_omap. by exists (MessageEntityUrl o l). }
      rewrite H2 in Hc. by apply elem_of_nil in Hc.
Qed.

Lemma url_button_candidate (rs : list (list KeyboardButton))
      (row : list KeyboardButton) (btn : KeyboardButton) :
  row ∈ rs -> btn ∈ row -> button_has_url btn = true ->
  existsb (existsb button_has_url) rs = true
  /\ omap button_candidate (concat rs) <> [].
Proof.
  intros Hrow Hbtn Hurl. split.
  - apply existsb_exists. exists row. split; [by apply list_elem_of_In|].
    apply existsb_exists. exists btn. split; [by apply list_elem_of_In | done].
  - unfold button_has_url in Hurl.
    destruct (truthy_opt (button_url btn)) as [u|] eqn:Hu; [|done].
    intros Hnil.
    assert (Hc : {| c_url := u; c_source := "button";
                    c_anchor := Some (default "" (button_text btn)) |}
                 ∈ omap button_candidate (concat rs)).
    { apply list_elem_of_omap. exists btn. split.
      - apply list_elem_of_In, in_concat. exists row.
        split; by apply list_elem_of_In.
      - unfold button_candidate. by rewrite Hu. }
    rewrite Hnil in Hc. by apply elem_of_nil in Hc.
Qed.

(** The case-sensitive search and the places of a text. *)
Lemma search_scheme_here (s : string) :
  search_scheme s = false -> scheme_at s = false.
Proof.
  destruct s as [|c s]; [done|].
  change (search_scheme (String c s))
    with (scheme_at (String c s) || search_scheme s).
  by intros [H _]%orb_false_iff.
Qed.

Lemma search_scheme_suffix (pre s : string) :
  search_scheme (pre ++ s) = false -> scheme_at s = false.
Proof.
  induction pre as [|c pre IH].
  - rewrite append_nil. apply search_scheme_here.
  - rewrite append_cons.
    change (search_scheme (String c (pre ++ s)))
      with (scheme_at (String c (pre ++ s)) || search_scheme (pre ++ s)).
    intros [_ H]%orb_false_iff. by apply IH.
Qed.

Lemma strip_prefix_take (p s r : string) (n : nat) :
  strip_prefix p (take n s) = Some r -> startswith p s = true.
Proof.
  unfold startswith. revert s n r.
  induction p as [|a p IH]; intros s n r; simpl; [done|].
  destruct n as [|n], s as [|b s]; simpl; try done.
  destruct (Ascii.eqb a b); [|done]. apply IH.
Qed.

Lemma scheme_at_take (s : string) (n : nat) :
  scheme_at s = false -> scheme_at (take n s) = false.
Proof.
  unfold scheme_at. intros [H1 H2]%orb_false_iff.
  apply orb_false_iff. split.
  - unfold startswith at 1.
    destruct (strip_prefix "http://" (take n s)) as [r|] eqn:Hr; [|done].
    by rewrite (strip_prefix_take _ _ _ _ Hr) in H1.
  - unfold startswith at 1.
    destruct (strip_prefix "https://" (take n s)) as [r|] eqn:Hr; [|done].
    by rewrite (strip_prefix_take _ _ _ _ Hr) in H2.
Qed.

(** What a false flag says about the raw message. *)
Lemma has_link_false (msg : Message) :
  has_link msg = false ->
  existsb is_link_entity (default [] (entities msg)) = false
  /\ omap button_candidate
          (concat (match reply_markup msg with
                   | Some markup => rows markup
                   | None => []
                   end)) = []
  /\ preview_candidates (Some msg) = []
  /\ search_scheme (default "" (message msg)) = false.
Proof.
  unfold has_link, preview_candidates.
  destruct (entities msg) as [ents|]; simpl;
    [destruct (existsb is_link_entity ents) eqn:He; simpl; [done|] |];
    (destruct (reply_markup msg) as [markup|]; simpl;
     [destruct (existsb (existsb button_has_url) (rows markup)) eqn:Hb;
      simpl; [done|] |]);
    (destruct (media msg) as [[wp|]|]; simpl; [done| |]);
    (destruct (message msg) as [[|c t]|]; simpl; intros Hs);
    (split; [done|];
     split; [first [done | by apply no_url_button_candidates]|];
     split; done).
Qed.

(** The URLs produced for a yielded dict and its raw message. *)
Lemma yielded_candidates (channel : string) (msg : Message) :
  candidates (yielded channel msg).1 (Some msg)
  = (omap (texturl_candidate (default "" (message msg)))
          (default [] (entities msg))
     ++ omap (url_candidate (default "" (message msg)))
             (default [] (entities msg))
     ++ (regex_candidate
         <$> URL_REGEX_findall (default "" (message msg)))
     ++ omap button_candidate
             (concat (match reply_markup msg with
                      | Some markup => rows markup
                      | None => []
                      end))
     ++ preview_candidates (Some msg))%list.
Proof.
  unfold candidates, button_candidates, raw_entities.
  destruct (reply_markup msg); reflexivity.
Qed.

End FlagFacts.

Import FlagFacts.

(** X12. When [fetch_messages] yields a dict with a false [has_link], the
    extraction can still return records, but only pattern matches: each
    has source [regex], and its URL starts with [http] written otherwise
    than in lower case throughout the scheme, since the text holds neither
    [http://] nor [https://] as written. *)
Theorem false_flag_leaves_regex_only
        (urlparse_netloc : string -> option string)
        (channel : string) (msg : Message) :
  TelegramClient.has_link msg = false ->
  Forall (fun r => source r = "regex"
                   /\ Regex.scheme_at (url r) = false
                   /\ PyStr.lower (PyStr.take 4 (url r)) = "http")
         (extract_links urlparse_netloc
            (TelegramClient.yielded channel msg).1
            (Some (TelegramClient.yielded channel msg).2)).
Proof.
  intros Hflag.
  destruct (has_link_false msg Hflag) as (Hents & Hbtn & Hprev & Hsearch).
  destruct (no_link_entity_candidates (default "" (message msg)) _ Hents)
    as [Ht Hu].
  set (y := TelegramClient.yielded channel msg).
  assert (Hcands : candidates y.1 (Some y.2)
                   = regex_candidate
                     <$> Regex.URL_REGEX_findall (default "" (message msg))).
  { change (y.2) with msg. unfold y.
    by rewrite yielded_candidates, Ht, Hu, Hbtn, Hprev, !app_nil_r. }
  pose proof (extract_links_from_candidates urlparse_netloc y.1 (Some y.2))
    as Hfrom.
  apply Forall_forall. intros r Hr. rewrite Forall_forall in Hfrom.
  destruct (Hfrom r Hr) as (c & Hc & ->). rewrite Hcands in Hc.
  apply list_elem_of_fmap in Hc as (u & -> & Hu').
  change (url (record_of urlparse_netloc y.1 (regex_candidate u))) with u.
  split; [done|].
  destruct (url_matches_shape (default "" (message msg))) as [Hshape _].
  rewrite Forall_forall in Hshape. destruct (Hshape u Hu') as (_ & Hh & _).
  split; [|exact Hh].
  apply findall_from_spec in Hu' as (pre & s & n & Htext & Hm & ->).
  apply scheme_at_take. apply (search_scheme_suffix pre). by rewrite <- Htext.
Qed.

Lemma false_flag_leaves_regex_only_witness :
  TelegramClient.has_link (plain_message 7 "HTTP://EXAMPLE.COM") = false
  /\ Forall (fun r => source r = "regex"
                      /\ Regex.scheme_at (url r) = false
                      /\ PyStr.lower (PyStr.take 4 (url r)) = "http")
            (extract_links CPython.netloc
               (TelegramClient.yielded "chan"
                  (plain_message 7 "HTTP://EXAMPLE.COM")).1
               (Some (TelegramClient.yielded "chan"
                        (plain_message 7 "HTTP://EXAMPLE.COM")).2)).
Proof.
  assert (H : TelegramClient.has_link (plain_message 7 "HTTP://EXAMPLE.COM")
              = false) by reflexivity.
  split; [exact H|].
  exact (false_flag_leaves_regex_only CPython.netloc "chan"
           (plain_message 7 "HTTP://EXAMPLE.COM") H).
Defined.

(** X13. [extract_links] returns no record exactly when no method produces
    a URL; it never returns more records than URLs produced, and the first
    URL produced always makes the first record. *)
Theorem extraction_nonempty_iff
        (urlparse_netloc : string -> option string)
        (m : message_dict) (raw_message : option Message) :
  (extract_links urlparse_netloc m raw_message = []
   <-> candidates m raw_message = [])
  /\ (length (extract_links urlparse_netloc m raw_message)
      <= length (candidates m raw_message))%nat
  /\ head (extract_links urlparse_netloc m raw_message)
     = record_of urlparse_netloc m <$> head (candidates m raw_message).
Proof.
  assert (Hlen : (length (extract_links urlparse_netloc m raw_message)
                  <= length (candidates m raw_message))%nat).
  { rewrite extract_links_first_seen, length_fmap.
    apply sublist_length, first_seen_sublist. }
  split; [|split; [exact Hlen|]].
  - rewrite extract_links_first_seen.
    destruct (candidates m raw_message) as [|c cs]; simpl; [done|].
    rewrite decide_False by set_solver. by split.
  - rewrite extract_links_first_seen.
    destruct (candidates m raw_message) as [|c cs]; simpl; [done|].
    by rewrite decide_False by set_solver.
Qed.

(** X14. A message with a hyperlink or plain-URL entity, or with a button
    that carries a URL, is yielded with a true [has_link], and the
    extraction returns at least one record for it. *)
Theorem structured_link_sets_flag
        (urlparse_netloc : string -> option string)
        (channel : string) (msg : Message) :
  (exists ent, ent ∈ default [] (entities msg)
               /\ TelegramClient.is_link_entity ent = true)
  \/ (exists markup row btn,
        reply_markup msg = Some markup /\ row ∈ rows markup /\ btn ∈ row
        /\ TelegramClient.button_has_url btn = true) ->
  md_has_link (TelegramClient.yielded channel msg).1 = true
  /\ extract_links urlparse_netloc
       (TelegramClient.yielded channel msg).1
       (Some (TelegramClient.yielded channel msg).2) <> [].
Proof.
  intros Hlink.
  set (text := default "" (message msg)).
  assert (Hflag : TelegramClient.has_link msg = true
                  /\ candidates (TelegramClient.yielded channel msg).1
                                (Some msg) <> []).
  { rewrite yielded_candidates. fold text.
    destruct Hlink as [(ent & Hin & Hent)
                      | (markup & row & btn & Hm & Hrow & Hbtn & Hurl)].
    - destruct (link_entity_candidate text _ ent Hin Hent) as [He Hc].
      split.
      + unfold TelegramClient.has_link.
        destruct (entities msg) as [ents|]; simpl in *; [|done].
        by rewrite He.
      + intros Hnil. apply Hc.
        rewrite app_assoc in Hnil. by apply app_eq_nil in Hnil as [Hnil _].
    - destruct (url_button_candidate (rows markup) row btn Hrow Hbtn Hurl)
        as [Hb Hc].
      split.
      + unfold TelegramClient.has_link. rewrite Hm.
        destruct (match entities msg with
                  | Some ents => existsb TelegramClient.is_link_entity ents
                  | None => false
                  end); simpl; [done|]. by rewrite Hb.
      + rewrite Hm. intros Hnil.
        apply app_eq_nil in Hnil as [_ Hnil].
        apply app_eq_nil in Hnil as [_ Hnil].
        apply app_eq_nil in Hnil as [_ Hnil].
        by apply app_eq_nil in Hnil as [Hnil _]. }
  destruct Hflag as [Hflag Hcands]. split; [exact Hflag|].
  intros Hnil. apply Hcands.
  by apply (extraction_nonempty_iff urlparse_netloc).
Qed.

Lemma structured_link_sets_flag_witness :
  ((exists ent, ent ∈ default [] (entities hyperlinked_message)
                /\ TelegramClient.is_link_entity ent = true)
   \/ (exists markup row btn,
         reply_markup hyperlinked_message = Some markup
         /\ row ∈ rows markup /\ btn ∈ row
         /\ TelegramClient.button_has_url btn = true))
  /\ md_has_link (TelegramClient.yielded "chan" hyperlinked_message).1 = true
  /\ extract_links CPython.netloc
       (TelegramClient.yielded "chan" hyperlinked_message).1
       (Some (TelegramClient.yielded "chan" hyperlinked_message).2) <> [].
Proof.
  assert (H : (exists ent, ent ∈ default [] (entities hyperlinked_message)
                           /\ TelegramClient.is_link_entity ent = true)
              \/ (exists markup row btn,
                    reply_markup hyperlinked_message = Some markup
                    /\ row ∈ rows markup /\ btn ∈ row
                    /\ TelegramClient.button_has_url btn = true)).
  { left. exists (MessageEntityTextUrl 0 4 "https://Example.com/").
    split; [apply list_elem_of_here | reflexivity]. }
  split; [exact H|].
  exact (structured_link_sets_flag CPython.netloc "chan"
           hyperlinked_message H).
Defined.

(** X15. The records of one call have pairwise distinct [url]s, hence
    distinct storage keys. When no link of the message is stored yet,
    [save_links] adds every record [extract_links] returns for it, in
    order, and counts them all. *)
Theorem extracted_links_all_saved
        (urlparse_netloc : string -> option string)
        (c : conn) (m : message_dict) (raw_message : option Message) :
  Forall (fun row => ~ (l_channel_name row = md_channel_name m
                        /\ l_message_id row = md_message_id m)) (links c) ->
  NoDup (url <$> extract_links urlparse_netloc m raw_message)
  /\ links (save_links c (extract_links urlparse_netloc m raw_message)).1
     = (links c
        ++ (link_params <$> extract_links urlparse_netloc m raw_message))%list
  /\ (save_links c (extract_links urlparse_netloc m raw_message)).2
     = Z.of_nat (length (extract_links urlparse_netloc m raw_message)).
Proof.
  intros Hnew.
  set (R := extract_links urlparse_netloc m raw_message).
  assert (Hurls : NoDup (url <$> R)).
  { pose proof (extract_links_NoDup urlparse_netloc m raw_message) as Hnd.
    rewrite list_fmap_compose in Hnd. by apply NoDup_fmap_1 in Hnd. }
  assert (Hkeys : NoDup (link_key <$> (link_params <$> R))).
  { apply (NoDup_fmap_1 snd). rewrite <- !list_fmap_compose.
    assert (Heq : snd ∘ link_key ∘ link_params <$> R = url <$> R)
      by (by apply list_fmap_ext).
    by rewrite Heq. }
  assert (Hfresh : Forall (fun row => link_key row ∉ link_key <$> links c)
                          (link_params <$> R)).
  { apply Forall_forall. intros row Hrow Hin.
    apply list_elem_of_fmap in Hrow as (r & -> & Hr).
    apply list_elem_of_fmap in Hin as (old & Hkey & Hold).
    pose proof (extract_links_from_candidates urlparse_netloc m raw_message)
      as Hfrom.
    rewrite Forall_forall in Hfrom. destruct (Hfrom r Hr) as (cd & _ & ->).
    rewrite Forall_forall in Hnew. apply (Hnew old Hold).
    unfold link_key in Hkey. simpl in Hkey. by injection Hkey as -> -> _. }
  split; [exact Hurls|].
  pose proof (executemany_all_new link_key _ (links c) Hkeys Hfresh) as Hex.
  unfold save_links. cbn [links fst snd]. rewrite Hex.
  by rewrite length_fmap.
Qed.

Lemma extracted_links_all_saved_witness :
  let m := text_message 1
             "Check https://github.com/repo and https://youtube.com/watch?v=123" in
  Forall (fun row => ~ (l_channel_name row = md_channel_name m
                        /\ l_message_id row = md_message_id m))
         (links init_db)
  /\ (save_links init_db (extract_links CPython.netloc m None)).2
     = Z.of_nat (length (extract_links CPython.netloc m None)).
Proof.
  intros m.
  assert (H : Forall (fun row => ~ (l_channel_name row = md_channel_name m
                                    /\ l_message_id row = md_message_id m))
                     (links init_db)) by constructor.
  split; [exact H|].
  exact (proj2 (proj2 (extracted_links_all_saved CPython.netloc init_db m
                         None H))).
Defined.

(** ** [LIKE] *)

Module LikeFacts.
Import Db LikeSpec RegexFacts.

Lemma like_percent_unfold (pat s : string) :
  like (String "%" pat) s
  = like pat s || match s with
                  | EmptyString => false
                  | String _ s' => like (String "%" pat) s'
                  end.
Proof. by destruct s. Qed.

Lemma like_char_unfold (p : ascii) (pat s : string) :
  Ascii.eqb p "%" = false ->
  like (String p pat) s
  = match s with
    | EmptyString => false
    | String d s' =>
        (Ascii.eqb p "_" || Ascii.eqb (like_lower p) (like_lower d))
        && like pat s'
    end.
Proof. intros Hp. simpl. by rewrite Hp. Qed.

Lemma like_empty (s : string) : like EmptyString s = true <-> s = EmptyString.
Proof. by destruct s. Qed.

(** [%] in front: the rest of the pattern matches some suffix. *)
Lemma like_percent (pat s : string) :
  like (String "%" pat) s = true
  <-> exists pre t, s = pre ++ t /\ like pat t = true.
Proof.
  induction s as [|c s IH]; rewrite like_percent_unfold.
  - rewrite orb_false_r. split.
    + intros H. by exists EmptyString, EmptyString.
    + intros (pre & t & Hs & Ht). symmetry in Hs.
      destruct pre; [by rewrite append_nil in Hs; subst|done].
  - rewrite orb_true_iff, IH. split.
    + intros [H | (pre & t & -> & Ht)].
      * by exists EmptyString, (String c s).
      * exists (String c pre), t. by rewrite append_cons.
    + intros (pre & t & Hs & Ht). destruct pre as [|d pre].
      * left. rewrite append_nil in Hs. by subst.
      * right. rewrite append_cons in Hs. injection Hs as -> ->.
        by exists pre, t.
Qed.

(** A pattern in two parts matches a string in two parts. *)
Lemma like_app (a b s : string) :
  like (a ++ b) s = true
  <-> exists s1 s2, s = s1 ++ s2 /\ like a s1 = true /\ like b s2 = true.
Proof.
  revert s. induction a as [|p a IH]; intros s.
  - rewrite append_nil. split.
    + intros H. by exists EmptyString, s.
    + intros (s1 & s2 & -> & H1%like_empty & H2). by subst.
  - rewrite append_cons. destruct (Ascii.eqb p "%") eqn:Hp.
    + apply Ascii.eqb_eq in Hp as ->. rewrite like_percent. split.
      * intros (pre & t & -> & (t1 & t2 & -> & H1 & H2)%IH).
        exists (pre ++ t1), t2. rewrite append_assoc. split; [done|].
        split; [|done]. apply like_percent. by exists pre, t1.
      * intros (s1 & s2 & -> & (pre & t1 & -> & H1)%like_percent & H2).
        exists pre, (t1 ++ s2). rewrite append_assoc. split; [done|].
        apply IH. by exists t1, s2.
    + rewrite (like_char_unfold p (a ++ b) s Hp). split.
      * destruct s as [|d s]; [done|].
        intros [Hd (t1 & t2 & -> & H1 & H2)%IH]%andb_true_iff.
        exists (String d t1), t2. rewrite append_cons. split; [done|].
        split; [|done]. rewrite (like_char_unfold p a _ Hp).
        by rewrite Hd, H1.
      * intros (s1 & s2 & -> & H1 & H2).
        rewrite (like_char_unfold p a s1 Hp) in H1.
        destruct s1 as [|d s1]; [done|].
        apply andb_true_iff in H1 as [Hd H1]. rewrite append_cons, Hd.
        apply IH. by exists s1, s2.
Qed.

Lemma like_percent_all (s : string) : like "%" s = true.
Proof. apply like_percent. exists s, EmptyString. by rewrite append_empty. Qed.

(** Without wildcards a pattern matches the strings equal to it up to the
    case of the letters A-Z. *)
Lemma like_wildcard_free (pat s : string) :
  wildcard_free pat = true ->
  like pat s = true <-> like_fold s = like_fold pat.
Proof.
  revert s. induction pat as [|p pat IH]; intros s Hfree.
  - destruct s; by split.
  - unfold wildcard_free in Hfree. simpl in Hfree.
    apply andb_true_iff in Hfree as [Hp Hfree].
    apply negb_true_iff, orb_false_iff in Hp as [Hp1 Hp2].
    rewrite (like_char_unfold p pat s Hp1), Hp2. simpl.
    destruct s as [|d s]; [by split|]. simpl.
    rewrite andb_true_iff, Ascii.eqb_eq, (IH s Hfree). split.
    + by intros [-> ->].
    + by intros [= -> ->].
Qed.

End LikeFacts.

Import LikeSpec LikeFacts.

(** X16. The keyword and search filters are substring searches of a
    [LIKE] pattern: the row passes exactly when some piece of the text
    matches the keyword as a pattern. For a keyword without [%] and [_]
    that means the text contains the keyword up to the case of the letters
    A-Z. The wildcards of a keyword are not escaped: the keyword [%] passes
    every text and the keyword [_] every non-empty text. *)
Theorem like_filter_is_substring_search (kw s : string) :
  (like ("%" ++ kw ++ "%") s = true
   <-> exists pre mid post, s = pre ++ mid ++ post /\ like kw mid = true)
  /\ (wildcard_free kw = true ->
      (like ("%" ++ kw ++ "%") s = true
       <-> exists pre mid post,
             s = pre ++ mid ++ post /\ like_fold mid = like_fold kw))
  /\ like ("%" ++ "%" ++ "%") s = true
  /\ like ("%" ++ "_" ++ "%") s = PyStr.truthy s.
Proof.
  assert (Hgen : forall k,
            like ("%" ++ k ++ "%") s = true
            <-> exists pre mid post,
                  s = pre ++ mid ++ post /\ like k mid = true).
  { intros k. rewrite append_cons, append_nil, like_percent. split.
    - intros (pre & t & -> & (mid & post & -> & Hmid & _)%like_app).
      by exists pre, mid, post.
    - intros (pre & mid & post & -> & Hmid).
      exists pre, (mid ++ post). split; [done|]. apply like_app.
      exists mid, post. split; [done|]. split; [done|].
      apply like_percent_all. }
  split; [apply Hgen|]. split; [|split].
  - intros Hfree. rewrite Hgen. split.
    + intros (pre & mid & post & -> & Hmid).
      exists pre, mid, post. split; [done|].
      by apply (like_wildcard_free kw mid Hfree).
    + intros (pre & mid & post & -> & Hmid).
      exists pre, mid, post. split; [done|].
      by apply (like_wildcard_free kw mid Hfree).
  - apply Hgen. exists EmptyString, EmptyString, s. split; [done|].
    apply like_percent_all.
  - destruct s as [|c s]; [done|]. simpl PyStr.truthy.
    apply Hgen. exists EmptyString, (String c EmptyString), s. by split.
Qed.

(** ** The HTML import loop *)

Module ImportFacts.
Import LinkExtractor DbFacts DbMoreFacts HtmlImport.

Section ImportLoop.
Variable urlparse_netloc : string -> option string.
Variable channel_name_ : string.

Lemma save_one_fold (lrs : list LinkRecord) (acc : Db.conn * totals) :
  let out := foldl save_one acc lrs in
  Db.links out.1
  = (Db.executemany Db.link_key (Db.links acc.1) (Db.link_params <$> lrs)).1
  /\ Db.messages out.1 = Db.messages acc.1
  /\ Db.channels out.1 = Db.channels acc.1
  /\ total_msgs out.2 = total_msgs acc.2
  /\ total_links out.2 = (total_links acc.2 + length lrs)%nat.
Proof.
  revert acc. induction lrs as [|lr lrs IH]; intros acc.
  { cbn. repeat split; lia. }
  cbn [foldl]. destruct (IH (save_one acc lr)) as (Hl & Hm & Hc & Ht & Hn).
  split; [|split; [|split; [|split]]].
  - rewrite Hl. change (Db.link_params <$> lr :: lrs)
      with ([Db.link_params lr] ++ (Db.link_params <$> lrs))%list.
    by rewrite executemany_app.
  - by rewrite Hm.
  - by rewrite Hc.
  - by rewrite Ht.
  - rewrite Hn. cbn. lia.
Qed.

Lemma import_message_spec (msg : HTMLMessage) (acc : Db.conn * totals) :
  let out := import_message urlparse_netloc channel_name_ acc msg in
  Db.messages out.1
  = (Db.executemany Db.message_key (Db.messages acc.1)
       [Db.message_params (msg_dict_of channel_name_ msg)]).1
  /\ Db.links out.1
     = (Db.executemany Db.link_key (Db.links acc.1)
          (Db.link_params
           <$> records_of urlparse_netloc channel_name_ msg)).1
  /\ Db.channels out.1 = Db.channels acc.1
  /\ total_msgs out.2 = (total_msgs acc.2 + 1)%nat
  /\ total_links out.2
     = (total_links acc.2
        + length (records_of urlparse_netloc channel_name_ msg))%nat.
Proof.
  unfold import_message, records_of.
  set (acc1 := ((Db.save_messages acc.1 [msg_dict_of channel_name_ msg]).1,
                {| total_msgs := total_msgs acc.2 + 1;
                   total_links := total_links acc.2 |})).
  set (bs := button_record urlparse_netloc channel_name_ msg <$> h_buttons msg).
  set (ts := text_link_record urlparse_netloc channel_name_ msg
             <$> h_text_links msg).
  destruct (save_one_fold bs acc1) as (Hl1 & Hm1 & Hc1 & Ht1 & Hn1).
  destruct (save_one_fold ts (foldl save_one acc1 bs))
    as (Hl2 & Hm2 & Hc2 & Ht2 & Hn2).
  split; [|split; [|split; [|split]]].
  - by rewrite Hm2, Hm1.
  - by rewrite Hl2, Hl1, fmap_app, executemany_app.
  - by rewrite Hc2, Hc1.
  - by rewrite Ht2, Ht1.
  - rewrite Hn2, Hn1, length_app. cbn. lia.
Qed.

Lemma import_loop_spec (parsed : list HTMLMessage) (acc : Db.conn * totals) :
  let out := foldl (import_message urlparse_netloc channel_name_) acc parsed in
  Db.messages out.1
  = (Db.executemany Db.message_key (Db.messages acc.1)
       (Db.message_params <$> (msg_dict_of channel_name_ <$> parsed))).1
  /\ Db.links out.1
     = (Db.executemany Db.link_key (Db.links acc.1)
          (Db.link_params
           <$> concat (records_of urlparse_netloc channel_name_
                       <$> parsed))).1
  /\ Db.channels out.1 = Db.channels acc.1
  /\ total_msgs out.2 = (total_msgs acc.2 + length parsed)%nat
  /\ total_links out.2
     = (total_links acc.2
        + length (concat (records_of urlparse_netloc channel_name_
                          <$> parsed)))%nat.
Proof.
  revert acc. induction parsed as [|msg parsed IH]; intros acc.
  { cbn. repeat split; lia. }
  cbn [foldl].
  destruct (IH (import_message urlparse_netloc channel_name_ acc msg))
    as (Hm & Hl & Hc & Ht & Hn).
  destruct (import_message_spec msg acc) as (Hm1 & Hl1 & Hc1 & Ht1 & Hn1).
  split; [|split; [|split; [|split]]].
  - rewrite Hm, Hm1.
    change (Db.message_params <$> (msg_dict_of channel_name_ <$> msg :: parsed))
      with ([Db.message_params (msg_dict_of channel_name_ msg)]
            ++ (Db.message_params <$> (msg_dict_of channel_name_ <$> parsed)))%list.
    by rewrite executemany_app.
  - rewrite Hl, Hl1.
    change (concat (records_of urlparse_netloc channel_name_ <$> msg :: parsed))
      with (records_of urlparse_netloc channel_name_ msg
            ++ concat (records_of urlparse_netloc channel_name_ <$> parsed))%list.
    by rewrite fmap_app, executemany_app.
  - by rewrite Hc, Hc1.
  - rewrite Ht, Ht1. cbn. lia.
  - rewrite Hn, Hn1.
    change (concat (records_of urlparse_netloc channel_name_ <$> msg :: parsed))
      with (records_of urlparse_netloc channel_name_ msg
            ++ concat (records_of urlparse_netloc channel_name_ <$> parsed))%list.
    rewrite length_app. lia.
Qed.

End ImportLoop.

End ImportFacts.

Import HtmlImport ImportFacts.

(** X17. The HTML import, which saves message after message and link
    after link, leaves the database as one [save_messages] of all the
    dicts followed by one [save_links] of all the button and text links
    would. The totals it reports are the numbers of messages and links it
    handed over, whether stored or ignored as duplicates: the rows added
    to the two tables are at most that many. *)
Theorem html_import_totals
        (urlparse_netloc : string -> option string) (channel_name_ : string)
        (c : conn) (parsed : list HTMLMessage) :
  let out := import_html urlparse_netloc channel_name_ c parsed in
  let dicts := msg_dict_of channel_name_ <$> parsed in
  let records :=
    concat (records_of urlparse_netloc channel_name_ <$> parsed) in
  out.1 = (save_links (save_messages c dicts).1 records).1
  /\ total_msgs out.2 = length parsed
  /\ total_links out.2 = length records
  /\ (length (messages out.1) <= length (messages c) + total_msgs out.2)%nat
  /\ (length (Db.links out.1) <= length (Db.links c) + total_links out.2)%nat.
Proof.
  intros out dicts records.
  destruct (import_loop_spec urlparse_netloc channel_name_ parsed
              (c, {| total_msgs := 0; total_links := 0 |}))
    as (Hm & Hl & Hc & Ht & Hn).
  fold (import_html urlparse_netloc channel_name_ c parsed) in Hm, Hl, Hc, Ht, Hn.
  fold out in Hm, Hl, Hc, Ht, Hn. fold dicts in Hm. fold records in Hl, Hn.
  cbn [fst snd total_msgs total_links] in Hm, Hl, Hc, Ht, Hn.
  split; [by apply conn_ext|]. split; [exact Ht|]. split; [exact Hn|].
  split.
  - rewrite Hm, Ht.
    destruct (executemany_added message_key (message_params <$> dicts)
                (messages c)) as (added & -> & Hsub & _).
    apply sublist_length in Hsub.
    rewrite length_app. rewrite !length_fmap in Hsub. unfold dicts in Hsub.
    rewrite length_fmap in Hsub. lia.
  - rewrite Hl, Hn.
    destruct (executemany_added link_key (link_params <$> records)
                (Db.links c)) as (added & -> & Hsub & _).
    apply sublist_length in Hsub.
    rewrite length_app. rewrite length_fmap in Hsub. lia.
Qed.

(** ** URLs found by the pattern, seen by [urlsplit] *)

Module UrlFacts.
Import PyStr Regex CPython RegexSpec RegexFacts.

(** Facts on single characters, by enumeration. *)
Lemma lower_alpha (c : ascii) :
  is_ascii_alpha (lower_char c) = true -> is_ascii_alpha c = true.
Proof. destruct c as [[] [] [] [] [] [] [] []]; vm_compute; congruence. Qed.

Lemma alpha_facts (c : ascii) :
  is_ascii_alpha c = true ->
  is_c0_or_space c = false /\ scheme_char c = true.
Proof. destruct c as [[] [] [] [] [] [] [] []]; vm_compute; by split. Qed.

Lemma scheme_char_facts (c : ascii) :
  scheme_char c = true ->
  is_tab_cr_lf c = false /\ Ascii.eqb ":" c = false.
Proof. destruct c as [[] [] [] [] [] [] [] []]; vm_compute; by split. Qed.

Lemma url_char_facts (c : ascii) :
  url_char c = true ->
  is_tab_cr_lf c = false /\ Ascii.eqb c "[" = false
  /\ Ascii.eqb c "]" = false.
Proof. destruct c as [[] [] [] [] [] [] [] []]; vm_compute; by repeat split. Qed.

Lemma all_chars_lower (p : ascii -> bool) (s : string) :
  all_chars p (lower s) = all_chars (fun c => p (lower_char c)) s.
Proof. induction s as [|c s IH]; simpl; [done|]. by rewrite IH. Qed.

Lemma remove_chars_id (p : ascii -> bool) (s : string) :
  all_chars (fun c => negb (p c)) s = true -> remove_chars p s = s.
Proof.
  induction s as [|c s IH]; simpl; [done|].
  intros [Hc Hs]%andb_true_iff. apply negb_true_iff in Hc.
  by rewrite Hc, IH.
Qed.

Lemma find_char_app (c : ascii) (a b : string) :
  all_chars (fun d => negb (Ascii.eqb c d)) a = true ->
  find_char c (a ++ String c b) = Some (String.length a).
Proof.
  induction a as [|d a IH]; intros Ha.
  - rewrite append_nil. simpl. by rewrite Ascii.eqb_refl.
  - rewrite append_cons. simpl in *.
    apply andb_true_iff in Ha as [Hd Ha]. apply negb_true_iff in Hd.
    by rewrite Hd, IH.
Qed.

Lemma drop_app_length (a b : string) (n : nat) :
  drop (String.length a + n) (a ++ b) = drop n b.
Proof.
  induction a as [|d a IH]; [done|]. rewrite append_cons. simpl. apply IH.
Qed.

Lemma mem_take_false (c : ascii) (p : ascii -> bool) (s : string) (n : nat) :
  (forall d, p d = true -> Ascii.eqb c d = false) ->
  all_chars p s = true -> mem c (take n s) = false.
Proof.
  intros Hp. revert n. induction s as [|d s IH]; intros [|n] Hs; simpl;
    try done.
  simpl in Hs. apply andb_true_iff in Hs as [Hd Hs].
  by rewrite (Hp d Hd), IH.
Qed.

(** A match is a scheme, [://] and a non-empty run of URL characters. *)
Lemma strip_prefix_ci_split (p s r : string) :
  strip_prefix_ci p s = Some r ->
  exists a, s = a ++ r /\ String.length a = String.length p /\ lower a = p.
Proof.
  revert s. induction p as [|x p IH]; intros s Hs; simpl in *.
  { injection Hs as <-. by exists EmptyString. }
  destruct s as [|b s]; [done|].
  destruct (ieq b x) eqn:Hb; [|done].
  destruct (IH s Hs) as (a & -> & Hlen & Hlow).
  exists (String b a). split; [done|]. simpl. split; [by rewrite Hlen|].
  unfold ieq in Hb. apply Ascii.eqb_eq in Hb. by rewrite Hb, Hlow.
Qed.

Lemma match_tail_split (r : string) (k : nat) :
  match_tail r = Some k ->
  exists tail, take k r = "://" ++ tail /\ tail <> EmptyString
               /\ all_chars url_char tail = true.
Proof.
  unfold match_tail.
  destruct (strip_prefix "://" r) as [rest|] eqn:Hp; [|done].
  apply strip_prefix_spec in Hp as ->.
  destruct (span_len url_char rest) as [|j] eqn:Hj; [done|].
  intros [= <-]. exists (take (S j) rest).
  split; [apply (take_app_length "://" rest (S j))|]. split.
  - destruct rest; [done|]. simpl. done.
  - apply span_len_all. lia.
Qed.

Lemma match_at_split (s : string) (n : nat) :
  match_at s = Some n ->
  exists sch tail,
    take n s = sch ++ "://" ++ tail
    /\ (lower sch = "http" \/ lower sch = "https")
    /\ tail <> EmptyString /\ all_chars url_char tail = true.
Proof.
  unfold match_at.
  destruct (strip_prefix_ci "http" s) as [r|] eqn:Hh; [|done].
  destruct (strip_prefix_ci_split "http" s r Hh) as (a & -> & Hla & Hlow).
  simpl in Hla.
  assert (Hplain : forall k, match_tail r = Some k ->
            exists sch tail,
              take (4 + k) (a ++ r) = sch ++ "://" ++ tail
              /\ (lower sch = "http" \/ lower sch = "https")
              /\ tail <> EmptyString /\ all_chars url_char tail = true).
  { intros k Hk. destruct (match_tail_split r k Hk) as (tail & Ht & Hne & Hall).
    exists a, tail. rewrite <- Hla, take_app_length, Ht. by repeat split; [left|..]. }
  destruct (strip_prefix_ci "s" r) as [r'|] eqn:Hs'.
  - destruct (strip_prefix_ci_split "s" r r' Hs') as (b & Hr & Hlb & Hlowb).
    simpl in Hlb.
    destruct (match_tail r') as [k|] eqn:Hk.
    + intros [= <-]. subst r.
      destruct (match_tail_split r' k Hk) as (tail & Ht & Hne & Hall).
      exists (a ++ b), tail. split; [|split; [|by split]].
      * match goal with
        | |- take ?m ?t = _ =>
            replace (take m t) with (a ++ (b ++ take k r'))
        end.
        -- by rewrite Ht, append_assoc.
        -- rewrite <- (take_app_length b r' k), <- take_app_length.
           by rewrite Hla, Hlb.
      * right. clear -Hlow Hlowb.
        assert (Happ : forall x y, lower (x ++ y) = lower x ++ lower y).
        { intros x y. induction x as [|c x IH]; [done|].
          rewrite append_cons. simpl. by rewrite IH. }
        by rewrite Happ, Hlow, Hlowb.
    + destruct (match_tail r) as [k|] eqn:Hk'; [|done].
      intros [= <-]. by apply Hplain.
  - destruct (match_tail r) as [k|] eqn:Hk'; [|done].
    intros [= <-]. by apply Hplain.
Qed.

(** [urlsplit] on a scheme, [://] and URL characters. *)
Lemma netloc_of_url (bracket_ok : string -> bool) (sch tail : string) :
  (lower sch = "http" \/ lower sch = "https") ->
  all_chars url_char tail = true ->
  urlsplit_netloc bracket_ok (sch ++ "://" ++ tail)
  = Some (take (span_len (fun c => negb (is_delim c)) tail) tail).
Proof.
  intros Hsch Htail.
  assert (Halpha : all_chars is_ascii_alpha sch = true).
  { apply (all_chars_impl (fun c => is_ascii_alpha (lower_char c)));
      [apply lower_alpha|].
    rewrite <- all_chars_lower. by destruct Hsch as [-> | ->]. }
  assert (Hscheme : all_chars scheme_char sch = true).
  { apply (all_chars_impl is_ascii_alpha); [|done].
    intros c Hc. by apply alpha_facts. }
  destruct sch as [|c sch]; [by destruct Hsch|].
  pose proof Halpha as Hc. simpl in Hc. apply andb_true_iff in Hc as [Hc _].
  destruct (alpha_facts c Hc) as [Hc0 _].
  set (u := String c sch ++ "://" ++ tail).
  assert (Hstrip : lstrip_c0 u = u).
  { unfold lstrip_c0, u. rewrite append_cons. simpl. by rewrite Hc0. }
  assert (Hclean : remove_chars is_tab_cr_lf u = u).
  { apply remove_chars_id. unfold u. rewrite !all_chars_app.
    rewrite (all_chars_impl scheme_char _ (String c sch)); [|  |done].
    - simpl. apply (all_chars_impl url_char); [|done].
      intros d Hd. by rewrite (proj1 (url_char_facts d Hd)).
    - intros d Hd. by rewrite (proj1 (scheme_char_facts d Hd)). }
  assert (Hfind : find_char ":" u = Some (String.length (String c sch))).
  { unfold u. apply (find_char_app ":" (String c sch) ("//" ++ tail)).
    apply (all_chars_impl scheme_char); [|done].
    intros d Hd. by rewrite (proj2 (scheme_char_facts d Hd)). }
  assert (Hdrop : drop_scheme u = "//" ++ tail).
  { assert (Htake : take (S (String.length sch)) u = String c sch).
    { unfold u.
      replace (S (String.length sch))
        with (String.length (String c sch) + 0)%nat by (simpl; lia).
      by rewrite take_app_length, append_empty. }
    assert (Hrest : drop (S (S (String.length sch))) u = "//" ++ tail).
    { unfold u.
      replace (S (S (String.length sch)))
        with (String.length (String c sch) + 1)%nat by (simpl; lia).
      by rewrite drop_app_length. }
    rewrite <- Hrest. unfold drop_scheme. rewrite Hfind.
    change (String.length (String c sch)) with (S (String.length sch)).
    cbv beta iota. rewrite Htake, Hscheme.
    unfold u. rewrite append_cons. cbv beta iota. by rewrite Hc. }
  unfold urlsplit_netloc. rewrite Hstrip, Hclean, Hdrop.
  change (startswith "//" ("//" ++ tail)) with true. cbn iota.
  change (splitnetloc ("//" ++ tail))
    with (take (span_len (fun c => negb (is_delim c)) tail) tail).
  unfold contains_char.
  rewrite (mem_take_false "[" url_char tail), (mem_take_false "]" url_char tail);
    [done | | done | | done].
  - intros d Hd. destruct (url_char_facts d Hd) as (_ & _ & H).
    by rewrite Ascii.eqb_sym.
  - intros d Hd. destruct (url_char_facts d Hd) as (_ & H & _).
    by rewrite Ascii.eqb_sym.
Qed.

End UrlFacts.

Import UrlFacts.

(** X18. In a text whose characters are all below U+0100, a URL found
    by the pattern is a scheme [http] or [https], in any case, then [://]
    and a non-empty rest. On such a URL [urlsplit] never raises, whatever
    validation of bracketed hosts the interpreter has: the netloc is the
    rest up to its first [/], [?] or [#], and [_extract_domain] returns it
    with every [www.] removed, or the empty string when it is empty. The
    restriction on the text matters: beyond U+0100 the pattern takes the
    long s (U+017F) for the letter of the scheme, and [urlsplit] raises on
    a netloc with a character whose NFKC form holds a slash (such as
    U+2100), so that neither part holds for arbitrary Unicode text. *)
Theorem found_urls_always_parse (text : string) :
  Forall (fun u =>
            exists sch tail,
              u = sch ++ "://" ++ tail
              /\ (PyStr.lower sch = "http" \/ PyStr.lower sch = "https")
              /\ tail <> EmptyString
              /\ forall bracket_ok,
                   let host :=
                     PyStr.take
                       (PyStr.span_len (fun c => negb (CPython.is_delim c)) tail)
                       tail in
                   CPython.urlsplit_netloc bracket_ok u = Some host
                   /\ _extract_domain (CPython.urlsplit_netloc bracket_ok) u
                      = if PyStr.truthy host
                        then PyStr.replace "www." "" host else "")
         (Regex.URL_REGEX_findall text).
Proof.
  apply Forall_forall. intros u Hu.
  apply findall_from_spec in Hu as (pre & s & n & _ & Hm & ->).
  destruct (match_at_split s n Hm) as (sch & tail & -> & Hsch & Hne & Hall).
  exists sch, tail. split; [done|]. split; [done|]. split; [done|].
  intros bracket_ok host.
  pose proof (netloc_of_url bracket_ok sch tail Hsch Hall) as Hnet.
  fold host in Hnet. split; [exact Hnet|].
  unfold _extract_domain. by rewrite Hnet.
Qed.

(** ** The deduplication key *)

Module KeyFacts.
Import PyStr LinkExtractor ExtractSpec RegexFacts.

Lemma lower_char_idem (c : ascii) : lower_char (lower_char c) = lower_char c.
Proof. destruct c as [[] [] [] [] [] [] [] []]; by vm_compute. Qed.

Lemma lower_char_slash (c : ascii) : mem (lower_char c) "/" = mem c "/".
Proof. destruct c as [[] [] [] [] [] [] [] []]; by vm_compute. Qed.

Lemma lower_idem (s : string) : lower (lower s) = lower s.
Proof.
  induction s as [|c s IH]; simpl; [done|]. by rewrite lower_char_idem, IH.
Qed.

Lemma lstrip_lower (s : string) : lstrip "/" (lower s) = lower (lstrip "/" s).
Proof.
  induction s as [|c s IH]; [done|].
  change (lower (String c s)) with (String (lower_char c) (lower s)).
  change (lstrip "/" (String (lower_char c) (lower s)))
    with (if mem (lower_char c) "/" then lstrip "/" (lower s)
          else String (lower_char c) (lower s)).
  change (lstrip "/" (String c s))
    with (if mem c "/" then lstrip "/" s else String c s).
  rewrite lower_char_slash. by destruct (mem c "/").
Qed.

Lemma rstrip_cons (chars : string) (c : ascii) (s : string) :
  rstrip chars (String c s)
  = match rstrip chars s with
    | EmptyString => if mem c chars then EmptyString else String c EmptyString
    | kept => String c kept
    end.
Proof. done. Qed.

Lemma rstrip_lower (s : string) : rstrip "/" (lower s) = lower (rstrip "/" s).
Proof.
  induction s as [|c s IH]; [done|].
  change (lower (String c s)) with (String (lower_char c) (lower s)).
  rewrite !rstrip_cons, IH, lower_char_slash.
  destruct (rstrip "/" s); [by destruct (mem c "/") | done].
Qed.

Lemma strip_lower (s : string) : strip "/" (lower s) = lower (strip "/" s).
Proof. unfold strip. by rewrite rstrip_lower, lstrip_lower. Qed.

Lemma rstrip_app_slash (s : string) : rstrip "/" (s ++ "/") = rstrip "/" s.
Proof.
  induction s as [|c s IH]; [done|].
  by rewrite append_cons, !rstrip_cons, IH.
Qed.

Lemma strip_cons_slash (s : string) :
  strip "/" (String "/" s) = strip "/" s.
Proof.
  unfold strip. rewrite rstrip_cons.
  by destruct (rstrip "/" s).
Qed.

Lemma rstrip_idem (s : string) : rstrip "/" (rstrip "/" s) = rstrip "/" s.
Proof.
  induction s as [|c s IH]; [done|]. rewrite rstrip_cons.
  destruct (rstrip "/" s) as [|d kept] eqn:Hk.
  - destruct (mem c "/") eqn:Hc; [done|]. rewrite rstrip_cons. simpl rstrip.
    by rewrite Hc.
  - rewrite rstrip_cons, IH. done.
Qed.

Lemma lstrip_idem (s : string) : lstrip "/" (lstrip "/" s) = lstrip "/" s.
Proof.
  induction s as [|c s IH]; [done|].
  change (lstrip "/" (String c s))
    with (if mem c "/" then lstrip "/" s else String c s).
  destruct (mem c "/") eqn:Hc; [done|].
  change (lstrip "/" (String c s))
    with (if mem c "/" then lstrip "/" s else String c s).
  by rewrite Hc.
Qed.

(** Stripping on the left keeps a string stripped on the right. *)
Lemma rstrip_lstrip (s : string) :
  rstrip "/" s = s -> rstrip "/" (lstrip "/" s) = lstrip "/" s.
Proof.
  induction s as [|c s IH]; [done|]. intros Hs.
  change (lstrip "/" (String c s))
    with (if mem c "/" then lstrip "/" s else String c s).
  destruct (mem c "/") eqn:Hc; [|done].
  rewrite rstrip_cons in Hs.
  destruct (rstrip "/" s) as [|d kept] eqn:Hk.
  - rewrite Hc in Hs. discriminate Hs.
  - injection Hs as Hs. by apply IH.
Qed.

Lemma strip_idem (s : string) : strip "/" (strip "/" s) = strip "/" s.
Proof.
  unfold strip.
  rewrite (rstrip_lstrip (rstrip "/" s)) by apply rstrip_idem.
  apply lstrip_idem.
Qed.

End KeyFacts.

Import KeyFacts.

(** X19. The deduplication key of a URL does not change when the URL is
    lower-cased, when a slash is put in front of it or behind it, or when
    the URL is replaced by the normal form the key already holds: within
    one message such variants are one link. *)
Theorem dedup_key_invariances (message_id_ : Z) (u : string) :
  _dedup_key message_id_ (PyStr.lower u) = _dedup_key message_id_ u
  /\ _dedup_key message_id_ (u ++ "/") = _dedup_key message_id_ u
  /\ _dedup_key message_id_ ("/" ++ u) = _dedup_key message_id_ u
  /\ _dedup_key message_id_ (_dedup_key message_id_ u).2
     = _dedup_key message_id_ u.
Proof.
  unfold _dedup_key. cbn [snd].
  split; [|split; [|split]]; f_equal.
  - by rewrite strip_lower, lower_idem.
  - unfold PyStr.strip. by rewrite rstrip_app_slash.
  - by rewrite append_cons, append_nil, strip_cons_slash.
  - by rewrite strip_lower, strip_idem, lower_idem.
Qed.

(** ** Channel identifiers *)

Module IdentifierFacts.
Import PyStr Identifier IdentifierSpec RegexFacts.

(** *** Stripping *)

Lemma lstrip_by_cons (p : ascii -> bool) (c : ascii) (s : string) :
  lstrip_by p (String c s) = if p c then lstrip_by p s else String c s.
Proof. done. Qed.

Lemma rstrip_by_cons (p : ascii -> bool) (c : ascii) (s : string) :
  rstrip_by p (String c s)
  = match rstrip_by p s with
    | EmptyString => if p c then EmptyString else String c EmptyString
    | kept => String c kept
    end.
Proof. done. Qed.

Lemma lstrip_by_idem (p : ascii -> bool) (s : string) :
  lstrip_by p (lstrip_by p s) = lstrip_by p s.
Proof.
  induction s as [|c s IH]; [done|]. rewrite lstrip_by_cons.
  destruct (p c) eqn:Hc; [done|]. by rewrite lstrip_by_cons, Hc.
Qed.

Lemma rstrip_by_idem (p : ascii -> bool) (s : string) :
  rstrip_by p (rstrip_by p s) = rstrip_by p s.
Proof.
  induction s as [|c s IH]; [done|]. rewrite rstrip_by_cons.
  destruct (rstrip_by p s) as [|d kept] eqn:Hk.
  - destruct (p c) eqn:Hc; [done|]. rewrite rstrip_by_cons. cbn [rstrip_by].
    by rewrite Hc.
  - by rewrite rstrip_by_cons, IH.
Qed.

Lemma rstrip_by_lstrip_by (p : ascii -> bool) (s : string) :
  rstrip_by p s = s -> rstrip_by p (lstrip_by p s) = lstrip_by p s.
Proof.
  induction s as [|c s IH]; [done|]. intros Hs. rewrite lstrip_by_cons.
  destruct (p c) eqn:Hc; [|done].
  rewrite rstrip_by_cons in Hs.
  destruct (rstrip_by p s) as [|d kept] eqn:Hk.
  - rewrite Hc in Hs. discriminate Hs.
  - injection Hs as Hs. by apply IH.
Qed.

Lemma strip_by_idem (p : ascii -> bool) (s : string) :
  strip_by p (strip_by p s) = strip_by p s.
Proof.
  unfold strip_by.
  rewrite (rstrip_by_lstrip_by p (rstrip_by p s)) by apply rstrip_by_idem.
  apply lstrip_by_idem.
Qed.

(** A string without a character to strip is left as it is. *)
Lemma strip_by_none (p : ascii -> bool) (s : string) :
  all_chars (fun c => negb (p c)) s = true -> strip_by p s = s.
Proof.
  intros Hs. unfold strip_by.
  assert (Hr : rstrip_by p s = s).
  { induction s as [|c s IH]; [done|]. simpl in Hs.
    apply andb_true_iff in Hs as [Hc Hs]. apply negb_true_iff in Hc.
    rewrite rstrip_by_cons, (IH Hs), Hc. by destruct s. }
  rewrite Hr. destruct s as [|c s]; [done|]. simpl in Hs.
  apply andb_true_iff in Hs as [Hc _]. apply negb_true_iff in Hc.
  by rewrite lstrip_by_cons, Hc.
Qed.

(** *** Strings of minus signs and digits *)

Lemma sign_or_digit_facts (c : ascii) :
  sign_or_digit c = true ->
  is_space c = false /\ int_space c = false /\ Ascii.eqb "w" c = false
  /\ Ascii.eqb c "+" = false /\ Ascii.eqb c "_" = false
  /\ (is_digit c = true -> Ascii.eqb c "-" = false).
Proof. destruct c as [[] [] [] [] [] [] [] []]; by vm_compute. Qed.

Lemma is_digit_facts (c : ascii) :
  is_digit c = true -> sign_or_digit c = true /\ isdigit_char c = true.
Proof. destruct c as [[] [] [] [] [] [] [] []]; by vm_compute. Qed.

Lemma isdigit_char_facts (c : ascii) :
  isdigit_char c = true ->
  sign_or_digit c = true /\ Ascii.eqb c "-" = false
  /\ Ascii.eqb c "_" = false /\ mem c "-" = false.
Proof. destruct c as [[] [] [] [] [] [] [] []]; by vm_compute. Qed.

Lemma mem_minus (c : ascii) : mem c "-" = Ascii.eqb c "-".
Proof. simpl. by destruct (Ascii.eqb c "-"). Qed.

(** A string that passes the digit test holds only minus signs and
    digit characters. *)
Lemma isdigit_signed (s : string) :
  isdigit (lstrip "-" s) = true -> all_chars sign_or_digit s = true.
Proof.
  induction s as [|c s IH]; [done|].
  change (lstrip "-" (String c s))
    with (if mem c "-" then lstrip "-" s else String c s).
  rewrite mem_minus. destruct (Ascii.eqb c "-") eqn:Hc.
  - intros H. simpl. unfold sign_or_digit at 1. rewrite Hc. by apply IH.
  - unfold isdigit. intros [_ H]%andb_true_iff.
    apply (all_chars_impl isdigit_char); [|done].
    intros d Hd. by apply isdigit_char_facts.
Qed.

Lemma mem_all_chars (q : ascii -> bool) (c : ascii) (s : string) :
  all_chars q s = true -> mem c s = true -> q c = true.
Proof.
  induction s as [|d s IH]; [done|]. simpl.
  intros [Hd Hs]%andb_true_iff.
  destruct (Ascii.eqb c d) eqn:Hcd; [|by apply IH].
  apply Ascii.eqb_eq in Hcd. by subst d.
Qed.

Lemma contains_mem (a : ascii) (sub s : string) :
  contains (String a sub) s = true -> mem a s = true.
Proof.
  induction s as [|b s IH]; [done|].
  cbn [contains mem]. unfold startswith. cbn [strip_prefix].
  destruct (Ascii.eqb a b); [done|]. cbn [orb]. apply IH.
Qed.

Lemma signed_not_web (s : string) :
  all_chars sign_or_digit s = true -> contains "web.telegram.org" s = false.
Proof.
  intros Hs. destruct (contains "web.telegram.org" s) eqn:Hc; [|done].
  apply contains_mem in Hc.
  pose proof (mem_all_chars _ _ _ Hs Hc) as Hw. by vm_compute in Hw.
Qed.

Lemma signed_strip_ws (s : string) :
  all_chars sign_or_digit s = true -> strip_ws s = s.
Proof.
  intros Hs. apply strip_by_none.
  apply (all_chars_impl sign_or_digit); [|done].
  intros c Hc. by rewrite (proj1 (sign_or_digit_facts c Hc)).
Qed.

Lemma signed_strip_int (s : string) :
  all_chars sign_or_digit s = true -> strip_by int_space s = s.
Proof.
  intros Hs. apply strip_by_none.
  apply (all_chars_impl sign_or_digit); [|done].
  intros c Hc. by rewrite (proj1 (proj2 (sign_or_digit_facts c Hc))).
Qed.

(** *** Decimal literals *)

Lemma digit_groups_digits (s : string) :
  all_chars is_digit s = true -> digit_groups true s = Some s.
Proof.
  induction s as [|c s IH]; [done|]. simpl.
  intros [Hc Hs]%andb_true_iff. by rewrite Hc, (IH Hs).
Qed.

Lemma digit_groups_plain (c : ascii) (s : string) :
  all_chars is_digit (String c s) = true ->
  digit_groups false (String c s) = Some (String c s).
Proof.
  simpl. intros [Hc Hs]%andb_true_iff.
  by rewrite Hc, (digit_groups_digits s Hs).
Qed.

(** A superscript digit spoils the literal. *)
Lemma digit_groups_superscript (b : bool) (s : string) :
  all_chars isdigit_char s = true -> all_chars is_digit s = false ->
  digit_groups b s = None.
Proof.
  revert b. induction s as [|c s IH]; intros b; [done|]. simpl.
  intros [Hc Hs]%andb_true_iff Hd.
  destruct (is_digit c) eqn:Hdc.
  - by rewrite (IH true Hs Hd).
  - by rewrite (proj1 (proj2 (proj2 (isdigit_char_facts c Hc)))).
Qed.

Lemma uint_of_digits (s : string) :
  all_chars is_digit s = true ->
  exists d, NilEmpty.uint_of_string s = Some d.
Proof.
  induction s as [|c s IH]; [by exists Decimal.Nil|]. simpl.
  intros [Hc Hs]%andb_true_iff. destruct (IH Hs) as [d ->].
  revert Hc. destruct c as [[] [] [] [] [] [] [] []]; vm_compute;
    try discriminate; intros _; eauto.
Qed.

Lemma length_string_of_uint (d : Decimal.uint) :
  String.length (NilEmpty.string_of_uint d) = Decimal.nb_digits d.
Proof. induction d; simpl; by rewrite ?IHd. Qed.

Lemma digits_string_of_uint (d : Decimal.uint) :
  all_chars is_digit (NilEmpty.string_of_uint d) = true.
Proof. induction d; simpl; [done|by rewrite IHd ..]. Qed.

Section Limit.
Variable max_str_digits : option nat.

Lemma fits_le (n m : nat) :
  (n <= m)%nat -> fits max_str_digits m = true -> fits max_str_digits n = true.
Proof.
  unfold fits. destruct max_str_digits as [k|]; [|done].
  intros Hnm Hm%Nat.leb_le. apply Nat.leb_le. lia.
Qed.

(** [int] of a plain literal: an optional minus sign and digits. *)
Lemma py_int_plain (c : ascii) (s : string) :
  all_chars is_digit (String c s) = true ->
  exists d,
    NilEmpty.uint_of_string (String c s) = Some d
    /\ py_int max_str_digits (String c s)
       = (if fits max_str_digits (String.length (String c s))
          then Some (Z.of_uint d) else None)
    /\ py_int max_str_digits (String "-" (String c s))
       = (if fits max_str_digits (String.length (String c s))
          then Some (- Z.of_uint d) else None).
Proof.
  intros Hs. destruct (uint_of_digits _ Hs) as [d Hd]. exists d.
  split; [done|].
  assert (Hsd : all_chars sign_or_digit (String c s) = true).
  { apply (all_chars_impl is_digit); [|done].
    intros e He. by apply is_digit_facts. }
  pose proof Hs as Hc. simpl in Hc. apply andb_true_iff in Hc as [Hc _].
  destruct (is_digit_facts c Hc) as [Hc1 _].
  destruct (sign_or_digit_facts c Hc1) as (_ & _ & _ & Hplus & _ & Hminus).
  specialize (Hminus Hc).
  assert (Hsign : split_sign (String c s) = (false, String c s)).
  { unfold split_sign.
    destruct c as [[] [] [] [] [] [] [] []]; try done;
      by vm_compute in Hplus, Hminus. }
  split.
  - unfold py_int. rewrite (signed_strip_int _ Hsd), Hsign.
    rewrite (digit_groups_plain c s Hs).
    destruct (fits max_str_digits _); [|done].
    unfold NilZero.uint_of_string. by rewrite Hd.
  - unfold py_int. rewrite signed_strip_int.
    + cbn [split_sign]. rewrite (digit_groups_plain c s Hs).
      destruct (fits max_str_digits _); [|done].
      unfold NilZero.uint_of_string. by rewrite Hd.
    + change (all_chars sign_or_digit (String "-" (String c s)))
        with (sign_or_digit "-" && all_chars sign_or_digit (String c s)).
      by rewrite Hsd.
Qed.


Lemma py_int_two_minus (r : string) :
  all_chars sign_or_digit r = true ->
  py_int max_str_digits (String "-" (String "-" r)) = None.
Proof.
  intros Hr. unfold py_int. rewrite signed_strip_int; [done|].
  change (all_chars sign_or_digit (String "-" (String "-" r)))
    with (sign_or_digit "-" && (sign_or_digit "-" && all_chars sign_or_digit r)).
  by rewrite Hr.
Qed.

Lemma py_int_superscript (c : ascii) (s : string) :
  all_chars isdigit_char (String c s) = true ->
  all_chars is_digit (String c s) = false ->
  py_int max_str_digits (String c s) = None
  /\ py_int max_str_digits (String "-" (String c s)) = None.
Proof.
  intros Hs Hd.
  assert (Hsd : all_chars sign_or_digit (String c s) = true).
  { apply (all_chars_impl isdigit_char); [|done].
    intros e He. by apply isdigit_char_facts. }
  pose proof Hs as Hc. simpl in Hc. apply andb_true_iff in Hc as [Hc _].
  destruct (isdigit_char_facts c Hc) as (Hc1 & Hminus & _ & _).
  destruct (sign_or_digit_facts c Hc1) as (_ & _ & _ & Hplus & _ & _).
  assert (Hsign : split_sign (String c s) = (false, String c s)).
  { unfold split_sign.
    destruct c as [[] [] [] [] [] [] [] []]; try done;
      by vm_compute in Hplus, Hminus. }
  split.
  - unfold py_int. rewrite (signed_strip_int _ Hsd), Hsign.
    by rewrite (digit_groups_superscript false _ Hs Hd).
  - unfold py_int. rewrite signed_strip_int.
    + cbn [split_sign]. by rewrite (digit_groups_superscript false _ Hs Hd).
    + change (all_chars sign_or_digit (String "-" (String c s)))
        with (sign_or_digit "-" && all_chars sign_or_digit (String c s)).
      by rewrite Hsd.
Qed.

End Limit.

(** The three shapes of a string that passes the digit test. *)
Lemma signed_cases (s : string) :
  isdigit (lstrip "-" s) = true ->
  exists c t,
    lstrip "-" s = String c t
    /\ all_chars isdigit_char (String c t) = true
    /\ ((exists r, s = String "-" (String "-" r))
        \/ s = String c t \/ s = String "-" (String c t)).
Proof.
  intros Hs.
  assert (Hbody : forall r, isdigit (lstrip "-" r) = true ->
            Ascii.eqb (match r with String a _ => a | EmptyString => "-"%char end)
              "-" = false ->
            exists c t, r = String c t /\ lstrip "-" r = r
              /\ all_chars isdigit_char (String c t) = true).
  { intros [|a r]; [done|]. intros Hr Ha.
    change (lstrip "-" (String a r))
      with (if mem a "-" then lstrip "-" r else String a r) in *.
    rewrite mem_minus, Ha in *. exists a, r. split; [done|]. split; [done|].
    unfold isdigit in Hr. by apply andb_true_iff in Hr as [_ Hr]. }
  destruct s as [|a s]; [done|].
  destruct (Ascii.eqb a "-") eqn:Ha.
  - apply Ascii.eqb_eq in Ha. subst a.
    change (lstrip "-" (String "-" s)) with (lstrip "-" s) in *.
    destruct s as [|b s]; [done|].
    destruct (Ascii.eqb b "-") eqn:Hb.
    + apply Ascii.eqb_eq in Hb. subst b.
      assert (Hall := isdigit_signed _ Hs).
      unfold isdigit in Hs. apply andb_true_iff in Hs as [Hne Hs].
      destruct (lstrip "-" (String "-" s)) as [|c t] eqn:Hl; [done|].
      exists c, t. split; [done|]. split; [done|]. left. by exists s.
    + destruct (Hbody (String b s) Hs Hb) as (c & t & Hct & Hl & Hd).
      exists c, t. rewrite Hl. split; [done|]. split; [done|].
      right. right. by rewrite Hct.
  - destruct (Hbody (String a s) Hs Ha) as (c & t & Hct & Hl & Hd).
    exists c, t. rewrite Hl. split; [done|]. split; [done|]. right. by left.
Qed.

Lemma startswith_two_minus (c : ascii) (t : string) :
  isdigit_char c = true ->
  startswith "--" (String c t) = false
  /\ startswith "--" (String "-" (String c t)) = false
  /\ lstrip "-" (String "-" (String c t)) = String c t
  /\ lstrip "-" (String c t) = String c t.
Proof.
  intros Hc. destruct (isdigit_char_facts c Hc) as (_ & Hm & _ & Hmem).
  unfold startswith. cbn [strip_prefix].
  rewrite (Ascii.eqb_sym "-" c), Hm.
  change (Ascii.eqb "-" "-") with true. cbn iota.
  split; [done|]. split; [done|].
  change (lstrip "-" (String "-" (String c t))) with (lstrip "-" (String c t)).
  change (lstrip "-" (String c t))
    with (if mem c "-" then lstrip "-" t else String c t).
  by rewrite Hmem.
Qed.

(** [int] on a string that passes the digit test. *)
Lemma numeric_outcome (max_str_digits : option nat) (s : string) :
  isdigit (lstrip "-" s) = true ->
  if malformed max_str_digits s
  then int_or_raise max_str_digits s = RaisesValueError
  else exists d,
    NilEmpty.int_of_string s = Some d
    /\ int_or_raise max_str_digits s = Returns (IdInt (Z.of_int d)).
Proof.
  intros Hs. pose proof (isdigit_signed _ Hs) as Hall.
  destruct (signed_cases s Hs) as (c & t & Hl & Hd & [[r ->] | [-> | ->]]).
  - unfold malformed, int_or_raise.
    change (startswith "--" (String "-" (String "-" r))) with true.
    cbn [orb]. rewrite py_int_two_minus; [done|].
    exact Hall.
  - pose proof Hd as Hc. simpl in Hc. apply andb_true_iff in Hc as [Hc _].
    destruct (startswith_two_minus c t Hc) as (H1 & _ & _ & H2).
    unfold malformed, int_or_raise. rewrite H1, H2. cbn [orb].
    destruct (all_chars is_digit (String c t)) eqn:Hdig.
    + destruct (py_int_plain max_str_digits c t Hdig) as (d & Hu & Hp & _).
      rewrite Hp. cbn [negb orb].
      destruct (fits max_str_digits _); [|done]. cbn [negb].
      exists (Decimal.Pos d). split; [|done].
      unfold NilEmpty.int_of_string.
      rewrite (proj1 (proj2 (isdigit_char_facts c Hc))). by rewrite Hu.
    + cbn [negb orb].
      by rewrite (proj1 (py_int_superscript max_str_digits c t Hd Hdig)).
  - pose proof Hd as Hc. simpl in Hc. apply andb_true_iff in Hc as [Hc _].
    destruct (startswith_two_minus c t Hc) as (_ & H1 & H2 & _).
    unfold malformed, int_or_raise. rewrite H1, H2. cbn [orb].
    destruct (all_chars is_digit (String c t)) eqn:Hdig.
    + destruct (py_int_plain max_str_digits c t Hdig) as (d & Hu & _ & Hp).
      rewrite Hp. cbn [negb orb].
      destruct (fits max_str_digits _); [|done]. cbn [negb].
      exists (Decimal.Neg d). split; [|done].
      unfold NilEmpty.int_of_string.
      change (Ascii.eqb "-" "-") with true. cbn iota. by rewrite Hu.
    + cbn [negb orb].
      by rewrite (proj2 (py_int_superscript max_str_digits c t Hd Hdig)).
Qed.

(** A string that passes the digit test is no web address, and nothing
    is stripped from it. *)
Lemma parse_numeric (max_str_digits : option nat) (s : string) :
  isdigit (lstrip "-" s) = true ->
  _parse_identifier max_str_digits s = int_or_raise max_str_digits s.
Proof.
  intros Hs. pose proof (isdigit_signed _ Hs) as Hall.
  unfold _parse_identifier.
  by rewrite (signed_strip_ws _ Hall), (signed_not_web _ Hall), Hs.
Qed.

Lemma parse_strip (max_str_digits : option nat) (identifier : string) :
  _parse_identifier max_str_digits (strip_ws identifier)
  = _parse_identifier max_str_digits identifier.
Proof.
  unfold _parse_identifier, strip_ws. by rewrite strip_by_idem.
Qed.

(** *** The decimal text of an integer *)

Lemma of_uint_nonneg (d : Decimal.uint) : 0 <= Z.of_uint d.
Proof. unfold Z.of_uint. apply N2Z.is_nonneg. Qed.

Lemma string_of_uint_nonnil (d : Decimal.uint) :
  d <> Decimal.Nil -> NilZero.string_of_uint d = NilEmpty.string_of_uint d.
Proof. by destruct d. Qed.

Lemma unorm_nonnil (d : Decimal.uint) : Decimal.unorm d <> Decimal.Nil.
Proof. unfold Decimal.unorm. by destruct (Decimal.nzhead d). Qed.

(** The text of the number a literal denotes: the literal without its
    leading zeros. *)
Lemma decimal_of_uint (d : Decimal.uint) :
  decimal (Z.of_uint d) = NilEmpty.string_of_uint (Decimal.unorm d).
Proof.
  unfold decimal. change (Z.of_uint d) with (Z.of_int (Decimal.Pos d)).
  rewrite DecimalZ.to_of. cbn [Decimal.norm NilZero.string_of_int].
  apply string_of_uint_nonnil, unorm_nonnil.
Qed.

Lemma decimal_shape (v : Z) :
  exists d c t,
    NilEmpty.string_of_uint d = String c t
    /\ Z.of_uint d = Z.abs v
    /\ decimal (Z.abs v) = String c t
    /\ decimal v = if v <? 0 then String "-" (String c t) else String c t.
Proof.
  assert (Hpos : forall p, exists c t,
            NilEmpty.string_of_uint (Pos.to_uint p) = String c t
            /\ NilZero.string_of_uint (Pos.to_uint p) = String c t).
  { intros p. pose proof (DecimalPos.Unsigned.to_uint_nonnil p) as Hn.
    rewrite (string_of_uint_nonnil _ Hn).
    destruct (Pos.to_uint p); [done|simpl; eauto ..]. }
  assert (Hof : forall p, Z.of_uint (Pos.to_uint p) = Z.pos p).
  { intros p. unfold Z.of_uint. by rewrite DecimalPos.Unsigned.of_to. }
  destruct v as [|p|p].
  - by exists (Decimal.D0 Decimal.Nil), "0"%char, EmptyString.
  - destruct (Hpos p) as (c & t & H1 & H2).
    exists (Pos.to_uint p), c, t. by rewrite Hof.
  - destruct (Hpos p) as (c & t & H1 & H2).
    exists (Pos.to_uint p), c, t. rewrite Hof. split; [done|]. split; [done|].
    split; [done|]. unfold decimal. cbn. by rewrite H2.
Qed.

(** *** The fragment of a web address *)

Lemma digits_at_shape (s g : string) :
  digits_at s = Some g ->
  exists c t, g = String c t /\ all_chars is_digit (String c t) = true.
Proof.
  unfold digits_at. destruct (span_len is_digit s) as [|n] eqn:Hn; [done|].
  intros [= <-]. destruct s as [|c s]; [done|].
  exists c, (take n s). split; [done|].
  change (String c (take n s)) with (take (S n) (String c s)).
  apply span_len_all. lia.
Qed.

Lemma group_at_shape (s g : string) :
  group_at s = Some g ->
  exists c t,
    all_chars is_digit (String c t) = true
    /\ (g = String c t \/ g = String "-" (String c t)).
Proof.
  unfold group_at. destruct (strip_prefix "#" s) as [r|]; [|done].
  destruct (strip_prefix "-" r) as [r'|].
  - destruct (digits_at r') as [g'|] eqn:Hg'.
    + cbn. intros [= <-].
      destruct (digits_at_shape _ _ Hg') as (c & t & -> & Hd). eauto.
    + cbn. intros (c & t & -> & Hd)%digits_at_shape. eauto.
  - intros (c & t & -> & Hd)%digits_at_shape. eauto.
Qed.

Lemma search_id_shape (s g : string) :
  search_id s = Some g ->
  exists c t,
    all_chars is_digit (String c t) = true
    /\ (g = String c t \/ g = String "-" (String c t)).
Proof.
  induction s as [|a s IH]; cbn [search_id].
  - destruct (group_at "") eqn:Hg; [|done].
    intros [= <-]. by apply (group_at_shape "").
  - destruct (group_at (String a s)) eqn:Hg; [|done].
    intros [= <-]. by apply (group_at_shape (String a s)).
Qed.

Lemma web_id_int (max_str_digits : option nat) (g t : string) :
  web_id max_str_digits g <> Returns (IdStr t).
Proof. unfold web_id, int_or_raise. by repeat case_match. Qed.

Lemma int_or_raise_int (max_str_digits : option nat) (s t : string) :
  int_or_raise max_str_digits s <> Returns (IdStr t).
Proof. unfold int_or_raise. by case_match. Qed.

Lemma prefix_100 (x : string) :
  "-100" ++ x = String "-" (String "1" (String "0" (String "0" x))).
Proof. done. Qed.

(** The branch of a web address, on the two shapes of the group. *)
Lemma web_id_spec (max_str_digits : option nat)
    (negative : bool) (c : ascii) (t : string) :
  all_chars is_digit (String c t) = true ->
  fits max_str_digits (String.length (String c t) + 3) = true ->
  let g := if negative then String "-" (String c t) else String c t in
  exists d v,
    NilEmpty.int_of_string g = Some d
    /\ web_id max_str_digits g = Returns (IdInt v)
    /\ (if (Z.of_int d <? 0) && negb (startswith "-100" (decimal (Z.of_int d)))
        then decimal v = "-100" ++ decimal (- Z.of_int d)
        else v = Z.of_int d)
    /\ (v < 0 -> startswith "-100" (decimal v) = true).
Proof.
  intros Hd Hfit g.
  destruct (py_int_plain max_str_digits c t Hd) as (d & Hu & Hp & Hn).
  assert (Hfit1 : fits max_str_digits (String.length (String c t)) = true).
  { apply (fits_le max_str_digits _ (String.length (String c t) + 3));
      [lia | done]. }
  rewrite Hfit1 in Hp, Hn.
  pose proof (of_uint_nonneg d) as Hnn.
  pose proof Hd as Hc. simpl in Hc. apply andb_true_iff in Hc as [Hc _].
  destruct (is_digit_facts c Hc) as [_ Hc1].
  destruct negative; subst g.
  - exists (Decimal.Neg d).
    change (Z.of_int (Decimal.Neg d)) with (- Z.of_uint d).
    assert (Hi : NilEmpty.int_of_string (String "-" (String c t))
                 = Some (Decimal.Neg d)).
    { unfold NilEmpty.int_of_string. change (Ascii.eqb "-" "-") with true.
      cbn iota. by rewrite Hu. }
    unfold web_id. rewrite Hn.
    destruct (Z.ltb_spec (- Z.of_uint d) 0) as [Hneg|Hpos]; cbn [andb].
    + assert (Habs : Z.abs (- Z.of_uint d) = Z.of_uint d) by lia.
      assert (Hdn : d <> Decimal.Nil).
      { intros ->. by apply NilEmpty.sus in Hu. }
      assert (Hlen : (String.length (decimal (Z.of_uint d))
                      <= String.length (String c t))%nat).
      { rewrite decimal_of_uint, length_string_of_uint.
        rewrite <- (NilEmpty.sus _ _ Hu), length_string_of_uint.
        by apply DecimalFacts.nb_digits_unorm. }
      assert (Hfit2 : fits max_str_digits (digit_count (- Z.of_uint d)) = true).
      { unfold digit_count. rewrite Habs.
        apply (fits_le _ _ _ Hlen Hfit1). }
      unfold py_str. rewrite Hfit2.
      destruct (startswith "-100" (decimal (- Z.of_uint d))) eqn:Hsw;
        cbn [negb].
      * exists (- Z.of_uint d). by rewrite Hsw.
      * unfold digit_count. rewrite Z.abs_idemp, Habs.
        rewrite (fits_le _ _ _ Hlen Hfit1).
        rewrite decimal_of_uint, prefix_100.
        set (digits := NilEmpty.string_of_uint (Decimal.unorm d)).
        assert (Hdigits : all_chars is_digit
                  (String "1" (String "0" (String "0" digits))) = true).
        { cbn [all_chars]. unfold digits. by rewrite digits_string_of_uint. }
        destruct (py_int_plain max_str_digits _ _ Hdigits)
          as (d' & Hu' & _ & Hp').
        cbn [NilEmpty.uint_of_string] in Hu'. unfold digits in Hu'.
        rewrite NilEmpty.usu in Hu'. cbn in Hu'. injection Hu' as <-.
        unfold int_or_raise. rewrite Hp'.
        rewrite (fits_le max_str_digits _ (String.length (String c t) + 3)).
        -- eexists. split; [done|]. split; [done|].
           assert (Hdec : decimal
                     (- Z.of_uint
                          (Decimal.D1 (Decimal.D0 (Decimal.D0 (Decimal.unorm d)))))
                   = "-100" ++ digits).
           { unfold decimal.
             change (- Z.of_uint ?x) with (Z.of_int (Decimal.Neg x)).
             rewrite DecimalZ.to_of. cbn.
             by rewrite prefix_100. }
           rewrite Hdec. split.
           ++ by rewrite Z.opp_involutive, decimal_of_uint.
           ++ intros _. by rewrite prefix_100.
        -- rewrite decimal_of_uint in Hlen. fold digits in Hlen.
           cbn [String.length] in *. lia.
        -- done.
    + exists (- Z.of_uint d). split; [done|]. split; [done|]. split; [done|].
      lia.
  - exists (Decimal.Pos d).
    change (Z.of_int (Decimal.Pos d)) with (Z.of_uint d).
    assert (Hi : NilEmpty.int_of_string (String c t) = Some (Decimal.Pos d)).
    { unfold NilEmpty.int_of_string.
      rewrite (proj1 (proj2 (isdigit_char_facts c Hc1))). by rewrite Hu. }
    unfold web_id. rewrite Hp.
    destruct (Z.ltb_spec (Z.of_uint d) 0) as [Hneg|Hpos]; [lia|].
    exists (Z.of_uint d). cbn [andb]. split; [done|]. split; [done|].
    split; [done|]. lia.
Qed.

(** The text of an integer passes the digit test, and [int] reads it
    back. *)
Lemma decimal_numeric (max_str_digits : option nat) (v : Z) :
  isdigit (lstrip "-" (decimal v)) = true
  /\ int_or_raise max_str_digits (decimal v)
     = if fits max_str_digits (digit_count v) then Returns (IdInt v)
       else RaisesValueError.
Proof.
  destruct (decimal_shape v) as (d & c & t & Hs & Hof & Habs & Hv).
  assert (Hd : all_chars is_digit (String c t) = true).
  { rewrite <- Hs. apply digits_string_of_uint. }
  pose proof Hd as Hc. simpl in Hc. apply andb_true_iff in Hc as [Hc _].
  destruct (is_digit_facts c Hc) as [_ Hc1].
  destruct (startswith_two_minus c t Hc1) as (_ & _ & H1 & H2).
  assert (Hdig : isdigit (String c t) = true).
  { unfold isdigit. cbn [truthy andb].
    apply (all_chars_impl is_digit); [|done].
    intros e He. by apply is_digit_facts. }
  destruct (py_int_plain max_str_digits c t Hd) as (d' & Hu & Hp & Hn).
  rewrite <- Hs, NilEmpty.usu in Hu. injection Hu as <-.
  unfold digit_count. rewrite Habs, Hv.
  destruct (Z.ltb_spec v 0) as [Hneg|Hpos].
  - split; [by rewrite H1|]. unfold int_or_raise. rewrite Hn.
    destruct (fits max_str_digits _); [|done]. do 2 f_equal. lia.
  - split; [by rewrite H2|]. unfold int_or_raise. rewrite Hp.
    destruct (fits max_str_digits _); [|done]. do 2 f_equal. lia.
Qed.

End IdentifierFacts.

Import Identifier IdentifierSpec IdentifierFacts.

(** X20. An identifier that, once stripped, is made of minus signs
    followed by characters that [str.isdigit] accepts is never returned as
    a name: the function raises ValueError when it starts with two minus
    signs, holds a digit character that is not a decimal digit, or has
    more digits than the interpreter converts, and returns the integer
    written in it otherwise. The identifiers are strings of code points
    below 256: there the decimal digits are 0-9 and the digit characters
    that are not decimal are the superscripts one, two and three. *)
Theorem numeric_identifier_outcome
    (max_str_digits : option nat) (identifier : string) :
  isdigit (PyStr.lstrip "-" (strip_ws identifier)) = true ->
  if malformed max_str_digits (strip_ws identifier)
  then _parse_identifier max_str_digits identifier = RaisesValueError
  else exists d,
    NilEmpty.int_of_string (strip_ws identifier) = Some d
    /\ _parse_identifier max_str_digits identifier
       = Returns (IdInt (Z.of_int d)).
Proof.
  intros Hs. rewrite <- parse_strip, (parse_numeric _ _ Hs).
  by apply numeric_outcome.
Qed.

Lemma numeric_identifier_outcome_witness :
  _parse_identifier (Some 4300%nat) " --5 " = RaisesValueError
  /\ exists d,
       NilEmpty.int_of_string "-1002179184691" = Some d
       /\ _parse_identifier None "-1002179184691 "
          = Returns (IdInt (Z.of_int d)).
Proof.
  split.
  - exact (numeric_identifier_outcome (Some 4300%nat) " --5 " eq_refl).
  - exact (numeric_identifier_outcome None "-1002179184691 " eq_refl).
Defined.

(** X21. The decimal text of an integer is read back as that integer:
    what [str] writes for a channel id, the function returns as the id,
    as long as the text has no more digits than the interpreter
    converts. *)
Theorem decimal_text_round_trip (max_str_digits : option nat) (v : Z) :
  _parse_identifier max_str_digits (decimal v)
  = if fits max_str_digits (digit_count v) then Returns (IdInt v)
    else RaisesValueError.
Proof.
  destruct (decimal_numeric max_str_digits v) as [Hdigits Hint].
  rewrite (parse_numeric _ _ Hdigits). exact Hint.
Qed.

(** X22. When the function returns a name, the name is the identifier
    without the whitespace around it, it does not pass the digit test,
    and the function returns it unchanged when it is given again. *)
Theorem name_is_returned_stripped
    (max_str_digits : option nat) (identifier t : string) :
  _parse_identifier max_str_digits identifier = Returns (IdStr t) ->
  t = strip_ws identifier
  /\ isdigit (PyStr.lstrip "-" t) = false
  /\ _parse_identifier max_str_digits t = Returns (IdStr t).
Proof.
  intros H. pose proof H as H'. unfold _parse_identifier in H'. revert H'.
  set (s := strip_ws identifier).
  destruct (if contains "web.telegram.org" s then search_id s else None)
    as [g|] eqn:Hm.
  { intros H'. by apply web_id_int in H'. }
  destruct (isdigit (PyStr.lstrip "-" s)) eqn:Hs.
  { intros H'. by apply int_or_raise_int in H'. }
  intros [= Ht]. rewrite <- Ht. split; [done|]. split; [exact Hs|].
  subst s. rewrite parse_strip, H. by rewrite Ht.
Qed.

Lemma name_is_returned_stripped_witness :
  "@channelname" = strip_ws "  @channelname "
  /\ isdigit (PyStr.lstrip "-" "@channelname") = false
  /\ _parse_identifier None "@channelname" = Returns (IdStr "@channelname").
Proof.
  exact (name_is_returned_stripped None "  @channelname " "@channelname"
           eq_refl).
Defined.

(** X23. A web address whose fragment holds a number yields an integer,
    never a name: the number itself when it is not negative or is
    written with the prefix -100 already, and otherwise the number
    written as -100 followed by its digits. A negative id returned for
    a web address therefore always starts with -100. *)
Theorem web_id_gets_channel_prefix
    (max_str_digits : option nat) (identifier g : string) :
  contains "web.telegram.org" (strip_ws identifier) = true ->
  search_id (strip_ws identifier) = Some g ->
  fits max_str_digits (String.length g + 3) = true ->
  exists d v,
    NilEmpty.int_of_string g = Some d
    /\ _parse_identifier max_str_digits identifier = Returns (IdInt v)
    /\ (if (Z.of_int d <? 0)
           && negb (PyStr.startswith "-100" (decimal (Z.of_int d)))
        then decimal v = "-100" ++ decimal (- Z.of_int d)
        else v = Z.of_int d)
    /\ (v < 0 -> PyStr.startswith "-100" (decimal v) = true).
Proof.
  intros Hweb Hsearch Hfit. unfold _parse_identifier.
  rewrite Hweb, Hsearch.
  destruct (search_id_shape _ _ Hsearch) as (c & t & Hd & [-> | ->]).
  - by apply (web_id_spec max_str_digits false c t).
  - apply (web_id_spec max_str_digits true c t); [done|].
    apply (fits_le max_str_digits _
             (String.length (String "-" (String c t)) + 3));
      [cbn [String.length]; lia | done].
Qed.

Lemma web_id_gets_channel_prefix_witness :
  exists d v,
    NilEmpty.int_of_string "-2179184691" = Some d
    /\ _parse_identifier (Some 4300%nat)
         "https://web.telegram.org/k/#-2179184691" = Returns (IdInt v)
    /\ (if (Z.of_int d <? 0)
           && negb (PyStr.startswith "-100" (decimal (Z.of_int d)))
        then decimal v = "-100" ++ decimal (- Z.of_int d)
        else v = Z.of_int d)
    /\ (v < 0 -> PyStr.startswith "-100" (decimal v) = true).
Proof.
  exact (web_id_gets_channel_prefix (Some 4300%nat)
           "https://web.telegram.org/k/#-2179184691" "-2179184691"
           eq_refl eq_refl eq_refl).
Defined.

(** ** Channel metadata *)

Module InfoFacts.
Import PyStr Identifier IdentifierSpec IdentifierFacts ChannelInfo.

Section InfoFacts.
Variable max_str_digits : option nat.
Variable get_entity : target -> attempt Entity.

Lemma name_of_spec (entity : Entity) (n : string) :
  name_of max_str_digits entity = Done n ->
  truthy n = true
  /\ match truthy_opt (getattr (entity_username entity) None) with
     | Some username => n = username
     | None =>
         n = decimal (entity_id entity)
         /\ fits max_str_digits (digit_count (entity_id entity)) = true
     end.
Proof.
  unfold name_of.
  destruct (truthy_opt (getattr (entity_username entity) None))
    as [u|] eqn:Hu.
  - intros [= <-]. split; [|done]. unfold truthy_opt in Hu.
    destruct (getattr (entity_username entity) None) as [u'|]; [|done].
    destruct (truthy u') eqn:Hu'; [|done]. by injection Hu as <-.
  - unfold py_str.
    destruct (fits max_str_digits (digit_count (entity_id entity)));
      [|done].
    intros [= <-]. split; [|done].
    destruct (decimal_shape (entity_id entity)) as (d & c & t & _ & _ & _ & ->).
    by destruct (entity_id entity <? 0).
Qed.

Lemma info_dict_spec (entity full : Entity) (d : channel_dict) :
  info_dict max_str_digits entity full = Done d ->
  name_of max_str_digits entity = Done (d_name d)
  /\ d_channel_name d = d_name d
  /\ d_id d = entity_id entity.
Proof.
  unfold info_dict.
  destruct (name_of max_str_digits entity) as [n|e]; [|done].
  by intros [= <-].
Qed.

Lemma get_channel_info_returns (identifier : string) (d : channel_dict) :
  get_channel_info max_str_digits get_entity identifier = InfoReturns d ->
  exists resolved entity full,
    _parse_identifier max_str_digits identifier = Returns resolved
    /\ get_entity (ByIdentifier resolved) = Done entity
    /\ get_entity (ByEntity entity) = Done full
    /\ info_dict max_str_digits entity full = Done d.
Proof.
  unfold get_channel_info, fetch_info.
  destruct (_parse_identifier max_str_digits identifier) as [resolved|];
    [|done].
  destruct (get_entity (ByIdentifier resolved)) as [entity|e] eqn:He.
  - destruct (get_entity (ByEntity entity)) as [full|e] eqn:Hf.
    + destruct (info_dict max_str_digits entity full) as [d'|e] eqn:Hd.
      * intros [= <-]. by exists resolved, entity, full.
      * by destruct e.
    + by destruct e.
  - by destruct e.
Qed.

End InfoFacts.

End InfoFacts.

Import ChannelInfo InfoFacts.

(** X24. The only ValueError that leaves get_channel_info is the one
    the parser of the identifier raises: a ValueError raised by
    Telethon, or by the construction of the dictionary, comes out as
    InvalidChannelError. So an identifier of minus signs and digits
    that int refuses makes get_channel_info raise a bare ValueError,
    whatever Telethon would answer. The exceptions of the handlers
    carry the identifier as it was given. *)
Theorem value_error_leaves_only_from_parser
    (max_str_digits : option nat) (get_entity : target -> attempt Entity)
    (identifier : string) :
  (get_channel_info max_str_digits get_entity identifier
   = InfoRaises UncaughtValueError
   <-> _parse_identifier max_str_digits identifier = RaisesValueError)
  /\ (isdigit (PyStr.lstrip "-" (strip_ws identifier)) = true ->
      malformed max_str_digits (strip_ws identifier) = true ->
      get_channel_info max_str_digits get_entity identifier
      = InfoRaises UncaughtValueError)
  /\ (forall channel,
        get_channel_info max_str_digits get_entity identifier
        = InfoRaises (NotMemberError channel)
        \/ get_channel_info max_str_digits get_entity identifier
           = InfoRaises (InvalidChannelError channel) ->
        channel = identifier).
Proof.
  assert (Hiff : get_channel_info max_str_digits get_entity identifier
                 = InfoRaises UncaughtValueError
                 <-> _parse_identifier max_str_digits identifier
                     = RaisesValueError).
  { unfold get_channel_info.
    destruct (_parse_identifier max_str_digits identifier) as [resolved|];
      [|done].
    split; [|done].
    destruct (fetch_info max_str_digits get_entity resolved) as [d|[]];
      done. }
  split; [exact Hiff|]. split.
  - intros Hs Hbad. apply Hiff.
    rewrite <- parse_strip, (parse_numeric _ _ Hs).
    pose proof (numeric_outcome max_str_digits _ Hs) as H.
    by rewrite Hbad in H.
  - intros channel. unfold get_channel_info.
    destruct (_parse_identifier max_str_digits identifier) as [resolved|].
    + destruct (fetch_info max_str_digits get_entity resolved) as [d|[]];
        intros [H | H]; congruence.
    + intros [H | H]; congruence.
Qed.

(** X25. The channel name that get_channel_info returns, which the
    application stores and later passes to fetch_messages, is never
    empty and equals the name entry. It is the user name of the entity
    when there is one; otherwise it is the decimal text of the id of
    the entity, and the parser of identifiers turns it back into that
    id. *)
Theorem stored_channel_name_resolves
    (max_str_digits : option nat) (get_entity : target -> attempt Entity)
    (identifier : string) (d : channel_dict) :
  get_channel_info max_str_digits get_entity identifier = InfoReturns d ->
  d_name d = d_channel_name d
  /\ PyStr.truthy (d_channel_name d) = true
  /\ exists resolved entity,
       _parse_identifier max_str_digits identifier = Returns resolved
       /\ get_entity (ByIdentifier resolved) = Done entity
       /\ d_id d = entity_id entity
       /\ match truthy_opt (getattr (entity_username entity) None) with
          | Some username => d_channel_name d = username
          | None =>
              d_channel_name d = decimal (entity_id entity)
              /\ _parse_identifier max_str_digits (d_channel_name d)
                 = Returns (IdInt (entity_id entity))
          end.
Proof.
  intros (resolved & entity & full & Hp & He & _ & Hd)%get_channel_info_returns.
  destruct (info_dict_spec _ _ _ _ Hd) as (Hn & Hc & Hid).
  destruct (name_of_spec _ _ _ Hn) as [Ht Hname].
  rewrite Hc. split; [done|]. split; [done|].
  exists resolved, entity. split; [done|]. split; [done|]. split; [done|].
  destruct (truthy_opt (getattr (entity_username entity) None)); [done|].
  destruct Hname as [Hname Hfit]. split; [done|].
  rewrite Hname.
  destruct (decimal_numeric max_str_digits (entity_id entity))
    as [Hdigits Hint].
  by rewrite (parse_numeric _ _ Hdigits), Hint, Hfit.
Qed.

Lemma stored_channel_name_resolves_witness :
  let entity := {| entity_id := 2179184691;
                   entity_username := Present None;
                   entity_title := Present (Some "News");
                   participants_count := Missing |} in
  let d := {| d_name := "2179184691";
              d_channel_name := "2179184691";
              d_id := 2179184691;
              d_username := None;
              d_member_count := 0;
              d_display_name := Some "News";
              d_description := EmptyString |} in
  d_name d = d_channel_name d
  /\ PyStr.truthy (d_channel_name d) = true
  /\ exists resolved entity',
       _parse_identifier (Some 4300%nat)
         "https://web.telegram.org/k/#-2179184691" = Returns resolved
       /\ (fun _ => Done entity) (ByIdentifier resolved) = Done entity'
       /\ d_id d = entity_id entity'
       /\ match truthy_opt (getattr (entity_username entity') None) with
          | Some username => d_channel_name d = username
          | None =>
              d_channel_name d = decimal (entity_id entity')
              /\ _parse_identifier (Some 4300%nat) (d_channel_name d)
                 = Returns (IdInt (entity_id entity'))
          end.
Proof.
  intros entity d.
  exact (stored_channel_name_resolves (Some 4300%nat) (fun _ => Done entity)
           "https://web.telegram.org/k/#-2179184691" d eq_refl).
Defined.

(** ** Text of an imported message *)

Module HtmlFacts.
Import PyStr Identifier IdentifierFacts HtmlText HtmlTextSpec RegexFacts.

(** *** Runs of whitespace *)

Lemma space_facts (c : ascii) :
  is_space c = true ->
  Ascii.eqb c "<" = false /\ Ascii.eqb c ">" = false
  /\ Ascii.eqb ">" c = false
  /\ (plain_space c = true -> c = " "%char).
Proof. destruct c as [[] [] [] [] [] [] [] []]; by vm_compute. Qed.

Lemma no_space_facts (c : ascii) :
  is_space c = false -> Ascii.eqb " " c = false /\ plain_space c = true.
Proof. destruct c as [[] [] [] [] [] [] [] []]; by vm_compute. Qed.

Lemma contains_cons (sub : string) (c : ascii) (s : string) :
  contains sub (String c s) = startswith sub (String c s) || contains sub s.
Proof. done. Qed.

Lemma startswith_cons (a : ascii) (p : string) (c : ascii) (s : string) :
  startswith (String a p) (String c s)
  = if Ascii.eqb a c then startswith p s else false.
Proof. unfold startswith. cbn [strip_prefix]. by destruct (Ascii.eqb a c). Qed.

Lemma sub_spaces_cons (b : bool) (c : ascii) (s : string) :
  sub_spaces_from b (String c s)
  = if is_space c
    then (if b then sub_spaces_from true s
          else String " " (sub_spaces_from true s))
    else String c (sub_spaces_from false s).
Proof. done. Qed.

Lemma sub_spaces_plain (b : bool) (s : string) :
  all_chars plain_space (sub_spaces_from b s) = true.
Proof.
  revert b. induction s as [|c s IH]; intros b; [done|].
  rewrite sub_spaces_cons. destruct (is_space c) eqn:Hc.
  - destruct b; [apply IH|]. cbn [all_chars]. by rewrite IH.
  - cbn [all_chars]. by rewrite IH, (proj2 (no_space_facts c Hc)).
Qed.

Lemma sub_spaces_single (b : bool) (s : string) :
  contains "  " (sub_spaces_from b s) = false
  /\ (b = true -> startswith " " (sub_spaces_from b s) = false).
Proof.
  revert b. induction s as [|c s IH]; intros b; [done|].
  rewrite sub_spaces_cons. destruct (is_space c) eqn:Hc.
  - destruct b; [apply IH|]. split; [|done].
    rewrite contains_cons, startswith_cons. change (Ascii.eqb " " " ") with true.
    cbn iota. destruct (IH true) as [H1 H2]. by rewrite H1, H2.
  - destruct (no_space_facts c Hc) as [Hsp _].
    rewrite contains_cons, !startswith_cons, Hsp.
    split; [|done]. cbn [orb]. apply IH.
Qed.

Lemma sub_spaces_nil (b : bool) (s : string) :
  sub_spaces_from b s = EmptyString -> all_chars is_space s = true.
Proof.
  revert b. induction s as [|c s IH]; intros b; [done|].
  rewrite sub_spaces_cons. destruct (is_space c) eqn:Hc; [|done].
  destruct b; [|done]. intros H. cbn [all_chars]. by rewrite Hc, (IH true H).
Qed.

Lemma rstrip_by_all (p : ascii -> bool) (s : string) :
  all_chars p s = true -> rstrip_by p s = EmptyString.
Proof.
  induction s as [|c s IH]; [done|]. cbn [all_chars].
  intros [Hc Hs]%andb_true_iff. by rewrite rstrip_by_cons, (IH Hs), Hc.
Qed.

Lemma length_lstrip_by (p : ascii -> bool) (s : string) :
  (String.length (lstrip_by p s) <= String.length s)%nat.
Proof.
  induction s as [|c s IH]; [done|]. rewrite lstrip_by_cons.
  destruct (p c); cbn [String.length]; lia.
Qed.

Lemma lstrip_by_fixed (p : ascii -> bool) (c : ascii) (s : string) :
  lstrip_by p (String c s) = String c s -> p c = false.
Proof.
  rewrite lstrip_by_cons. destruct (p c); [|done]. intros H.
  pose proof (length_lstrip_by p s) as Hl. rewrite H in Hl.
  cbn [String.length] in Hl. lia.
Qed.

(** A string stripped on the right is the empty string, or ends the
    way it did. *)
Lemma rstrip_by_fixed (p : ascii -> bool) (c : ascii) (s : string) :
  rstrip_by p (String c s) = String c s ->
  (s = EmptyString /\ p c = false)
  \/ (s <> EmptyString /\ rstrip_by p s = s).
Proof.
  rewrite rstrip_by_cons. destruct (rstrip_by p s) as [|d kept] eqn:Hk.
  - destruct (p c); [done|]. intros [= <-]. by left.
  - intros [= <-]. by right.
Qed.

Lemma rstrip_by_keep (p : ascii -> bool) (c : ascii) (s : string) :
  s <> EmptyString -> rstrip_by p s = s ->
  rstrip_by p (String c s) = String c s.
Proof.
  intros Hne Hs. rewrite rstrip_by_cons, Hs. by destruct s.
Qed.

Lemma rstrip_sub_spaces (b : bool) (s : string) :
  rstrip_by is_space s = s ->
  rstrip_by is_space (sub_spaces_from b s) = sub_spaces_from b s.
Proof.
  revert b. induction s as [|c s IH]; intros b; [done|].
  intros [[-> Hc] | [Hne Hs]]%rstrip_by_fixed.
  - rewrite sub_spaces_cons, Hc. cbn [sub_spaces_from].
    by rewrite rstrip_by_cons, Hc.
  - assert (Hout : forall b', sub_spaces_from b' s <> EmptyString).
    { intros b' H%sub_spaces_nil. apply rstrip_by_all in H. congruence. }
    rewrite sub_spaces_cons. destruct (is_space c).
    + destruct b; [by apply IH|].
      apply rstrip_by_keep; [apply Hout | by apply IH].
    + apply rstrip_by_keep; [apply Hout | by apply IH].
Qed.

Lemma lstrip_sub_spaces (s : string) :
  lstrip_by is_space s = s ->
  lstrip_by is_space (sub_spaces_from false s) = sub_spaces_from false s.
Proof.
  destruct s as [|c s]; [done|]. intros Hc%lstrip_by_fixed.
  by rewrite sub_spaces_cons, Hc, lstrip_by_cons, Hc.
Qed.

Lemma strip_by_fixed (p : ascii -> bool) (s : string) :
  lstrip_by p (strip_by p s) = strip_by p s
  /\ rstrip_by p (strip_by p s) = strip_by p s.
Proof.
  unfold strip_by. split; [apply lstrip_by_idem|].
  apply rstrip_by_lstrip_by, rstrip_by_idem.
Qed.

Lemma strip_sub_spaces (s : string) :
  strip_ws (sub_spaces (strip_ws s)) = sub_spaces (strip_ws s).
Proof.
  destruct (strip_by_fixed is_space s) as [Hl Hr].
  fold (strip_ws s) in Hl, Hr. generalize dependent (strip_ws s).
  intros t Hl Hr. unfold strip_ws, strip_by, sub_spaces.
  rewrite (rstrip_sub_spaces false t Hr). by apply lstrip_sub_spaces.
Qed.

(** A single-spaced text has no run to replace. *)
Lemma sub_spaces_fixed (s : string) :
  all_chars plain_space s = true -> contains "  " s = false ->
  sub_spaces_from false s = s
  /\ (startswith " " s = false -> sub_spaces_from true s = s).
Proof.
  induction s as [|c s IH]; [done|]. cbn [all_chars].
  intros [Hc Hs]%andb_true_iff. rewrite contains_cons.
  intros [Hsw Hcs]%orb_false_iff. destruct (IH Hs Hcs) as [IH1 IH2].
  rewrite !sub_spaces_cons. destruct (is_space c) eqn:Hsp.
  - pose proof (proj2 (proj2 (proj2 (space_facts c Hsp))) Hc) as ->.
    rewrite !startswith_cons in *. change (Ascii.eqb " " " ") with true in *.
    cbn iota in *. split; [|done]. by rewrite (IH2 Hsw).
  - by rewrite IH1.
Qed.

(** *** Tags *)

Lemma tag_at_other (c : ascii) (s : string) :
  Ascii.eqb c "<" = false -> tag_at (String c s) = None.
Proof.
  intros Hc. unfold tag_at. cbn [strip_prefix].
  by rewrite (Ascii.eqb_sym "<" c), Hc.
Qed.

Lemma mem_cons (a c : ascii) (s : string) :
  mem a (String c s) = Ascii.eqb a c || mem a s.
Proof. simpl. by destruct (Ascii.eqb a c). Qed.

(** Where the run of the tag pattern stops: at the end of the text, or
    at the first closing sign. *)
Lemma span_not_gt (r : string) :
  match drop (span_len not_gt r) r with
  | EmptyString => mem ">" r = false
  | String d _ => d = ">"%char /\ mem ">" r = true
  end.
Proof.
  induction r as [|c r IH]; [done|]. cbn [span_len]. unfold not_gt at 1.
  rewrite mem_cons, (Ascii.eqb_sym ">" c).
  destruct (Ascii.eqb_spec c ">") as [->|Hc]; cbn [negb drop orb]; [done|].
  exact IH.
Qed.

Lemma tag_at_open (r : string) :
  tag_at (String "<" r) = None <-> unclosed r = true.
Proof.
  unfold tag_at. cbn [strip_prefix]. change (Ascii.eqb "<" "<") with true.
  cbn iota. pose proof (span_not_gt r) as Hspan.
  destruct r as [|d r]; [done|]. unfold unclosed.
  cbn [span_len] in *. unfold not_gt at 1 in Hspan. unfold not_gt at 1.
  destruct (Ascii.eqb d ">") eqn:Hd; cbn [negb orb] in *; [done|].
  cbn [drop] in *.
  destruct (drop (span_len not_gt r) r) as [|e rest].
  - cbn [strip_prefix]. by rewrite Hspan.
  - destruct Hspan as [-> Hm]. cbn [strip_prefix].
    change (Ascii.eqb ">" ">") with true. cbn iota. by rewrite Hm.
Qed.

Lemma tag_at_unclosed (c : ascii) (r : string) :
  (Ascii.eqb c "<" = true -> unclosed r = true) ->
  tag_at (String c r) = None.
Proof.
  intros H. destruct (Ascii.eqb_spec c "<") as [->|Hc].
  - by apply tag_at_open, H.
  - apply tag_at_other. by apply Ascii.eqb_neq.
Qed.

Lemma tag_at_none (c : ascii) (r : string) :
  tag_at (String c r) = None ->
  Ascii.eqb c "<" = true -> unclosed r = true.
Proof. intros H ->%Ascii.eqb_eq. by apply tag_at_open. Qed.

Lemma no_tag_cons (c : ascii) (r : string) :
  no_tag (String c r) = true
  <-> tag_at (String c r) = None /\ no_tag r = true.
Proof.
  cbn [no_tag]. destruct (tag_at (String c r)).
  - split; [done|]. by intros [? _].
  - split; [done|]. by intros [_ ?].
Qed.

Lemma no_tag_app (a s : string) :
  all_chars no_sign a = true -> no_tag s = true -> no_tag (a ++ s) = true.
Proof.
  intros Ha Hs. induction a as [|c a IH]; [done|].
  cbn [all_chars] in Ha. apply andb_true_iff in Ha as [Hc Ha].
  rewrite append_cons. apply no_tag_cons. split; [|by apply IH].
  apply tag_at_other. unfold no_sign in Hc.
  apply andb_true_iff in Hc as [Hc _]. by apply negb_true_iff.
Qed.

Section SubTags.
Variable repl : string.
Hypothesis repl_plain : all_chars no_sign repl = true.

Lemma sub_tags_skip (k : nat) (s : string) :
  sub_tags_from k repl s = sub_tags_from O repl (drop k s).
Proof.
  revert k. induction s as [|c s IH]; intros [|k]; try done.
  cbn [sub_tags_from drop]. apply IH.
Qed.

Lemma sub_tags_cons (c : ascii) (s : string) :
  sub_tags_from O repl (String c s)
  = match tag_at (String c s) with
    | Some n => repl ++ sub_tags_from O repl (drop (Nat.pred n) s)
    | None => String c (sub_tags_from O repl s)
    end.
Proof.
  cbn [sub_tags_from]. destruct (tag_at (String c s)); [|done].
  by rewrite sub_tags_skip.
Qed.

Lemma length_drop (k : nat) (s : string) :
  (String.length (drop k s) <= String.length s)%nat.
Proof.
  revert k. induction s as [|c s IH]; intros [|k]; cbn [drop String.length];
    try lia. specialize (IH k). lia.
Qed.

(** Without closing sign there is nothing to replace. *)
Lemma sub_tags_no_gt (s : string) :
  mem ">" s = false -> sub_tags_from O repl s = s.
Proof.
  induction s as [|c s IH]; [done|]. rewrite mem_cons.
  intros [Hc Hs]%orb_false_iff. rewrite sub_tags_cons.
  rewrite tag_at_unclosed; [by rewrite (IH Hs)|].
  intros _. unfold unclosed. destruct s as [|d s]; [done|].
  by rewrite Hs, orb_true_r.
Qed.

Lemma sub_tags_unclosed (r : string) :
  unclosed r = true -> unclosed (sub_tags_from O repl r) = true.
Proof.
  destruct r as [|d r]; [done|]. unfold unclosed at 1.
  destruct (Ascii.eqb_spec d ">") as [->|Hd]; cbn [orb].
  - intros _. rewrite sub_tags_cons, tag_at_other; done.
  - intros Hm%negb_true_iff. rewrite (sub_tags_no_gt _ Hm).
    unfold unclosed. by rewrite Hm, orb_true_r.
Qed.

Lemma no_tag_sub_tags_bounded (n : nat) (s : string) :
  (String.length s <= n)%nat -> no_tag (sub_tags_from O repl s) = true.
Proof.
  revert s. induction n as [|n IH]; intros [|c s] Hn; try done.
  { cbn [String.length] in Hn. lia. }
  cbn [String.length] in Hn. rewrite sub_tags_cons.
  destruct (tag_at (String c s)) as [m|] eqn:Hm.
  - apply no_tag_app; [done|]. apply IH.
    pose proof (length_drop (Nat.pred m) s). lia.
  - apply no_tag_cons. split; [|apply IH; lia].
    apply tag_at_unclosed. intros Hc. apply sub_tags_unclosed.
    by apply (tag_at_none c).
Qed.

Lemma no_tag_sub_tags (s : string) : no_tag (sub_tags repl s) = true.
Proof. by apply (no_tag_sub_tags_bounded (String.length s)). Qed.

(** A text without tag is left as it is. *)
Lemma sub_tags_fixed (s : string) :
  no_tag s = true -> sub_tags repl s = s.
Proof.
  unfold sub_tags. induction s as [|c s IH]; [done|].
  intros [Ht Hs]%no_tag_cons. by rewrite sub_tags_cons, Ht, (IH Hs).
Qed.

End SubTags.

(** *** Stripping and replacing whitespace keep a text free of tags *)

Lemma no_tag_lstrip (p : ascii -> bool) (s : string) :
  no_tag s = true -> no_tag (lstrip_by p s) = true.
Proof.
  induction s as [|c s IH]; [done|]. intros H. rewrite lstrip_by_cons.
  destruct (p c); [|done]. apply IH. by apply no_tag_cons in H as [_ H].
Qed.

Lemma rstrip_by_head (p : ascii -> bool) (d : ascii) (r : string) :
  rstrip_by p (String d r) = EmptyString
  \/ exists kept, rstrip_by p (String d r) = String d kept.
Proof.
  rewrite rstrip_by_cons. destruct (rstrip_by p r) as [|e kept].
  - destruct (p d); [by left | right; by eexists].
  - right. by eexists.
Qed.

Lemma mem_rstrip_by (p : ascii -> bool) (a : ascii) (s : string) :
  mem a s = false -> mem a (rstrip_by p s) = false.
Proof.
  induction s as [|c s IH]; [done|]. rewrite mem_cons.
  intros [Hc Hs]%orb_false_iff. rewrite rstrip_by_cons.
  specialize (IH Hs). destruct (rstrip_by p s) as [|e kept].
  - destruct (p c); [done|]. by rewrite mem_cons, Hc.
  - by rewrite mem_cons, Hc, IH.
Qed.

Lemma rstrip_unclosed (p : ascii -> bool) (r : string) :
  unclosed r = true -> unclosed (rstrip_by p r) = true.
Proof.
  destruct r as [|d r]; [done|]. unfold unclosed at 1.
  destruct (rstrip_by_head p d r) as [-> | [kept Hk]]; [done|].
  destruct (Ascii.eqb d ">") eqn:Hd; cbn [orb].
  - intros _. rewrite Hk. unfold unclosed. by rewrite Hd.
  - intros Hm%negb_true_iff. apply (mem_rstrip_by p) in Hm.
    rewrite Hk in *. unfold unclosed. by rewrite Hm, orb_true_r.
Qed.

Lemma no_tag_rstrip (p : ascii -> bool) (s : string) :
  no_tag s = true -> no_tag (rstrip_by p s) = true.
Proof.
  induction s as [|c s IH]; [done|]. intros [Ht Hs]%no_tag_cons.
  specialize (IH Hs).
  assert (Hc : no_tag (String c (rstrip_by p s)) = true).
  { apply no_tag_cons. split; [|done]. apply tag_at_unclosed.
    intros Hc. apply rstrip_unclosed. by apply (tag_at_none c). }
  rewrite rstrip_by_cons. destruct (rstrip_by p s) as [|e kept]; [|done].
  by destruct (p c).
Qed.

Lemma mem_sub_spaces (b : bool) (s : string) :
  mem ">" s = false -> mem ">" (sub_spaces_from b s) = false.
Proof.
  revert b. induction s as [|c s IH]; intros b; [done|]. rewrite mem_cons.
  intros [Hc Hs]%orb_false_iff. rewrite sub_spaces_cons.
  destruct (is_space c).
  - destruct b; [by apply IH|]. rewrite mem_cons. by rewrite IH.
  - by rewrite mem_cons, Hc, IH.
Qed.

Lemma sub_spaces_unclosed (r : string) :
  unclosed r = true -> unclosed (sub_spaces_from false r) = true.
Proof.
  destruct r as [|d r]; [done|]. unfold unclosed at 1.
  destruct (Ascii.eqb d ">") eqn:Hd; cbn [orb].
  - intros _. rewrite sub_spaces_cons.
    destruct (is_space d) eqn:Hsp.
    + by rewrite (proj1 (proj2 (space_facts d Hsp))) in Hd.
    + unfold unclosed. by rewrite Hd.
  - intros Hm%negb_true_iff. apply (mem_sub_spaces false) in Hm.
    destruct (sub_spaces_from false (String d r)); [done|].
    unfold unclosed. by rewrite Hm, orb_true_r.
Qed.

Lemma no_tag_sub_spaces (b : bool) (s : string) :
  no_tag s = true -> no_tag (sub_spaces_from b s) = true.
Proof.
  revert b. induction s as [|c s IH]; intros b; [done|].
  intros [Ht Hs]%no_tag_cons. rewrite sub_spaces_cons.
  destruct (is_space c) eqn:Hsp.
  - destruct b; [by apply IH|]. apply no_tag_cons.
    split; [by apply tag_at_other | by apply IH].
  - apply no_tag_cons. split; [|by apply IH]. apply tag_at_unclosed.
    intros Hc. apply sub_spaces_unclosed. by apply (tag_at_none c).
Qed.

Lemma no_tag_strip (p : ascii -> bool) (s : string) :
  no_tag s = true -> no_tag (strip_by p s) = true.
Proof. intros H. unfold strip_by. by apply no_tag_lstrip, no_tag_rstrip. Qed.

End HtmlFacts.

Import HtmlText HtmlTextSpec HtmlFacts.

(** X26. The text kept for an imported message is single-spaced: its
    only whitespace character is the space, no two spaces follow each
    other, and it neither starts nor ends with whitespace. *)
Theorem clean_text_single_spaced (raw_text : string) :
  PyStr.all_chars plain_space (clean_text raw_text) = true
  /\ contains "  " (clean_text raw_text) = false
  /\ strip_ws (clean_text raw_text) = clean_text raw_text.
Proof.
  unfold clean_text. split; [apply sub_spaces_plain|].
  split; [apply sub_spaces_single|]. apply strip_sub_spaces.
Qed.

(** X27. No tag is left in the text kept for an imported message, nor
    in the label of a button, and cleaning is idempotent: a text or a
    label that went through it comes out unchanged when it is cleaned
    again. *)
Theorem clean_text_no_tag_idempotent (raw_text : string) :
  no_tag (clean_text raw_text) = true
  /\ no_tag (button_label raw_text) = true
  /\ clean_text (clean_text raw_text) = clean_text raw_text
  /\ button_label (button_label raw_text) = button_label raw_text.
Proof.
  assert (Hclean : no_tag (clean_text raw_text) = true).
  { unfold clean_text, sub_spaces, strip_ws.
    apply no_tag_sub_spaces, no_tag_strip. by apply no_tag_sub_tags. }
  assert (Hlabel : no_tag (button_label raw_text) = true).
  { unfold button_label, strip_ws.
    apply no_tag_strip. by apply no_tag_sub_tags. }
  split; [done|]. split; [done|]. split.
  - unfold clean_text at 1. rewrite (sub_tags_fixed _ _ Hclean).
    unfold clean_text. rewrite strip_sub_spaces. unfold sub_spaces at 1.
    apply sub_spaces_fixed; [apply sub_spaces_plain | apply sub_spaces_single].
  - unfold button_label at 1. rewrite (sub_tags_fixed _ _ Hlabel).
    unfold button_label, strip_ws. apply strip_by_idem.
Qed.
